(** * organic-orm: a shallow embedding of the query compiler and model registry

    The development follows [src/index.ts] and [src/helpers.ts].  JavaScript
    values are a first-order datatype, thrown exceptions are an explicit
    [Result], objects used as dictionaries are finite maps or association
    lists (when key order is observable), and the pseudo random source behind
    [SqlBoundParams.uniqueName] is an explicit stream of draws. *)

From stdpp Require Import gmap strings list fin_maps.
From Stdlib Require Import ZArith DecimalString DecimalN DecimalPos Ascii String.

Open Scope string_scope.
Open Scope list_scope.
Set Warnings "-register-all".

(** ** JavaScript values *)

(** Numbers are restricted to integers: no claim depends on fractional
    values.  A [JNum n] stands for the number [n] where [n] is a safe
    integer ([isSafeInteger] below), the integers a JavaScript number holds
    exactly and prints digit by digit.  A [JObj] lists the own enumerable
    properties in [Object.keys] order; a [JArr] is an array. *)
Inductive JsValue : Type :=
| JUndefined
| JNull
| JBool (b : bool)
| JNum (n : Z)
| JStr (s : string)
| JArr (items : list JsValue)
| JObj (props : list (string * JsValue)).

(** [v == null] *)
Definition loose_eq_null (v : JsValue) : bool :=
  match v with
  | JUndefined | JNull => true
  | _ => false
  end.

(** Truthiness, as used by [!v], [v || w] and [if (v)]. *)
Definition js_truthy (v : JsValue) : bool :=
  match v with
  | JUndefined | JNull => false
  | JBool b => b
  | JNum n => negb (n =? 0)%Z
  | JStr s => negb (String.length s =? 0)%nat
  | JArr _ | JObj _ => true
  end.

(** [!v], itself a JavaScript boolean. *)
Definition js_not (v : JsValue) : JsValue := JBool (negb (js_truthy v)).

(** [typeof v === 'object'] *)
Definition typeof_object (v : JsValue) : bool :=
  match v with
  | JNull | JArr _ | JObj _ => true
  | _ => false
  end.

(** [typeof v === 'string'] *)
Definition typeof_string (v : JsValue) : bool :=
  match v with
  | JStr _ => true
  | _ => false
  end.

(** [Number.MAX_SAFE_INTEGER] and [Number.isSafeInteger] on an integer. *)
Definition MAX_SAFE_INTEGER : Z := 9007199254740991.
Definition isSafeInteger (n : Z) : bool := (Z.abs n <=? MAX_SAFE_INTEGER)%Z.

(** The decimal numeral of an integer, which is how JavaScript renders a
    safe integer as a string.  (Larger numbers are rounded, and from 1e21 on
    rendered with an exponent.) *)
Definition N_to_string (n : N) : string := NilZero.string_of_uint (N.to_uint n).
Definition Z_to_string (z : Z) : string := NilZero.string_of_int (Z.to_int z).
Definition nat_to_string (n : nat) : string := N_to_string (N.of_nat n).

(** String conversion as done by [+] on strings, template literals and, with
    [null]/[undefined] rendered empty, by [Array.prototype.join]. *)
Fixpoint js_to_string (v : JsValue) : string :=
  match v with
  | JUndefined => "undefined"
  | JNull => "null"
  | JBool true => "true"
  | JBool false => "false"
  | JNum n => Z_to_string n
  | JStr s => s
  | JArr items =>
      String.concat ","
        (map (fun x => match x with
                       | JUndefined | JNull => ""
                       | _ => js_to_string x
                       end) items)
  | JObj _ => "[object Object]"
  end.

Definition join_item (v : JsValue) : string :=
  match v with
  | JUndefined | JNull => ""
  | _ => js_to_string v
  end.

(** ** Strings *)

Definition startsWith (s prefix : string) : bool := String.prefix prefix s.

Definition lower_ascii (c : ascii) : ascii :=
  let n := N_of_ascii c in
  if ((65 <=? n) && (n <=? 90))%N then ascii_of_N (n + 32) else c.

Definition upper_ascii (c : ascii) : ascii :=
  let n := N_of_ascii c in
  if ((97 <=? n) && (n <=? 122))%N then ascii_of_N (n - 32) else c.

(** Strings are the UTF-8 bytes of the text; lengths and indices are those
    of JavaScript on ASCII text.  [s.toLowerCase()] maps the ASCII capitals
    and the Kelvin sign (U+212A, bytes 226 132 170), the one code point
    outside ASCII whose lower case is an ASCII letter.  The lower case of
    any other code point keeps a byte outside ASCII, so that leaving those
    code points as they are changes no comparison with an operator name. *)
Fixpoint toLowerCase (s : string) : string :=
  match s with
  | EmptyString => EmptyString
  | String c rest =>
      if (N_of_ascii c =? 226)%N
      then
        match rest with
        | String c1 (String c2 rest') =>
            if ((N_of_ascii c1 =? 132) && (N_of_ascii c2 =? 170))%N
            then String "k" (toLowerCase rest')
            else String c (toLowerCase rest)
        | _ => String c (toLowerCase rest)
        end
      else String (lower_ascii c) (toLowerCase rest)
  end.

(** [s.toUpperCase()], which the code compares with ['GROUP BY'] only: the
    ASCII letters, and the small y with ring above (U+1E99, bytes 225 186
    153), which becomes [Y] and a combining ring (bytes 204 138).  No other
    code point outside ASCII has one of the letters of GROUP BY in its
    upper case. *)
Fixpoint toUpperCase (s : string) : string :=
  match s with
  | EmptyString => EmptyString
  | String c rest =>
      if (N_of_ascii c =? 225)%N
      then
        match rest with
        | String c1 (String c2 rest') =>
            if ((N_of_ascii c1 =? 186) && (N_of_ascii c2 =? 153))%N
            then String "Y" (String (ascii_of_N 204) (String (ascii_of_N 138)
                                                        (toUpperCase rest')))
            else String c (toUpperCase rest)
        | _ => String c (toUpperCase rest)
        end
      else String (upper_ascii c) (toUpperCase rest)
  end.

(** [s.indexOf(c)]; [None] stands for -1. *)
Definition indexOf (s c : string) : option nat := String.index 0 c s.

(** [s.slice(0, n)] and [s.slice(n)] for [0 <= n]. *)
Definition slice_to (s : string) (n : nat) : string := String.substring 0 n s.
Definition slice_from (s : string) (n : nat) : string :=
  String.substring n (String.length s - n) s.

(** [s.charCodeAt(j)]; [None] stands for NaN. *)
Definition charCodeAt (s : string) (j : nat) : option N :=
  N_of_ascii <$> String.get j s.

(** The double quote character. *)
Definition dquote : string := String (ascii_of_N 34) EmptyString.

(** [list.join(sep)] on a list of strings. *)
Definition join (sep : string) (l : list string) : string := String.concat sep l.

(** ** helpers.ts *)

Definition isAlphaCode (ch : option N) : bool :=
  match ch with
  | None => false
  | Some ch => ((97 <=? ch) && (ch <=? 122) || (65 <=? ch) && (ch <=? 90))%N
  end.

Definition isDigitCode (ch : option N) : bool :=
  match ch with
  | None => false
  | Some ch => ((48 <=? ch) && (ch <=? 57))%N
  end.

(** [capitalize] is given model names, which start with an ASCII letter. *)
Definition capitalize (input : string) : string :=
  match input with
  | EmptyString => input
  | String c rest => String (upper_ascii c) rest
  end.

(** ** Exceptions *)

(** One constructor per [throw] site family of [index.ts]; [TypeError] is the
    runtime's own (reading a property of [undefined], calling a non-function,
    [Object.keys(null)]). *)
Inductive Error : Type :=
| ModelMismatchError
| InstanceInvalidError
| TypeError
| InvalidFieldName (name : string)
| FieldAlreadyExists (name : string)
| InvalidModelName (name : string)
| ModelAlreadyDefined (name : string)
| MultiplePrimaryKeys (model : string)
| InvalidPropertyValue (field : string)
| NoFieldNamed (name : string)
| RemoveWithoutCriteria
| UnexpectedOperator (key : string)
| UnexpectedValueUnderField
| ListOfValuesExpected
| InvalidOperator (operator : string)
| InvalidFieldNameValue (name : string)
| NoRelationFound (name : string)
| NoRelationFieldFound (name : string)
| InvalidSortingProperty (name : string)
| SchemaAlreadyFlushed
| NoConnection
| BackendError (msg : string).

Inductive Result (A : Type) : Type :=
| Ok (a : A)
| Throw (e : Error).

Arguments Ok {A} a.
Arguments Throw {A} e.

(** ** Identifier validation *)

Definition CHAR_UNDERSCORE : N := 95.
Definition ROWID : string := "rowid".

(** The [for (let j = 1; j < name.length; ++j)] loop of [isValidName];
    [steps] counts the remaining iterations. *)
Fixpoint isValidName_loop (name : string) (j steps : nat) : bool :=
  match steps with
  | O => true
  | S steps' =>
      let ch := charCodeAt name j in
      if negb (isAlphaCode ch || isDigitCode ch
               || match ch with Some c => (c =? CHAR_UNDERSCORE)%N | None => false end)
      then false
      else isValidName_loop name (S j) steps'
  end.

Definition isValidName (name : string) : bool :=
  if (String.length name =? 0)%nat || negb (isAlphaCode (charCodeAt name 0))
  then false
  else isValidName_loop name 1 (String.length name - 1).

(** ** Field specifications *)

Inductive TypeHint : Type := Text | Integer | Real | Blob | Boolean | Date.

Definition TypeHint_text (t : TypeHint) : string :=
  match t with
  | Text => "TEXT"
  | Integer => "INTEGER"
  | Real => "REAL"
  | Blob => "BLOB"
  | Boolean => "BOOLEAN"
  | Date => "DATE"
  end.

(** An absent property is [None].  Validators, serializers and generators are
    the caller's functions; they are taken to be total and pure. *)
Record FieldSpec : Type := {
  validate : option (JsValue -> bool);
  serialize : option (JsValue -> JsValue);
  deserialize : option (JsValue -> JsValue);
  typeHint : option TypeHint;
  allowNull : option bool;
  defaultValue : option JsValue;
  newGenerate : option (JsValue -> JsValue);
  unique : option bool;
  primaryKey : option bool;
  collation : option string
}.

Definition emptyFieldSpec : FieldSpec :=
  {| validate := None; serialize := None; deserialize := None; typeHint := None;
     allowNull := None; defaultValue := None; newGenerate := None;
     unique := None; primaryKey := None; collation := None |}.

(** [flag === true] and [flag === false] on an optional boolean property. *)
Definition is_true_flag (flag : option bool) : bool :=
  match flag with Some true => true | _ => false end.
Definition is_false_flag (flag : option bool) : bool :=
  match flag with Some false => true | _ => false end.

(** [Object.keys(fieldSpec).length === 0] *)
Definition hasNoKeys (fs : FieldSpec) : bool :=
  match validate fs, serialize fs, deserialize fs, typeHint fs, allowNull fs,
        defaultValue fs, newGenerate fs, unique fs, primaryKey fs, collation fs with
  | None, None, None, None, None, None, None, None, None, None => true
  | _, _, _, _, _, _, _, _, _, _ => false
  end.

(** The [for (let k of Object.keys(fieldSpec)) oldFieldSpec[k] = fieldSpec[k]]
    loop of [updateField]: every property present in [upd] replaces the old one. *)
Definition mergeFieldSpec (old upd : FieldSpec) : FieldSpec :=
  let pick {A : Type} (n o : option A) : option A :=
    match n with Some _ => n | None => o end in
  {| validate := pick (validate upd) (validate old);
     serialize := pick (serialize upd) (serialize old);
     deserialize := pick (deserialize upd) (deserialize old);
     typeHint := pick (typeHint upd) (typeHint old);
     allowNull := pick (allowNull upd) (allowNull old);
     defaultValue := pick (defaultValue upd) (defaultValue old);
     newGenerate := pick (newGenerate upd) (newGenerate old);
     unique := pick (unique upd) (unique old);
     primaryKey := pick (primaryKey upd) (primaryKey old);
     collation := pick (collation upd) (collation old) |}.

Module FieldSpecWrapper.

Record t : Type := mk { fieldName : string; fieldSpec : FieldSpec }.

Definition convertToDatabaseForm (this : t) (value : JsValue) : Result JsValue :=
  let fieldSpec := fieldSpec this in
  if negb (is_false_flag (allowNull fieldSpec)) && loose_eq_null value
  then Ok JNull
  else
    match validate fieldSpec with
    | Some check =>
        if negb (check value)
        then Throw (InvalidPropertyValue (fieldName this))
        else Ok (match serialize fieldSpec with
                 | None => value
                 | Some ser => ser value
                 end)
    | None =>
        Ok (match serialize fieldSpec with
            | None => value
            | Some ser => ser value
            end)
    end.

Definition convertFromDatabaseForm (this : t) (value : JsValue) : JsValue :=
  match deserialize (fieldSpec this) with
  | Some de => de value
  | None => value
  end.

End FieldSpecWrapper.

(** ** Relation edges *)

(** Models are mutable objects compared by identity; a [ModelRef] is such an
    identity and a [Heap] gives the current state of every model object. *)
Definition ModelRef : Type := nat.

Inductive RelationType : Type := OneToOne | ManyToOne | OneToMany | ManyToMany.

Definition RelationType_eqb (a b : RelationType) : bool :=
  match a, b with
  | OneToOne, OneToOne | ManyToOne, ManyToOne
  | OneToMany, OneToMany | ManyToMany, ManyToMany => true
  | _, _ => false
  end.

Module RelationFieldData.

(** The three subclasses; the constructor arguments are the public
    properties, in the order of the class constructors. *)
Inductive t : Type :=
| Single (name : string) (type : RelationType) (model companionModel : ModelRef)
         (isLeft : bool) (foreignKey : string)
| Many (name : string) (type : RelationType) (model companionModel : ModelRef)
       (isLeft : bool) (foreignKey : string)
| Multi (name : string) (type : RelationType) (model companionModel : ModelRef)
        (isLeft : bool) (relationModel : ModelRef)
        (leftForeignKey rightForeignKey : string).

Definition name (d : t) : string :=
  match d with
  | Single n _ _ _ _ _ | Many n _ _ _ _ _ | Multi n _ _ _ _ _ _ _ => n
  end.

Definition type (d : t) : RelationType :=
  match d with
  | Single _ ty _ _ _ _ | Many _ ty _ _ _ _ | Multi _ ty _ _ _ _ _ _ => ty
  end.

Definition model (d : t) : ModelRef :=
  match d with
  | Single _ _ m _ _ _ | Many _ _ m _ _ _ | Multi _ _ m _ _ _ _ _ => m
  end.

Definition companionModel (d : t) : ModelRef :=
  match d with
  | Single _ _ _ c _ _ | Many _ _ _ c _ _ | Multi _ _ _ c _ _ _ _ => c
  end.

Definition isLeft (d : t) : bool :=
  match d with
  | Single _ _ _ _ l _ | Many _ _ _ _ l _ | Multi _ _ _ _ l _ _ _ => l
  end.

(** [super(false)] for Single, [super(true)] for Many and Multi. *)
Definition resultsInMany (d : t) : bool :=
  match d with
  | Single _ _ _ _ _ _ => false
  | Many _ _ _ _ _ _ | Multi _ _ _ _ _ _ _ _ => true
  end.

End RelationFieldData.

(** ** Models *)

Inductive SortOrder : Type := Asc | Desc.

Record SortProp : Type := {
  by_ : string;
  order : option SortOrder;
  caseSensitive : option bool
}.

Record ModelOptions : Type := {
  createTimestamp : bool;
  updateTimestamp : bool;
  defaultSorting : option SortProp
}.

(** What [obj[key]] finds on a plain object literal [{}]: an own property, a
    member inherited from [Object.prototype] (a function, or the prototype
    itself for [__proto__]: never null, always truthy, and without any of the
    properties of a field wrapper), or nothing ([undefined]). *)
Inductive PropLookup (A : Type) : Type :=
| Own (a : A)
| Inherited
| Absent.

Arguments Own {A} a.
Arguments Inherited {A}.
Arguments Absent {A}.

Definition object_prototype_keys : list string :=
  [ "constructor"; "hasOwnProperty"; "isPrototypeOf"; "propertyIsEnumerable";
    "toLocaleString"; "toString"; "valueOf"; "__proto__";
    "__defineGetter__"; "__defineSetter__"; "__lookupGetter__"; "__lookupSetter__" ].

Fixpoint assoc {A : Type} (key : string) (l : list (string * A)) : option A :=
  match l with
  | [] => None
  | (k, a) :: rest => if String.eqb k key then Some a else assoc key rest
  end.

Definition object_get {A : Type} (obj : list (string * A)) (key : string) : PropLookup A :=
  match assoc key obj with
  | Some a => Own a
  | None =>
      if existsb (String.eqb key) object_prototype_keys then Inherited else Absent
  end.

Module Model.

(** [_spec] keeps the fields in [Object.keys] order, which is insertion order
    because every key passed [isValidName]. *)
Record t : Type := mk {
  name : string;
  _spec : list (string * FieldSpecWrapper.t);
  _constraints : list string;
  _options : ModelOptions;
  _relationFields : list RelationFieldData.t
}.

Definition fields (this : t) : list FieldSpecWrapper.t := map snd (_spec this).

Definition getFieldWrapper (this : t) (name : string) : PropLookup FieldSpecWrapper.t :=
  object_get (_spec this) name.

(** [this._spec[fieldName] == null ? null : this._spec[fieldName].fieldSpec];
    [None] stands for both [null] and the [undefined] read off an inherited
    member. *)
Definition getFieldSpec (this : t) (fieldName : string) : option FieldSpec :=
  match object_get (_spec this) fieldName with
  | Own w => Some (FieldSpecWrapper.fieldSpec w)
  | Inherited | Absent => None
  end.

Definition getFieldWrapperChecked (this : t) (name : string)
  : Result (PropLookup FieldSpecWrapper.t) :=
  match getFieldWrapper this name with
  | Absent => Throw (NoFieldNamed name)
  | fw => Ok fw
  end.

Definition addField (this : t) (fieldName : string) (fieldSpec : FieldSpec) : Result t :=
  if negb (isValidName fieldName)
  then Throw (InvalidFieldName fieldName)
  else
    match object_get (_spec this) fieldName with
    | Own _ | Inherited => Throw (FieldAlreadyExists fieldName)
    | Absent =>
        Ok (mk (name this)
               (_spec this ++ [(fieldName, FieldSpecWrapper.mk fieldName fieldSpec)])
               (_constraints this) (_options this) (_relationFields this))
    end.

Definition getPrimaryKeyName (this : t) : string :=
  match List.find (fun fsw => is_true_flag (primaryKey (FieldSpecWrapper.fieldSpec fsw)))
                  (fields this) with
  | None => ROWID
  | Some primary => FieldSpecWrapper.fieldName primary
  end.

Fixpoint replace_spec (fieldName : string) (upd : FieldSpec)
    (l : list (string * FieldSpecWrapper.t)) : list (string * FieldSpecWrapper.t) :=
  match l with
  | [] => []
  | (k, w) :: rest =>
      if String.eqb k fieldName
      then (k, FieldSpecWrapper.mk (FieldSpecWrapper.fieldName w)
                 (mergeFieldSpec (FieldSpecWrapper.fieldSpec w) upd)) :: rest
      else (k, w) :: replace_spec fieldName upd rest
  end.

(** Updating an inherited member reads its missing [fieldSpec] and then, for
    the first property of the update, assigns a property on [undefined].
    The field table is described by the values of the specification
    objects: [updateField] assigns into the object the wrapper holds, which
    is this description as long as no other wrapper holds the same object;
    [SharedSpec] below gives the objects their identity. *)
Definition updateField (this : t) (fieldName : string) (fieldSpec : FieldSpec) : Result t :=
  match object_get (_spec this) fieldName with
  | Absent => addField this fieldName fieldSpec
  | Inherited => if hasNoKeys fieldSpec then Ok this else Throw TypeError
  | Own _ =>
      Ok (mk (name this) (replace_spec fieldName fieldSpec (_spec this))
             (_constraints this) (_options this) (_relationFields this))
  end.

Definition getRelationFieldData (this : t) (name : string) : option RelationFieldData.t :=
  List.find (fun x => String.eqb (RelationFieldData.name x) name) (_relationFields this).

(** [new Date()].  A date is an object without own enumerable properties;
    the instant it holds is not modelled, so that its rendering as a string
    is not either. *)
Definition newDate : JsValue := JObj [].

(** The constructor: the options default to no timestamps and no sorting,
    every key of the specification goes through [addField], then the
    timestamp fields; [createdAt] generates the current date for a missing
    value. *)
Fixpoint addFields (this : t) (spec : list (string * FieldSpec)) : Result t :=
  match spec with
  | [] => Ok this
  | (fieldName, fs) :: rest =>
      match addField this fieldName fs with
      | Ok this' => addFields this' rest
      | Throw e => Throw e
      end
  end.

Definition new (name : string) (spec : list (string * FieldSpec))
    (options : ModelOptions) : Result t :=
  match addFields (mk name [] [] options []) spec with
  | Throw e => Throw e
  | Ok m1 =>
      match (if createTimestamp options
             then addField m1 "createdAt"
                    {| validate := None; serialize := None; deserialize := None;
                       typeHint := Some Date; allowNull := None; defaultValue := None;
                       newGenerate :=
                         Some (fun given => if loose_eq_null given then newDate else given);
                       unique := None; primaryKey := None; collation := None |}
             else Ok m1) with
      | Throw e => Throw e
      | Ok m2 =>
          if updateTimestamp options
          then addField m2 "updatedAt"
                 {| validate := None; serialize := None; deserialize := None;
                    typeHint := Some Date; allowNull := None; defaultValue := None;
                    newGenerate := None; unique := None; primaryKey := None;
                    collation := None |}
          else Ok m2
      end
  end.

End Model.

Definition Heap : Type := ModelRef -> Model.t.

(** ** Join conditions *)

(** [SingleRelationFieldData.isCompanion] *)
Definition isCompanion (d : RelationFieldData.t) : bool :=
  RelationType_eqb (RelationFieldData.type d) OneToOne && negb (RelationFieldData.isLeft d).

(** [MultiRelationFieldData.myForeignKey] and [otherForeignKey] *)
Definition myForeignKey (isLeft : bool) (leftForeignKey rightForeignKey : string) : string :=
  if isLeft then leftForeignKey else rightForeignKey.
Definition otherForeignKey (isLeft : bool) (leftForeignKey rightForeignKey : string) : string :=
  if isLeft then rightForeignKey else leftForeignKey.

(** [getJoinCondition] of the three subclasses, dispatched on the subclass.
    [!==] on models is inequality of references. *)
Definition getJoinCondition (heap : Heap) (this : RelationFieldData.t)
    (model : ModelRef) (companionAlias : string) (joinModel : ModelRef) : Result string :=
  match this with
  | RelationFieldData.Single _ _ thisModel companionModel _ foreignKey =>
      if negb (model =? thisModel)%nat || negb (joinModel =? companionModel)%nat
      then Throw ModelMismatchError
      else
        let companionPk := Model.getPrimaryKeyName (heap companionModel) in
        if negb (isCompanion this)
        then Ok (companionAlias +:+ "." +:+ companionPk +:+ " = "
                 +:+ Model.name (heap thisModel) +:+ "." +:+ foreignKey)
        else Ok (companionAlias +:+ "." +:+ foreignKey +:+ " = "
                 +:+ Model.name (heap thisModel) +:+ "."
                 +:+ Model.getPrimaryKeyName (heap thisModel))
  | RelationFieldData.Many _ _ thisModel companionModel _ foreignKey =>
      if negb (model =? thisModel)%nat || negb (joinModel =? companionModel)%nat
      then Throw ModelMismatchError
      else Ok (companionAlias +:+ "." +:+ foreignKey +:+ " = "
               +:+ Model.name (heap thisModel) +:+ "."
               +:+ Model.getPrimaryKeyName (heap thisModel))
  | RelationFieldData.Multi _ _ thisModel companionModel isLeft relationModel lfk rfk =>
      if negb (joinModel =? relationModel)%nat && negb (joinModel =? companionModel)%nat
      then Throw ModelMismatchError
      else if (model =? thisModel)%nat
      then
        if (joinModel =? relationModel)%nat
        then
          let pk := Model.getPrimaryKeyName (heap thisModel) in
          Ok (companionAlias +:+ "." +:+ myForeignKey isLeft lfk rfk +:+ " = "
              +:+ Model.name (heap thisModel) +:+ "." +:+ pk)
        else if (joinModel =? companionModel)%nat
        then
          let pk := Model.getPrimaryKeyName (heap companionModel) in
          Ok (companionAlias +:+ "." +:+ pk +:+ " IN (SELECT "
              +:+ otherForeignKey isLeft lfk rfk +:+ " FROM "
              +:+ Model.name (heap relationModel) +:+ " WHERE "
              +:+ myForeignKey isLeft lfk rfk +:+ " = "
              +:+ Model.name (heap thisModel) +:+ "."
              +:+ Model.getPrimaryKeyName (heap thisModel) +:+ ")")
        else Throw ModelMismatchError
      else if (model =? relationModel)%nat && (joinModel =? companionModel)%nat
      then
        let pk := Model.getPrimaryKeyName (heap companionModel) in
        Ok (companionAlias +:+ "." +:+ pk +:+ " = "
            +:+ Model.name (heap relationModel) +:+ "."
            +:+ otherForeignKey isLeft lfk rfk)
      else Throw ModelMismatchError
  end.

(** ** Bound parameters *)

Module SqlBoundParams.

(** [_bound] is an object used as a dictionary from placeholder name to value. *)
Abbreviation t := (gmap string JsValue).

(** ['uniq_' + Math.floor(Math.random() * 100000)]; [r] is the floored draw,
    a natural number below [100000]. *)
Definition uniqueName (r : N) : string := "uniq_" +:+ N_to_string r.

Definition bind (value : JsValue) (r : N) (this : t) : string * t :=
  let bindingName := uniqueName r in
  (":" +:+ bindingName, <[bindingName := value]> this).

(** [Object.assign(this._bound, another._bound)]: entries of [another] win. *)
Definition merge (this another : t) : t := another ∪ this.

Definition count (this : t) : nat := size this.

Definition empty : t := ∅.

End SqlBoundParams.

(** ** Parsed joins and the WHERE tree *)

Module JoinType.
Inductive t : Type := Inner | Left.
Definition text (j : t) : string :=
  match j with Inner => "INNER" | Left => "LEFT" end.
End JoinType.

Module ParsedJoin.

Record t : Type := mk {
  joinType : JoinType.t;
  sourceTable : string;
  selectWhere : option string;
  alias : string;
  condition : string
}.

Definition make (this : t) : string :=
  let alias := if negb (String.length (alias this) =? 0)%nat
               then "AS " +:+ alias this else "" in
  let source :=
    match selectWhere this with
    | None => sourceTable this
    | Some w => "SELECT * FROM " +:+ sourceTable this +:+ " WHERE " +:+ w
    end in
  JoinType.text (joinType this) +:+ " JOIN " +:+ source +:+ " " +:+ alias
    +:+ " ON " +:+ condition this.

End ParsedJoin.

Inductive WhereTreeContext : Type := Logical | Value.

Inductive WhereTreeOperator : Type := And | Or.

Definition WhereTreeOperator_text (o : WhereTreeOperator) : string :=
  match o with And => " AND " | Or => " OR " end.

Module WhereTree.

(** A child is a string or a tree: [Fragment] is the string. *)
Inductive t : Type :=
| Fragment (sql : string)
| Node (context : WhereTreeContext) (operator : WhereTreeOperator)
       (closestField : string) (children : list t).

Definition new (context : WhereTreeContext) (operator : WhereTreeOperator)
    (closestField : string) : t := Node context operator closestField [].

Definition append (this : t) (child : t) : t :=
  match this with
  | Fragment sql => Fragment sql
  | Node c o f children => Node c o f (children ++ [child])
  end.

Definition context (this : t) : WhereTreeContext :=
  match this with
  | Fragment _ => Logical
  | Node c _ _ _ => c
  end.

Definition closestField (this : t) : string :=
  match this with
  | Fragment _ => ""
  | Node _ _ f _ => f
  end.

Definition children (this : t) : list t :=
  match this with
  | Fragment _ => []
  | Node _ _ _ ch => ch
  end.

Fixpoint build (this : t) : string :=
  match this with
  | Fragment sql => sql
  | Node _ operator _ children =>
      match children with
      | [] => ""
      | [child] => build child
      | _ => join (WhereTreeOperator_text operator)
               (map (fun x => "(" +:+ build x +:+ ")") children)
      end
  end.

End WhereTree.

(** ** Query options *)

Inductive SortEntry : Type :=
| SortName (name : string)
| SortSpec (prop : SortProp).

Module JoinOption.
(** [relation] is the accessor object; only its [relationData] is read. *)
Record t : Type := mk { relation : RelationFieldData.t; type : JoinType.t }.
End JoinOption.

Module FindOptions.
Record t : Type := mk {
  where_ : option JsValue;
  limit : option Z;
  offset : option Z;
  fetchTotalCount : option bool;
  sort : option (list SortEntry);
  join : option (list JoinOption.t)
}.
End FindOptions.

Module UpdateOptions.
Record t : Type := mk { where_ : option JsValue; set : list (string * JsValue) }.
End UpdateOptions.

Module RemoveOptions.
Record t : Type := mk { where_ : option JsValue }.
End RemoveOptions.

Record BuiltSelectQuery : Type := {
  selectQuery : string;
  select_bound : SqlBoundParams.t;
  countQuery : option string
}.

Record BuiltQuery : Type := {
  query : string;
  bound : SqlBoundParams.t
}.

(** ** Property access on values *)

(** [Object.keys(v)] paired with [v[key]]. *)
Definition array_entries (items : list JsValue) : list (string * JsValue) :=
  imap (fun i x => (nat_to_string i, x)) items.

Definition string_entries (s : string) : list (string * JsValue) :=
  imap (fun i c => (nat_to_string i, JStr (String c EmptyString))) (list_ascii_of_string s).

Definition entries (v : JsValue) : Result (list (string * JsValue)) :=
  match v with
  | JUndefined | JNull => Throw TypeError
  | JObj props => Ok props
  | JArr items => Ok (array_entries items)
  | JStr s => Ok (string_entries s)
  | JBool _ | JNum _ => Ok []
  end.

(** [v.length] *)
Definition get_length (v : JsValue) : Result JsValue :=
  match v with
  | JUndefined | JNull => Throw TypeError
  | JArr items => Ok (JNum (Z.of_nat (List.length items)))
  | JStr s => Ok (JNum (Z.of_nat (String.length s)))
  | JObj props => Ok (default JUndefined (assoc "length" props))
  | JBool _ | JNum _ => Ok JUndefined
  end.

(** [v[0]] for a [v] that is neither null nor undefined. *)
Definition get_first (v : JsValue) : JsValue :=
  match v with
  | JArr (x :: _) => x
  | JStr (String c _) => JStr (String c EmptyString)
  | JObj props => default JUndefined (assoc "0" props)
  | _ => JUndefined
  end.

(** [v === n] for a number literal [n]. *)
Definition strict_eq_num (v : JsValue) (n : Z) : bool :=
  match v with
  | JNum m => (m =? n)%Z
  | _ => false
  end.

(** [whereClause == null ? { } : whereClause] in the [QueryBuilder] constructor. *)
Definition normalizeWhere (w : option JsValue) : JsValue :=
  match w with
  | None => JObj []
  | Some v => if loose_eq_null v then JObj [] else v
  end.

(** ** The query builders *)

Module QueryBuilder.

(** The mutable members of a builder.  [_draws] counts the calls made to
    [Math.random] so far. *)
Record State : Type := mkState {
  _globalWhere : WhereTree.t;
  _constraints : option (list string);
  _joins : option (list ParsedJoin.t);
  _extraColumns : option (list string);
  _bound : SqlBoundParams.t;
  _draws : nat
}.

Definition initial : State :=
  mkState (WhereTree.new Logical And "") None None None SqlBoundParams.empty 0.

(** A builder method: it may throw, and otherwise returns a value and the
    builder's new state. *)
Definition M (A : Type) : Type := State -> Result (A * State).

Definition ret {A : Type} (a : A) : M A := fun st => Ok (a, st).

Definition throw {A : Type} (e : Error) : M A := fun _ => Throw e.

Definition bindM {A B : Type} (m : M A) (k : A -> M B) : M B :=
  fun st =>
    match m st with
    | Ok (a, st') => k a st'
    | Throw e => Throw e
    end.

Definition lift {A : Type} (r : Result A) : M A :=
  fun st =>
    match r with
    | Ok a => Ok (a, st)
    | Throw e => Throw e
    end.

Notation "x <- c ;; k" := (bindM c (fun x => k))
  (at level 100, c at next level, right associativity).

Fixpoint mapM {A B : Type} (f : A -> M B) (l : list A) : M (list B) :=
  match l with
  | [] => ret []
  | x :: rest =>
      y <- f x ;;
      ys <- mapM f rest ;;
      ret (y :: ys)
  end.

(** A loop whose body updates a tree node. *)
Fixpoint forEach {A : Type} (f : A -> WhereTree.t -> M WhereTree.t) (l : list A)
    (node : WhereTree.t) : M WhereTree.t :=
  match l with
  | [] => ret node
  | x :: rest =>
      node' <- f x node ;;
      forEach f rest node'
  end.

Definition _mappedOperators : list (string * string) :=
  [ ("$eq", "="); ("$like", "LIKE"); ("$gt", ">"); ("$lt", "<");
    ("$gte", ">="); ("$lte", "<="); ("$ne", "<>"); ("$glob", "GLOB") ].

(** [_mappedOperators.get(k) as string] *)
Definition mapped_get (k : string) : string := default "undefined" (assoc k _mappedOperators).

Definition _addJoin (jd : ParsedJoin.t) : M unit :=
  fun st =>
    Ok (tt, mkState (_globalWhere st) (_constraints st)
              (Some (match _joins st with
                     | None => [jd]
                     | Some js => js ++ [jd]
                     end))
              (_extraColumns st) (_bound st) (_draws st)).

Definition _addConstraint (constr : string) : M unit :=
  fun st =>
    Ok (tt, mkState (_globalWhere st)
              (Some (match _constraints st with
                     | None => [constr]
                     | Some cs => cs ++ [constr]
                     end))
              (_joins st) (_extraColumns st) (_bound st) (_draws st)).

Definition _addExtraColumns (col : list string) : M unit :=
  fun st =>
    Ok (tt, mkState (_globalWhere st) (_constraints st) (_joins st)
              (Some (match _extraColumns st with
                     | None => col
                     | Some cs => cs ++ col
                     end))
              (_bound st) (_draws st)).

Definition set_globalWhere (node : WhereTree.t) : M unit :=
  fun st =>
    Ok (tt, mkState node (_constraints st) (_joins st) (_extraColumns st)
              (_bound st) (_draws st)).

(** [fsw.convertToDatabaseForm(v)] where [fsw] came out of a [_spec] lookup. *)
Definition callConvertToDatabaseForm (fsw : PropLookup FieldSpecWrapper.t) (v : JsValue)
  : Result JsValue :=
  match fsw with
  | Own w => FieldSpecWrapper.convertToDatabaseForm w v
  | Inherited | Absent => Throw TypeError
  end.

Definition _makeColumnListForModel (model : Model.t) (prefix : option string) : list string :=
  let columns :=
    map (fun fsw =>
           match prefix with
           | Some p =>
               if negb (String.length p =? 0)%nat
               then
                 let colName := p +:+ "." +:+ FieldSpecWrapper.fieldName fsw in
                 colName +:+ " AS " +:+ dquote +:+ colName +:+ dquote
               else FieldSpecWrapper.fieldName fsw
           | None => FieldSpecWrapper.fieldName fsw
           end) (Model.fields model) in
  match List.find (fun x => is_true_flag (primaryKey (FieldSpecWrapper.fieldSpec x)))
                  (Model.fields model) with
  | None =>
      let colName := Model.name model +:+ "." +:+ ROWID in
      columns ++ [colName +:+ " AS " +:+ dquote +:+ colName +:+ dquote]
  | Some _ => columns
  end.

Definition _makeSort (by_ : string) (order : option SortOrder) (caseSensitive : option bool)
  : string :=
  let collation := if is_true_flag caseSensitive then "" else "COLLATE NOCASE" in
  let sortOrder := match order with Some Desc => "DESC" | _ => "ASC" end in
  by_ +:+ " " +:+ collation +:+ " " +:+ sortOrder.

Section Builder.

Variable heap : Heap.
(** The successive values of [Math.floor(Math.random() * 100000)]. *)
Variable rand : nat -> N.
Variable _model : ModelRef.

(** [this._bound.bind(value)] *)
Definition bindValue (value : JsValue) : M string :=
  fun st =>
    let (placeholder, bound') := SqlBoundParams.bind value (rand (_draws st)) (_bound st) in
    Ok (placeholder,
        mkState (_globalWhere st) (_constraints st) (_joins st) (_extraColumns st)
                bound' (S (_draws st))).

Definition _attachColumn (fieldName : string)
  : M (PropLookup FieldSpecWrapper.t * string) :=
  match indexOf fieldName "$" with
  | None =>
      fsw <- lift (Model.getFieldWrapperChecked (heap _model) fieldName) ;;
      ret (fsw, Model.name (heap _model) +:+ "." +:+ fieldName)
  | Some O => throw (InvalidFieldNameValue fieldName)
  | Some sindex =>
      let relationName := slice_to fieldName sindex in
      let relatedFieldName := slice_from fieldName (sindex + 1) in
      if (String.length relationName =? 0)%nat || (String.length relatedFieldName =? 0)%nat
      then throw (InvalidFieldNameValue fieldName)
      else
        match Model.getRelationFieldData (heap _model) relationName with
        | None => throw (NoRelationFound fieldName)
        | Some relation =>
            let companion := RelationFieldData.companionModel relation in
            found <-
              match Model.getFieldWrapper (heap companion) relatedFieldName with
              | Absent =>
                  if RelationType_eqb (RelationFieldData.type relation) ManyToMany
                  then
                    match relation with
                    | RelationFieldData.Multi _ _ _ _ _ relationModel _ _ =>
                        match Model.getFieldWrapper (heap relationModel) relatedFieldName with
                        | Absent => throw (NoRelationFieldFound fieldName)
                        | field => ret (field, relationModel)
                        end
                    | _ => throw TypeError
                    end
                  else throw (NoRelationFieldFound fieldName)
              | field => ret (field, companion)
              end ;;
            let field := fst found in
            let relatedModel := snd found in
            let table := "__sa_" +:+ Model.name (heap relatedModel) in
            st <- (fun st => Ok (st, st)) ;;
            _ <-
              (if match _joins st with
                  | None => true
                  | Some js => negb (existsb (fun x => String.eqb (ParsedJoin.alias x) table) js)
                  end
               then
                 condition <- lift (getJoinCondition heap relation _model table relatedModel) ;;
                 _ <- _addJoin (ParsedJoin.mk JoinType.Left (Model.name (heap relatedModel))
                                  None table condition) ;;
                 if RelationFieldData.resultsInMany relation
                 then
                   if match _constraints st with
                      | None => true
                      | Some cs =>
                          negb (existsb (fun x => startsWith (toUpperCase x) "GROUP BY") cs)
                      end
                   then _addConstraint ("GROUP BY " +:+ Model.name (heap _model) +:+ "."
                                        +:+ Model.getPrimaryKeyName (heap _model))
                   else ret tt
                 else ret tt
               else ret tt) ;;
            ret (field, table +:+ "." +:+ relatedFieldName)
        end
  end.

Definition _buildMappedOperator (operator left : string) (right : JsValue)
    (parentNode : WhereTree.t) : M WhereTree.t :=
  fieldData <- _attachColumn left ;;
  rightConv <- lift (callConvertToDatabaseForm (fst fieldData) right) ;;
  placeholder <- bindValue rightConv ;;
  ret (WhereTree.append parentNode
         (WhereTree.Fragment (snd fieldData +:+ " " +:+ operator +:+ " " +:+ placeholder))).

Definition _buildOperator (operator left : string) (right : JsValue)
    (parentNode : WhereTree.t) : M WhereTree.t :=
  match assoc operator _mappedOperators with
  | Some mapped => _buildMappedOperator mapped left right parentNode
  | None =>
      if String.eqb operator "$in" || String.eqb operator "$notin"
      then
        len <- lift (get_length right) ;;
        if negb (js_truthy len)
        then throw ListOfValuesExpected
        else if strict_eq_num len 1
        then _buildMappedOperator
               (mapped_get (if String.eqb operator "$in" then "$eq" else "$ne"))
               left (get_first right) parentNode
        else
          fieldData <- _attachColumn left ;;
          match right with
          | JArr items =>
              list <- mapM (fun x =>
                              conv <- lift (callConvertToDatabaseForm (fst fieldData) x) ;;
                              bindValue conv) items ;;
              let mapped := if String.eqb operator "$in" then "IN" else "NOT IN" in
              ret (WhereTree.append parentNode
                     (WhereTree.Fragment (snd fieldData +:+ " " +:+ mapped +:+ " ("
                                          +:+ join ", " list +:+ ")")))
          | _ => throw TypeError
          end
      else throw (InvalidOperator operator)
  end.

(** [_buildWhereNode].  The two loops over [Object.keys(value)] recurse into
    the properties of an object and the elements of an array.  The characters
    of a string reached under [$and]/[$or] are strings, hence plain values
    under a numeric key in a Logical node: the call made for each of them is
    the [_buildMappedOperator] one. *)
Fixpoint _buildWhereNode (key : string) (value : JsValue) (parentNode : WhereTree.t)
    {struct value} : M WhereTree.t :=
  let subNodes (node : WhereTree.t) : M WhereTree.t :=
    match value with
    | JUndefined | JNull => throw TypeError
    | JBool _ | JNum _ => ret node
    | JStr s =>
        forEach (fun kv n => _buildMappedOperator "=" (fst kv) (snd kv) n)
                (string_entries s) node
    | JArr items =>
        (fix loop (l : list JsValue) (i : nat) (n : WhereTree.t) : M WhereTree.t :=
           match l with
           | [] => ret n
           | sub :: rest =>
               n' <- _buildWhereNode (nat_to_string i) sub n ;;
               loop rest (S i) n'
           end) items O node
    | JObj props =>
        (fix loop (l : list (string * JsValue)) (n : WhereTree.t) : M WhereTree.t :=
           match l with
           | [] => ret n
           | (subKey, sub) :: rest =>
               n' <- _buildWhereNode subKey sub n ;;
               loop rest n'
           end) props node
    end in
  if startsWith key "$"
  then
    let key := toLowerCase key in
    match WhereTree.context parentNode with
    | Logical =>
        if String.eqb key "$and" || String.eqb key "$or"
        then
          let operator := if String.eqb key "$and" then And else Or in
          node <- subNodes (WhereTree.new Logical operator "") ;;
          ret (WhereTree.append parentNode node)
        else throw (UnexpectedOperator key)
    | Value =>
        _buildOperator (toLowerCase key) (WhereTree.closestField parentNode) value parentNode
    end
  else
    match WhereTree.context parentNode with
    | Logical =>
        if typeof_object value && negb (loose_eq_null value)
        then
          node <- subNodes (WhereTree.new Value And key) ;;
          ret (WhereTree.append parentNode node)
        else _buildMappedOperator "=" key value parentNode
    | Value => throw UnexpectedValueUnderField
    end.

(** [_buildWhere]: every call receives [this._globalWhere]. *)
Definition _buildWhere (_whereClause : JsValue) : M unit :=
  es <- lift (entries _whereClause) ;;
  st <- (fun st => Ok (st, st)) ;;
  node <- forEach (fun kv n => _buildWhereNode (fst kv) (snd kv) n) es (_globalWhere st) ;;
  set_globalWhere node.

Definition _makeWhere (st : State) : string :=
  let whereClause := WhereTree.build (_globalWhere st) in
  if negb (String.length whereClause =? 0)%nat then "WHERE " +:+ whereClause else "".

End Builder.

End QueryBuilder.

Module SelectQueryBuilder.

Import QueryBuilder.

Section Select.

Variable heap : Heap.
Variable rand : nat -> N.
Variable _model : ModelRef.
Variable _options : FindOptions.t.

Definition _buildConstraints : M unit :=
  _ <- match FindOptions.limit _options with
       | Some limit => _addConstraint ("LIMIT " +:+ Z_to_string limit)
       | None => ret tt
       end ;;
  match FindOptions.offset _options with
  | Some offset => _addConstraint ("OFFSET " +:+ Z_to_string offset)
  | None => ret tt
  end.

(** The loop over the explicit sort entries of [_buildSort]. *)
Fixpoint sortLoop (sort : list SortEntry) (sortParts : list string) : Result (list string) :=
  match sort with
  | [] => Ok sortParts
  | SortName sortProp :: rest =>
      match Model.getFieldSpec (heap _model) sortProp with
      | None => Throw (InvalidSortingProperty sortProp)
      | Some _ => sortLoop rest (sortParts ++ [_makeSort sortProp (Some Asc) (Some false)])
      end
  | SortSpec sortProp :: rest =>
      match Model.getFieldSpec (heap _model) (by_ sortProp) with
      | None => Throw (InvalidSortingProperty (by_ sortProp))
      | Some _ =>
          sortLoop rest (sortParts ++ [_makeSort (by_ sortProp) (order sortProp)
                                         (caseSensitive sortProp)])
      end
  end.

Definition sortEntry_by (x : SortEntry) : string :=
  match x with
  | SortName n => n
  | SortSpec p => by_ p
  end.

Definition _buildSort : M unit :=
  let defSorting := defaultSorting (Model._options (heap _model)) in
  sortParts <-
    match FindOptions.sort _options with
    | Some (e :: es) =>
        parts <- lift (sortLoop (e :: es) []) ;;
        match defSorting with
        | Some d =>
            if negb (existsb (fun x => String.eqb (sortEntry_by x) (by_ d)) (e :: es))
            then
              match Model.getFieldSpec (heap _model) (by_ d) with
              | None => throw (InvalidSortingProperty (by_ d))
              | Some _ => ret (parts ++ [_makeSort (by_ d) (order d) (caseSensitive d)])
              end
            else ret parts
        | None => ret parts
        end
    | _ => ret []
    end ;;
  let sortParts :=
    match sortParts, defSorting with
    | [], Some d => [_makeSort (by_ d) (order d) (caseSensitive d)]
    | _, _ => sortParts
    end in
  match sortParts with
  | [] => ret tt
  | _ => _addConstraint ("ORDER BY " +:+ join ", " sortParts)
  end.

Definition _buildJoins : M unit :=
  match FindOptions.join _options with
  | Some joins =>
      _ <- mapM (fun joinOption =>
                   let rd := JoinOption.relation joinOption in
                   let companion := RelationFieldData.companionModel rd in
                   condition <- lift (getJoinCondition heap rd _model
                                        (RelationFieldData.name rd) companion) ;;
                   _ <- _addJoin (ParsedJoin.mk (JoinOption.type joinOption)
                                    (Model.name (heap companion)) None
                                    (RelationFieldData.name rd) condition) ;;
                   _addExtraColumns
                     (_makeColumnListForModel (heap companion)
                        (Some (RelationFieldData.name rd)))) joins ;;
      ret tt
  | None => ret tt
  end.

Definition joinsText (st : State) : string :=
  match _joins st with
  | None => ""
  | Some js => join " " (map ParsedJoin.make js)
  end.

(** [this._constraints.filter(constr => !constr.startsWith('LIMIT')).join(' ')] *)
Definition countConstraints (st : State) : string :=
  match _constraints st with
  | None => ""
  | Some cs => join " " (List.filter (fun constr => negb (startsWith constr "LIMIT")) cs)
  end.

Definition _buildSelect : M BuiltSelectQuery :=
  _ <- _buildWhere heap rand _model (normalizeWhere (FindOptions.where_ _options)) ;;
  _ <- _buildConstraints ;;
  _ <- _buildSort ;;
  _ <- _buildJoins ;;
  st <- (fun st => Ok (st, st)) ;;
  let columns :=
    _makeColumnListForModel (heap _model) (Some (Model.name (heap _model)))
      ++ default [] (_extraColumns st) in
  let whereClause := _makeWhere st in
  let joins := joinsText st in
  let constraints :=
    match _constraints st with
    | None => ""
    | Some cs => join " " cs
    end in
  let selectQuery :=
    "SELECT " +:+ join ", " columns +:+ " FROM " +:+ Model.name (heap _model)
      +:+ " " +:+ joins +:+ " " +:+ whereClause +:+ " " +:+ constraints in
  if is_true_flag (FindOptions.fetchTotalCount _options)
  then
    let countQuery :=
      "SELECT COUNT(*) FROM " +:+ Model.name (heap _model) +:+ " " +:+ joinsText st
        +:+ " " +:+ whereClause +:+ " " +:+ countConstraints st in
    ret {| selectQuery := selectQuery; select_bound := _bound st;
           countQuery := Some countQuery |}
  else
    ret {| selectQuery := selectQuery; select_bound := _bound st; countQuery := None |}.

End Select.

End SelectQueryBuilder.

Module UpdateQueryBuilder.

Import QueryBuilder.

Section Update.

Variable heap : Heap.
Variable rand : nat -> N.
Variable _model : ModelRef.
Variable _options : UpdateOptions.t.

Definition _buildUpdate : M BuiltQuery :=
  _ <- _buildWhere heap rand _model (normalizeWhere (UpdateOptions.where_ _options)) ;;
  let columns := map fst (UpdateOptions.set _options) in
  if (List.length columns =? 0)%nat
  then
    st <- (fun st => Ok (st, st)) ;;
    ret {| query := ""; bound := _bound st |}
  else
    assignments <-
      mapM (fun kv =>
              fsw <- lift (Model.getFieldWrapperChecked (heap _model) (fst kv)) ;;
              conv <- lift (callConvertToDatabaseForm fsw (snd kv)) ;;
              placeholder <- bindValue rand conv ;;
              ret (fst kv +:+ " = " +:+ placeholder)) (UpdateOptions.set _options) ;;
    let setClause := join ", " assignments in
    st <- (fun st => Ok (st, st)) ;;
    let whereClause := _makeWhere st in
    let name := Model.name (heap _model) in
    match _joins st, _constraints st with
    | None, None =>
        ret {| query := "UPDATE " +:+ name +:+ " SET " +:+ setClause +:+ " " +:+ whereClause;
               bound := _bound st |}
    | _, _ =>
        let joins := SelectQueryBuilder.joinsText st in
        let pk := Model.getPrimaryKeyName (heap _model) in
        ret {| query := "UPDATE " +:+ name +:+ " SET " +:+ setClause +:+ " WHERE " +:+ pk
                        +:+ " IN (SELECT " +:+ name +:+ "." +:+ pk +:+ " FROM " +:+ name
                        +:+ " " +:+ joins +:+ " " +:+ whereClause +:+ ")";
               bound := _bound st |}
    end.

End Update.

End UpdateQueryBuilder.

Module RemoveQueryBuilder.

Import QueryBuilder.

Section Remove.

Variable heap : Heap.
Variable rand : nat -> N.
Variable _model : ModelRef.
Variable _options : RemoveOptions.t.

(** [!this._whereClause || this._whereClause.length === 0] *)
Definition noCriteria (_whereClause : JsValue) : bool :=
  negb (js_truthy _whereClause)
  || match get_length _whereClause with
     | Ok len => strict_eq_num len 0
     | Throw _ => false
     end.

Definition _buildRemove : M BuiltQuery :=
  let _whereClause := normalizeWhere (RemoveOptions.where_ _options) in
  if noCriteria _whereClause
  then throw RemoveWithoutCriteria
  else
    _ <- _buildWhere heap rand _model _whereClause ;;
    st <- (fun st => Ok (st, st)) ;;
    let whereClause := _makeWhere st in
    let name := Model.name (heap _model) in
    match _joins st, _constraints st with
    | None, None =>
        ret {| query := "DELETE FROM " +:+ name +:+ " " +:+ whereClause; bound := _bound st |}
    | _, _ =>
        let joins := SelectQueryBuilder.joinsText st in
        let pk := Model.getPrimaryKeyName (heap _model) in
        ret {| query := "DELETE FROM " +:+ name +:+ " WHERE " +:+ pk +:+ " IN (SELECT "
                        +:+ name +:+ "." +:+ pk +:+ " FROM " +:+ name +:+ " " +:+ joins
                        +:+ " " +:+ whereClause +:+ ")";
               bound := _bound st |}
    end.

End Remove.

End RemoveQueryBuilder.

(** [QueryBuilder.buildUpdate], [buildRemove] and [buildSelect]: a fresh
    builder is constructed and run. *)
Definition run {A : Type} (m : QueryBuilder.M A) : Result A :=
  match m QueryBuilder.initial with
  | Ok (a, _) => Ok a
  | Throw e => Throw e
  end.

Definition buildUpdate (heap : Heap) (rand : nat -> N) (model : ModelRef)
    (options : UpdateOptions.t) : Result BuiltQuery :=
  run (UpdateQueryBuilder._buildUpdate heap rand model options).

Definition buildRemove (heap : Heap) (rand : nat -> N) (model : ModelRef)
    (options : RemoveOptions.t) : Result BuiltQuery :=
  run (RemoveQueryBuilder._buildRemove heap rand model options).

Definition buildSelect (heap : Heap) (rand : nat -> N) (model : ModelRef)
    (options : FindOptions.t) : Result BuiltSelectQuery :=
  run (SelectQueryBuilder._buildSelect heap rand model options).

(** ** The connection interface *)

Inductive Bindings : Type :=
| NamedBindings (b : SqlBoundParams.t)
| PositionalBindings (values : list JsValue)
| NoBindings.

Record IRunResult : Type := { changes : Z; lastInsertROWID : Z }.

(** [AbstractConnection], as far as the database uses it: [prepare(sql,
    bindings)] followed by [run()] on the statement, and [exec(sql)].  A
    connection is a state of type [C]; each operation may fail. *)
Class AbstractConnection (C : Type) : Type := {
  prepare_run : string -> Bindings -> C -> Result IRunResult * C;
  exec : string -> C -> Result unit * C
}.

(** A connection that only records the statements it is given, in order. *)
Definition RecordingConnection : Type := list (string * Bindings).

#[export] Instance recording_connection : AbstractConnection RecordingConnection := {
  prepare_run sql bindings log :=
    (Ok {| changes := 0; lastInsertROWID := 0 |}, log ++ [(sql, bindings)]);
  exec sql log := (Ok tt, log ++ [(sql, NoBindings)])
}.

(** ** Database *)

Module Database.

Record t (C : Type) : Type := mk {
  _connection : option C;
  _models : list ModelRef;
  heap : Heap;
  _schemaFlushed : bool
}.

Arguments mk {C}.
Arguments _connection {C}.
Arguments _models {C}.
Arguments heap {C}.
Arguments _schemaFlushed {C}.

(** The body of the loop over the fields of one model in [createSchema];
    [primaryKeyCount] and [columns] are the loop's variables. *)
Fixpoint columnsLoop (modelName : string) (spec : list (string * FieldSpecWrapper.t))
    (primaryKeyCount : nat) (columns : list string) : Result (list string) :=
  match spec with
  | [] => Ok columns
  | (fieldName, specWrapper) :: rest =>
      let fs := FieldSpecWrapper.fieldSpec specWrapper in
      let parts := [fieldName] in
      let parts :=
        match typeHint fs with
        | Some hint => parts ++ [TypeHint_text hint]
        | None => parts
        end in
      let isPrimary := is_true_flag (primaryKey fs) in
      let parts := if isPrimary then parts ++ ["PRIMARY KEY"] else parts in
      let primaryKeyCount := if isPrimary then S primaryKeyCount else primaryKeyCount in
      if isPrimary && (1 <? primaryKeyCount)%nat
      then Throw (MultiplePrimaryKeys modelName)
      else
        let parts := if is_true_flag (unique fs) then parts ++ ["UNIQUE"] else parts in
        let parts :=
          match collation fs with
          | Some c => parts ++ ["COLLATE"; c]
          | None => parts
          end in
        let parts := if is_false_flag (allowNull fs) then parts ++ ["NOT NULL"] else parts in
        match (match defaultValue fs with
               | Some dv =>
                   if negb (loose_eq_null dv)
                   then
                     match FieldSpecWrapper.convertToDatabaseForm specWrapper dv with
                     | Throw e => Throw e
                     | Ok defValue =>
                         Ok (parts ++ ["DEFAULT";
                                       if typeof_string defValue
                                       then dquote +:+ js_to_string defValue +:+ dquote
                                       else join_item defValue])
                     end
                   else Ok parts
               | None => Ok parts
               end) with
        | Throw e => Throw e
        | Ok parts => columnsLoop modelName rest primaryKeyCount (columns ++ [join " " parts])
        end
  end.

Fixpoint tablesLoop (heap : Heap) (models : list ModelRef) (schemaTables : list string)
  : Result (list string) :=
  match models with
  | [] => Ok schemaTables
  | ref :: rest =>
      let model := heap ref in
      match columnsLoop (Model.name model) (Model._spec model) 0 [] with
      | Throw e => Throw e
      | Ok columns =>
          let columns := columns ++ Model._constraints model in
          tablesLoop heap rest
            (schemaTables ++ ["CREATE TABLE " +:+ Model.name model +:+ "("
                              +:+ join ", " columns +:+ ")"])
      end
  end.

Definition createSchema {C : Type} (this : t C) : Result string :=
  match tablesLoop (heap this) (_models this) [] with
  | Throw e => Throw e
  | Ok schemaTables => Ok (join "; " schemaTables)
  end.

Definition getModel {C : Type} (this : t C) (modelName : string) : option ModelRef :=
  List.find (fun ref => String.eqb (Model.name (heap this ref)) modelName) (_models this).

(** [define]: the new model object gets a reference that no registered model
    has. *)
Definition define {C : Type} (this : t C) (modelName : string)
    (modelSpec : list (string * FieldSpec)) (modelOptions : ModelOptions)
  : Result (ModelRef * t C) :=
  if negb (isValidName modelName)
  then Throw (InvalidModelName modelName)
  else
    match getModel this modelName with
    | Some _ => Throw (ModelAlreadyDefined modelName)
    | None =>
        match Model.new modelName modelSpec modelOptions with
        | Throw e => Throw e
        | Ok model =>
            let ref := S (list_max (_models this)) in
            Ok (ref, mk (_connection this) (_models this ++ [ref])
                       (fun r => if (r =? ref)%nat then model else heap this r)
                       (_schemaFlushed this))
        end
    end.

Section Operations.

Context {C : Type} `{AbstractConnection C}.

(** [_run]: [_prepare] throws without a connection. *)
Definition _run (this : t C) (sql : string) (bindings : Bindings)
  : Result IRunResult * t C :=
  match _connection this with
  | None => (Throw NoConnection, this)
  | Some conn =>
      let (r, conn') := prepare_run sql bindings conn in
      (r, mk (Some conn') (_models this) (heap this) (_schemaFlushed this))
  end.

(** [flushSchema]: the schema is computed before the connection is looked
    at, and the flag is set only after [exec] succeeded. *)
Definition flushSchema (this : t C) : Result unit * t C :=
  if _schemaFlushed this
  then (Throw SchemaAlreadyFlushed, this)
  else
    match createSchema this with
    | Throw e => (Throw e, this)
    | Ok schema =>
        match _connection this with
        | None => (Throw NoConnection, this)
        | Some conn =>
            let (r, conn') := exec schema conn in
            match r with
            | Ok _ => (Ok tt, mk (Some conn') (_models this) (heap this) true)
            | Throw e =>
                (Throw e, mk (Some conn') (_models this) (heap this) (_schemaFlushed this))
            end
        end
    end.

Definition discard {A : Type} (r : Result A) : Result unit :=
  match r with
  | Ok _ => Ok tt
  | Throw e => Throw e
  end.

Definition update (rand : nat -> N) (this : t C) (model : ModelRef)
    (options : UpdateOptions.t) : Result unit * t C :=
  match buildUpdate (heap this) rand model options with
  | Throw e => (Throw e, this)
  | Ok q =>
      if (String.length (query q) =? 0)%nat
      then (Ok tt, this)
      else
        let (r, this') := _run this (query q) (NamedBindings (bound q)) in
        (discard r, this')
  end.

Definition remove (rand : nat -> N) (this : t C) (model : ModelRef)
    (options : RemoveOptions.t) : Result unit * t C :=
  match buildRemove (heap this) rand model options with
  | Throw e => (Throw e, this)
  | Ok q =>
      if (String.length (query q) =? 0)%nat
      then (Ok tt, this)
      else
        let (r, this') := _run this (query q) (NamedBindings (bound q)) in
        (discard r, this')
  end.

Definition removeAll (this : t C) (model : ModelRef) : Result unit * t C :=
  let sql := "DELETE FROM " +:+ Model.name (heap this model) in
  let (r, this') := _run this sql NoBindings in
  (discard r, this').

End Operations.

End Database.

(** ** Instances *)

Module DatabaseInstance.

(** The [$d] record.  An accessor object in [relations] is determined by the
    instance holding it and its [RelationFieldData]. *)
Record t : Type := mk {
  model : ModelRef;
  fields : gmap string JsValue;
  created : bool;
  rowId : JsValue;
  relations : gmap string RelationFieldData.t
}.

Definition new (model : ModelRef) : t := mk model ∅ false JNull ∅.

(** What [$get] returns: a field's value (or [undefined]) or an accessor. *)
Inductive Property : Type :=
| FieldValue (v : JsValue)
| Accessor (d : RelationFieldData.t).

(** [set $rowId(value)] *)
Definition set_rowId (heap : Heap) (this : t) (value : JsValue) : t :=
  let pk := Model.getPrimaryKeyName (heap (model this)) in
  mk (model this)
     (if bool_decide (is_Some (fields this !! pk))
      then <[pk := value]> (fields this)
      else fields this)
     (created this) value (relations this).

(** [$get(prop)] *)
Definition get (this : t) (prop : string) : Property :=
  match fields this !! prop with
  | Some v => FieldValue v
  | None =>
      match relations this !! prop with
      | Some r => Accessor r
      | None => FieldValue JUndefined
      end
  end.

(** [$set(prop, value)]: the instance after the call and the value returned
    or the exception thrown.  The field map is written before the wrapper is
    looked up. *)
Definition set (heap : Heap) (this : t) (prop : string) (value : JsValue)
  : t * Result bool :=
  match relations this !! prop with
  | Some _ => (this, Ok false)
  | None =>
      let this1 := mk (model this) (<[prop := value]> (fields this)) (created this)
                      (rowId this) (relations this) in
      match Model.getFieldWrapper (heap (model this)) prop with
      | Absent => (this1, Ok true)
      | Inherited => (this1, Throw TypeError)
      | Own fsw =>
          if is_true_flag (primaryKey (FieldSpecWrapper.fieldSpec fsw))
          then (set_rowId heap this1 value, Ok true)
          else (this1, Ok true)
      end
  end.

(** [$has(prop)] *)
Definition has (this : t) (prop : string) : bool :=
  bool_decide (is_Some (fields this !! prop))
  || bool_decide (is_Some (relations this !! prop)).

End DatabaseInstance.

(** [Model._makeInstance]: one accessor per declared relation.  The proxy
    returned forwards every name that is not a member of the instance object
    to [$get], [$set] and [$has]; it is identified with its target. *)
Definition _makeInstance (heap : Heap) (inst : DatabaseInstance.t) : DatabaseInstance.t :=
  DatabaseInstance.mk (DatabaseInstance.model inst) (DatabaseInstance.fields inst)
    (DatabaseInstance.created inst) (DatabaseInstance.rowId inst)
    (fold_left (fun rels relation => <[RelationFieldData.name relation := relation]> rels)
       (Model._relationFields (heap (DatabaseInstance.model inst)))
       (DatabaseInstance.relations inst)).

(** [Model.build(template)] *)
Definition build (heap : Heap) (model : ModelRef) (template : list (string * JsValue))
  : DatabaseInstance.t :=
  let inst :=
    fold_left
      (fun inst field =>
         let given := default JUndefined (assoc (FieldSpecWrapper.fieldName field) template) in
         let given :=
           match newGenerate (FieldSpecWrapper.fieldSpec field) with
           | Some gen => if loose_eq_null given then gen given else given
           | None => given
           end in
         let given := if loose_eq_null given then JNull else given in
         DatabaseInstance.mk (DatabaseInstance.model inst)
           (<[FieldSpecWrapper.fieldName field := given]> (DatabaseInstance.fields inst))
           (DatabaseInstance.created inst) (DatabaseInstance.rowId inst)
           (DatabaseInstance.relations inst))
      (Model.fields (heap model)) (DatabaseInstance.new model) in
  _makeInstance heap inst.

(** ** Relation accessors *)

Module DbRelation.

Definition _ensureGood (_inst : DatabaseInstance.t) : Result unit :=
  if loose_eq_null (DatabaseInstance.rowId _inst) || negb (DatabaseInstance.created _inst)
  then Throw InstanceInvalidError
  else Ok tt.

End DbRelation.

Module DbSingleRelation.

(** How [get()] ends: with [null] and no query, or with the promise of a
    search on the companion model. *)
Inductive Outcome : Type :=
| ReturnNull
| FindByPK (companionModel : ModelRef) (pkValue : DatabaseInstance.Property)
| FindOne (companionModel : ModelRef) (options : FindOptions.t).

(** [!this._inst.$rowId == null || !this._inst.$created] *)
Definition earlyNullGuard (_inst : DatabaseInstance.t) : bool :=
  loose_eq_null (js_not (DatabaseInstance.rowId _inst))
  || negb (DatabaseInstance.created _inst).

Definition foreignKeyOf (_d : RelationFieldData.t) : string :=
  match _d with
  | RelationFieldData.Single _ _ _ _ _ fk => fk
  | RelationFieldData.Many _ _ _ _ _ fk => fk
  | RelationFieldData.Multi _ _ _ _ _ _ _ _ => ""
  end.

(** [get()] for an accessor built on a [SingleRelationFieldData]. *)
Definition get (_inst : DatabaseInstance.t) (_d : RelationFieldData.t) : Result Outcome :=
  match DbRelation._ensureGood _inst with
  | Throw e => Throw e
  | Ok _ =>
      if negb (isCompanion _d)
      then
        let fk := DatabaseInstance.get _inst (foreignKeyOf _d) in
        if match fk with
           | DatabaseInstance.FieldValue v => loose_eq_null v
           | DatabaseInstance.Accessor _ => false
           end
        then Ok ReturnNull
        else Ok (FindByPK (RelationFieldData.companionModel _d) fk)
      else
        if earlyNullGuard _inst
        then Ok ReturnNull
        else Ok (FindOne (RelationFieldData.companionModel _d)
                   (FindOptions.mk
                      (Some (JObj [(foreignKeyOf _d, DatabaseInstance.rowId _inst)]))
                      None None None None None))
  end.

End DbSingleRelation.

(** ** Reference notions used by the statements *)

Definition is_letter (c : ascii) : bool :=
  let n := N_of_ascii c in
  ((97 <=? n) && (n <=? 122) || (65 <=? n) && (n <=? 90))%N.

Definition is_digit (c : ascii) : bool :=
  let n := N_of_ascii c in ((48 <=? n) && (n <=? 57))%N.

Definition is_underscore (c : ascii) : bool := (N_of_ascii c =? 95)%N.

Definition is_body_char (c : ascii) : bool := is_letter c || is_digit c || is_underscore c.

(** The identifier grammar in the words of the specification: a letter or an
    underscore, then letters, digits and underscores. *)
Definition spec_identifier (name : string) : bool :=
  match name with
  | EmptyString => false
  | String c rest =>
      (is_letter c || is_underscore c) && forallb is_body_char (list_ascii_of_string rest)
  end.

(** The same grammar with a letter as the only admissible first character. *)
Definition letter_start_identifier (name : string) : bool :=
  match name with
  | EmptyString => false
  | String c rest => is_letter c && forallb is_body_char (list_ascii_of_string rest)
  end.

(** [fieldSpec.primaryKey === true] on an entry of [_spec]. *)
Definition isPrimaryEntry (kv : string * FieldSpecWrapper.t) : bool :=
  is_true_flag (primaryKey (FieldSpecWrapper.fieldSpec (snd kv))).

(** The number of fields of a model flagged [primaryKey: true]. *)
Definition primaryKeyFields (m : Model.t) : nat :=
  List.length (List.filter isPrimaryEntry (Model._spec m)).

(** An instance carries an accessor for exactly the relations its model
    declares: what [_makeInstance] sets up. *)
Definition relations_declared (heap : Heap) (inst : DatabaseInstance.t) : Prop :=
  forall name : string,
    is_Some (DatabaseInstance.relations inst !! name) <->
    is_Some (Model.getRelationFieldData (heap (DatabaseInstance.model inst)) name).

(** One operation on a [SqlBoundParams] object: [bind(value)], with the draw
    its [uniqueName] call gets, or [merge(another)]. *)
Inductive BoundOp : Type :=
| OpBind (value : JsValue) (r : N)
| OpMerge (another : SqlBoundParams.t).

Definition applyBoundOp (this : SqlBoundParams.t) (op : BoundOp) : SqlBoundParams.t :=
  match op with
  | OpBind value r => snd (SqlBoundParams.bind value r this)
  | OpMerge another => SqlBoundParams.merge this another
  end.

Definition applyBoundOps (ops : list BoundOp) (this : SqlBoundParams.t) : SqlBoundParams.t :=
  fold_left applyBoundOp ops this.

(** [bind] called once per value, in order, with the given draws. *)
Definition bindAll (values : list JsValue) (draws : list N) : list BoundOp :=
  zip_with OpBind values draws.

(** The entries an operation writes: the one of [bind], under the name it
    drew, and every entry of the object [merge] is given. *)
Definition written (op : BoundOp) : SqlBoundParams.t :=
  match op with
  | OpBind value r => {[ SqlBoundParams.uniqueName r := value ]}
  | OpMerge another => another
  end.

(** The number of entries the operations write, one by one. *)
Definition writtenCount (ops : list BoundOp) : nat :=
  sum_list_with (fun op => SqlBoundParams.count (written op)) ops.

(** No operation of the sequence writes a name that is bound when it runs. *)
Fixpoint freshNames (ops : list BoundOp) (this : SqlBoundParams.t) : Prop :=
  match ops with
  | [] => True
  | op :: rest => written op ##ₘ this /\ freshNames rest (applyBoundOp this op)
  end.

(** The criteria [{field: {op: arg}}]. *)
Definition criterion (field op : string) (arg : JsValue) : JsValue :=
  JObj [(field, JObj [(op, arg)])].

(** [this._constraints], with [null] read as the empty list. *)
Definition constraintsOf (st : QueryBuilder.State) : list string :=
  default [] (QueryBuilder._constraints st).

(** A builder step that never removes a constraint. *)
Definition keepsConstraints {A : Type} (m : QueryBuilder.M A) : Prop :=
  forall st a st', m st = Ok (a, st') ->
    forall c, In c (constraintsOf st) -> In c (constraintsOf st').

(** Every name [uniqueName] can produce. *)
Definition placeholderNames : list string :=
  map (fun i => SqlBoundParams.uniqueName (N.of_nat i)) (seq 0 (N.to_nat 100000)).

(** ** Sample models *)

Definition noOptions : ModelOptions :=
  {| createTimestamp := false; updateTimestamp := false; defaultSorting := None |}.

Definition integerKey : FieldSpec :=
  {| validate := None; serialize := None; deserialize := None; typeHint := Some Integer;
     allowNull := None; defaultValue := None; newGenerate := None; unique := None;
     primaryKey := Some true; collation := None |}.

Definition textField : FieldSpec :=
  {| validate := None; serialize := None; deserialize := None; typeHint := Some Text;
     allowNull := None; defaultValue := None; newGenerate := None; unique := None;
     primaryKey := None; collation := None |}.

(** [foo] with [id INTEGER PRIMARY KEY] and [name TEXT]. *)
Definition fooModel : Model.t :=
  Model.mk "foo"
    [ ("id", FieldSpecWrapper.mk "id" integerKey);
      ("name", FieldSpecWrapper.mk "name" textField) ]
    [] noOptions [].

(** [bar] with two fields flagged primary key. *)
Definition twoKeysModel : Model.t :=
  Model.mk "bar"
    [ ("a", FieldSpecWrapper.mk "a" integerKey);
      ("b", FieldSpecWrapper.mk "b" integerKey) ]
    [] noOptions [].

Definition sampleHeap : Heap :=
  fun ref => match ref with
             | 0 => fooModel
             | _ => twoKeysModel
             end.

Definition sampleDatabase : Database.t RecordingConnection :=
  Database.mk (Some []) [0] sampleHeap false.

Definition sampleRand : nat -> N := fun i => N.of_nat (i + 10).

(** ** Failures of the declaration and instance layers *)

(** The exceptions thrown outside the query compiler; [Raised] carries one
    thrown by the functions above. *)
Inductive Failure : Type :=
| Raised (e : Error)
| InvalidRelationName (name : string)
| ReservedRelationName (name : string)
| ModelNotDefined (name : string)
| MissingColumn (column model : string)
| MissingRowid (model : string)
| InvalidRowidType (model : string)
| InstanceNotCreated
| NoFieldData (key : string)
| JoinNotAllowed
| InvalidSearchOptions.

Inductive Outcome (A : Type) : Type :=
| Done (a : A)
| Fail (f : Failure).

Arguments Done {A} a.
Arguments Fail {A} f.

Definition raise {A : Type} (r : Result A) : Outcome A :=
  match r with
  | Ok a => Done a
  | Throw e => Fail (Raised e)
  end.

(** ** Declaring constraints and relations *)

Module Relations.

(** A [Model<any>|string] argument. *)
Inductive ModelArg : Type :=
| ByRef (ref : ModelRef)
| ByName (name : string).

Record SingleRelationOptions : Type := {
  foreignKey : option string;
  companionField : option string
}.

Record MultiRelationOptions : Type := {
  pivot : option ModelArg;
  leftForeignKey : option string;
  rightForeignKey : option string;
  multiCompanionField : option string
}.

(** [s ? s : fallback] on an optional string property. *)
Definition orElse (s : option string) (fallback : string) : string :=
  match s with
  | Some v => if (String.length v =? 0)%nat then fallback else v
  | None => fallback
  end.

(** An optional string that is truthy. *)
Definition given (s : option string) : option string :=
  match s with
  | Some v => if (String.length v =? 0)%nat then None else Some v
  | None => None
  end.

Definition addConstraint (this : Model.t) (constr : string) : Model.t :=
  Model.mk (Model.name this) (Model._spec this) (Model._constraints this ++ [constr])
    (Model._options this) (Model._relationFields this).

(** [addForeignKeyConstraint]; [modelName] is the name of [foreignModel]. *)
Definition addForeignKeyConstraint (this : Model.t) (ownKey modelName foreignKeys : string)
  : Model.t :=
  addConstraint this
    ("FOREIGN KEY (" +:+ ownKey +:+ ") REFERENCES " +:+ modelName +:+ "(" +:+ foreignKeys
     +:+ ") ON UPDATE CASCADE ON DELETE CASCADE").

Definition addUniqueConstraint (this : Model.t) (fields : list (string + FieldSpecWrapper.t))
  : Model.t :=
  let keys := map (fun x => match x with
                            | inl s => s
                            | inr w => FieldSpecWrapper.fieldName w
                            end) fields in
  addConstraint this ("UNIQUE(" +:+ join ", " keys +:+ ")").

Definition _checkRelationFieldName (this : Model.t) (name : string) : Outcome unit :=
  if negb (isValidName name)
  then Fail (InvalidRelationName name)
  else
    match Model.getFieldSpec this name, Model.getRelationFieldData this name with
    | None, None => Done tt
    | _, _ => Fail (ReservedRelationName name)
    end.

Definition _addRelationField (this : Model.t) (d : RelationFieldData.t) : Outcome Model.t :=
  match _checkRelationFieldName this (RelationFieldData.name d) with
  | Fail f => Fail f
  | Done _ =>
      Done (Model.mk (Model.name this) (Model._spec this) (Model._constraints this)
              (Model._options this) (Model._relationFields this ++ [d]))
  end.

Section Registry.

Context {C : Type}.

(** A declaration method runs against the database that owns the models.
    What it has changed before throwing stays changed: the database comes
    back in both cases. *)
Definition Reg (A : Type) : Type := Database.t C -> Database.t C * Outcome A.

Definition retR {A : Type} (a : A) : Reg A := fun db => (db, Done a).

Definition failR {A : Type} (f : Failure) : Reg A := fun db => (db, Fail f).

Definition bindReg {A B : Type} (m : Reg A) (k : A -> Reg B) : Reg B :=
  fun db =>
    match m db with
    | (db', Done a) => k a db'
    | (db', Fail f) => (db', Fail f)
    end.

(** The object behind [ref] becomes [m]. *)
Definition setModel (db : Database.t C) (ref : ModelRef) (m : Model.t) : Database.t C :=
  Database.mk (Database._connection db) (Database._models db)
    (fun r => if (r =? ref)%nat then m else Database.heap db r)
    (Database._schemaFlushed db).

(** A mutating method of the model object behind [ref]. *)
Definition onModel (ref : ModelRef) (f : Model.t -> Outcome Model.t) : Reg unit :=
  fun db =>
    match f (Database.heap db ref) with
    | Done m => (setModel db ref m, Done tt)
    | Fail e => (db, Fail e)
    end.

Definition readModel (ref : ModelRef) : Reg Model.t :=
  fun db => (db, Done (Database.heap db ref)).

(** [typeof otherModel === 'string'] and the lookup through [this._db]. *)
Definition resolve (m : ModelArg) : Reg ModelRef :=
  fun db =>
    match m with
    | ByRef ref => (db, Done ref)
    | ByName name =>
        match Database.getModel db name with
        | Some ref => (db, Done ref)
        | None => (db, Fail (ModelNotDefined name))
        end
    end.

(** The local function [isMany] of [_oneOrManyToOne]. *)
Definition isMany (type : RelationType) (isLeft : bool) : bool :=
  (RelationType_eqb type OneToMany && isLeft)
  || (RelationType_eqb type ManyToOne && negb isLeft).

Definition integerColumn (unique : option bool) : FieldSpec :=
  {| validate := None; serialize := None; deserialize := None; typeHint := Some Integer;
     allowNull := None; defaultValue := None; newGenerate := None; unique := unique;
     primaryKey := None; collation := None |}.

Definition uniqueOnly (unique : bool) : FieldSpec :=
  {| validate := None; serialize := None; deserialize := None; typeHint := None;
     allowNull := None; defaultValue := None; newGenerate := None; unique := Some unique;
     primaryKey := None; collation := None |}.

Definition _oneOrManyToOne (this : ModelRef) (otherModel : ModelArg) (field : option string)
    (options : option SingleRelationOptions) (type : RelationType) (swapLeftRight : bool)
  : Reg unit :=
  let unique := RelationType_eqb type OneToOne in
  bindReg (resolve otherModel) (fun other =>
  bindReg (readModel other) (fun otherObject =>
  let foreignKey :=
    orElse (match options with Some o => foreignKey o | None => None end)
           (Model.name otherObject +:+ "id") in
  bindReg (onModel this (fun m =>
             match Model.getFieldSpec m foreignKey with
             | None => raise (Model.addField m foreignKey (integerColumn (Some unique)))
             | Some _ => raise (Model.updateField m foreignKey (uniqueOnly unique))
             end)) (fun _ =>
  bindReg (readModel other) (fun otherObject =>
  bindReg (onModel this (fun m =>
             Done (addForeignKeyConstraint m foreignKey (Model.name otherObject)
                     (Model.getPrimaryKeyName otherObject)))) (fun _ =>
  bindReg (match given field with
           | Some name =>
               onModel this (fun m =>
                 _addRelationField m
                   (if isMany type (negb swapLeftRight)
                    then RelationFieldData.Many name type this other (negb swapLeftRight)
                           foreignKey
                    else RelationFieldData.Single name type this other (negb swapLeftRight)
                           foreignKey))
           | None => retR tt
           end) (fun _ =>
  match given (match options with Some o => companionField o | None => None end) with
  | Some name =>
      onModel other (fun m =>
        _addRelationField m
          (if isMany type swapLeftRight
           then RelationFieldData.Many name type other this swapLeftRight foreignKey
           else RelationFieldData.Single name type other this swapLeftRight foreignKey))
  | None => retR tt
  end)))))).

Definition oneToOne (this : ModelRef) (otherModel : ModelArg) (field : option string)
    (options : option SingleRelationOptions) : Reg unit :=
  _oneOrManyToOne this otherModel field options OneToOne false.

Definition manyToOne (this : ModelRef) (otherModel : ModelArg) (field : option string)
    (options : option SingleRelationOptions) : Reg unit :=
  _oneOrManyToOne this otherModel field options ManyToOne false.

Definition oneToMany (this : ModelRef) (otherModel : ModelArg) (field : option string)
    (options : option SingleRelationOptions) : Reg unit :=
  bindReg (resolve otherModel) (fun other =>
  _oneOrManyToOne other (ByRef this)
    (given (match options with Some o => companionField o | None => None end))
    (Some {| foreignKey := given (match options with Some o => foreignKey o | None => None end);
             companionField := field |})
    OneToMany true).

Definition emptyOptions : ModelOptions :=
  {| createTimestamp := false; updateTimestamp := false; defaultSorting := None |}.

Definition manyToMany (this : ModelRef) (otherModel : ModelArg) (field : option string)
    (options : option MultiRelationOptions) : Reg unit :=
  bindReg (resolve otherModel) (fun other =>
  bindReg (readModel this) (fun thisObject =>
  bindReg (readModel other) (fun otherObject =>
  bindReg
    (match (match options with Some o => pivot o | None => None end) with
     | Some (ByRef ref) => retR ref
     | Some (ByName name) =>
         if (String.length name =? 0)%nat
         then
           fun db =>
             match Database.define db
                     (Model.name thisObject +:+ capitalize (Model.name otherObject))
                     [] emptyOptions with
             | Ok (ref, db') => (db', Done ref)
             | Throw e => (db, Fail (Raised e))
             end
         else
           fun db =>
             match Database.getModel db name with
             | Some ref => (db, Done ref)
             | None =>
                 match Database.define db name [] emptyOptions with
                 | Ok (ref, db') => (db', Done ref)
                 | Throw e => (db, Fail (Raised e))
                 end
             end
     | None =>
         fun db =>
           match Database.define db
                   (Model.name thisObject +:+ capitalize (Model.name otherObject))
                   [] emptyOptions with
           | Ok (ref, db') => (db', Done ref)
           | Throw e => (db, Fail (Raised e))
           end
     end) (fun relationModel =>
  let leftForeignKey :=
    orElse (match options with Some o => leftForeignKey o | None => None end)
           (Model.name thisObject +:+ "id") in
  let rightForeignKey :=
    orElse (match options with Some o => rightForeignKey o | None => None end)
           (Model.name otherObject +:+ "id") in
  bindReg (onModel relationModel (fun m =>
             raise (Model.updateField m leftForeignKey (integerColumn None)))) (fun _ =>
  bindReg (onModel relationModel (fun m =>
             raise (Model.updateField m rightForeignKey (integerColumn None)))) (fun _ =>
  bindReg (readModel this) (fun thisObject =>
  bindReg (onModel relationModel (fun m =>
             Done (addForeignKeyConstraint m leftForeignKey (Model.name thisObject)
                     (Model.getPrimaryKeyName thisObject)))) (fun _ =>
  bindReg (readModel other) (fun otherObject =>
  bindReg (onModel relationModel (fun m =>
             Done (addUniqueConstraint
                     (addForeignKeyConstraint m rightForeignKey (Model.name otherObject)
                        (Model.getPrimaryKeyName otherObject))
                     [inl leftForeignKey; inl rightForeignKey]))) (fun _ =>
  bindReg (match given field with
           | Some name =>
               onModel this (fun m =>
                 _addRelationField m
                   (RelationFieldData.Multi name ManyToMany this other true relationModel
                      leftForeignKey rightForeignKey))
           | None => retR tt
           end) (fun _ =>
  match given (match options with Some o => multiCompanionField o | None => None end) with
  | Some name =>
      onModel other (fun m =>
        _addRelationField m
          (RelationFieldData.Multi name ManyToMany other this false relationModel
             leftForeignKey rightForeignKey))
  | None => retR tt
  end))))))))))).

End Registry.

End Relations.

(** ** Invariants of the registry *)

(** The field table of a model: the keys are pairwise distinct valid names,
    none of them a member of [Object.prototype], and every wrapper carries
    the key it is stored under. *)
Definition fieldsWellFormed (m : Model.t) : Prop :=
  NoDup (map fst (Model._spec m))
  /\ Forall (fun kv =>
               isValidName (fst kv) = true
               /\ FieldSpecWrapper.fieldName (snd kv) = fst kv
               /\ existsb (String.eqb (fst kv)) object_prototype_keys = false)
       (Model._spec m).

(** The relation list of a model that lives behind [ref]: every edge names
    [ref] as its own model, and the names are pairwise distinct. *)
Definition relationsOwnedBy (ref : ModelRef) (m : Model.t) : Prop :=
  Forall (fun d => RelationFieldData.model d = ref) (Model._relationFields m)
  /\ NoDup (map RelationFieldData.name (Model._relationFields m)).

Definition registryWellFormed (heap : Heap) : Prop :=
  forall ref : ModelRef, fieldsWellFormed (heap ref) /\ relationsOwnedBy ref (heap ref).

(** The registry is well formed and no two registered models share a name. *)
Definition databaseWellFormed {C : Type} (db : Database.t C) : Prop :=
  registryWellFormed (Database.heap db)
  /\ NoDup (map (fun ref => Model.name (Database.heap db ref)) (Database._models db)).

(** A declaration keeps [P] when the database it hands back satisfies [P]
    whenever the one it started from did, whether it returned or threw. *)
Definition keepsReg {C A : Type} (P : Database.t C -> Prop) (m : Relations.Reg (C:=C) A)
  : Prop :=
  forall db, P db -> P (fst (m db)).

(** What a method of the model behind [ref] may do to it. *)
Definition modelStep (ref : ModelRef) (f : Model.t -> Outcome Model.t) : Prop :=
  forall m m', f m = Done m' ->
               Model.name m' = Model.name m
               /\ (fieldsWellFormed m -> fieldsWellFormed m')
               /\ (relationsOwnedBy ref m -> relationsOwnedBy ref m').

(** A registry of two models, [customer] behind 1 and [invoice] behind 2. *)
Definition customerModel : Model.t :=
  Model.mk "customer"
    [ ("id", FieldSpecWrapper.mk "id" integerKey);
      ("name", FieldSpecWrapper.mk "name" textField) ]
    [] noOptions [].

Definition invoiceModel : Model.t :=
  Model.mk "invoice" [ ("number", FieldSpecWrapper.mk "number" textField) ] [] noOptions [].

Definition shopHeap : Heap :=
  fun ref => match ref with
             | 1 => customerModel
             | 2 => invoiceModel
             | _ => Model.mk "" [] [] noOptions []
             end.

Definition shopDatabase : Database.t RecordingConnection :=
  Database.mk (Some []) [1; 2] shopHeap false.

(** ** Invariants of a builder *)

(** A builder method respects [P] and [E] when, started in a state that
    satisfies [P], it either returns in a state that satisfies [P] or throws
    an error that satisfies [E]. *)
Definition respects {A : Type} (P : QueryBuilder.State -> Prop) (E : Error -> Prop)
    (m : QueryBuilder.M A) : Prop :=
  forall st, P st ->
             match m st with
             | Ok (_, st') => P st'
             | Throw e => E e
             end.

(** The errors the criteria compiler raises itself, apart from those of
    column resolution. *)
Definition criteriaError (e : Error) : bool :=
  match e with
  | TypeError | UnexpectedOperator _ | UnexpectedValueUnderField | ListOfValuesExpected
  | InvalidOperator _ | InvalidPropertyValue _ => true
  | _ => false
  end.

(** The errors of column resolution when every relation is registered on
    the model it names. *)
Definition columnError (e : Error) : bool :=
  match e with
  | NoFieldNamed _ | InvalidFieldNameValue _ | NoRelationFound _ | NoRelationFieldFound _
  | TypeError => true
  | _ => false
  end.

(** What compiling criteria leaves in a builder: only LEFT joins, each
    under the alias [__sa_<table>], no alias twice, and no constraint other
    than one [GROUP BY] on the primary key of the model. *)
Definition whereShape (heap : Heap) (_model : ModelRef) (st : QueryBuilder.State) : Prop :=
  let js := default [] (QueryBuilder._joins st) in
  NoDup (map ParsedJoin.alias js)
  /\ Forall (fun j => ParsedJoin.joinType j = JoinType.Left
                      /\ ParsedJoin.selectWhere j = None
                      /\ ParsedJoin.alias j = "__sa_" +:+ ParsedJoin.sourceTable j) js
  /\ (QueryBuilder._constraints st = None
      \/ QueryBuilder._constraints st
         = Some ["GROUP BY " +:+ Model.name (heap _model) +:+ "."
                 +:+ Model.getPrimaryKeyName (heap _model)]).

(** The errors compiling criteria can end in. *)
Definition compileError (e : Error) : bool := criteriaError e || columnError e.

(** Every relation named by a join option is registered on the model. *)
Definition joinsDeclared (heap : Heap) (model : ModelRef) (options : FindOptions.t) : Prop :=
  Forall (fun j => In (JoinOption.relation j) (Model._relationFields (heap model)))
    (default [] (FindOptions.join options)).

(** The constraints [_buildConstraints] adds for the options. *)
Definition limitPart (options : FindOptions.t) : list string :=
  match FindOptions.limit options with
  | Some limit => ["LIMIT " +:+ Z_to_string limit]
  | None => []
  end.

Definition offsetPart (options : FindOptions.t) : list string :=
  match FindOptions.offset options with
  | Some offset => ["OFFSET " +:+ Z_to_string offset]
  | None => []
  end.

(** ** Plain criteria *)

(** [typeof v === 'object' && v != null] is false. *)
Definition isScalar (v : JsValue) : bool := negb (typeof_object v && negb (loose_eq_null v)).

(** A criterion [key: value] on a declared field of the model, with a
    scalar value that the field converts to [converted]. *)
Definition plainCriterion (heap : Heap) (model : ModelRef) (kv : string * JsValue)
    (converted : JsValue) : Prop :=
  isScalar (snd kv) = true
  /\ exists w, Model.getFieldWrapper (heap model) (fst kv) = Own w
               /\ isValidName (fst kv) = true
               /\ FieldSpecWrapper.convertToDatabaseForm w (snd kv) = Ok converted.

(** [table.key = :uniq_<draw>] for each key, the draws taken in order
    starting with the one numbered [draw]. *)
Fixpoint equalityTexts (table : string) (rand : nat -> N) (draw : nat) (keys : list string)
  : list string :=
  match keys with
  | [] => []
  | key :: rest =>
      ((table +:+ "." +:+ key) +:+ " = " +:+ ":" +:+ SqlBoundParams.uniqueName (rand draw))
        :: equalityTexts table rand (S draw) rest
  end.

(** A conjunction as the tree renders it: a single condition bare, several
    each in parentheses. *)
Definition conjunction (conditions : list string) : string :=
  match conditions with
  | [] => ""
  | [condition] => condition
  | _ => join " AND " (map (fun x => "(" +:+ x +:+ ")") conditions)
  end.

(** [Model.findByPK] and [Model.findOne]: the options they hand to [find]. *)
Definition noFindOptions : FindOptions.t :=
  FindOptions.mk None None None None None None.

Definition findByPKOptions (this : Model.t) (pkValue : JsValue) : FindOptions.t :=
  FindOptions.mk (Some (JObj [(Model.getPrimaryKeyName this, pkValue)]))
    None None None None None.

Definition findOneOptions (options : option FindOptions.t) : FindOptions.t :=
  let options := default noFindOptions options in
  FindOptions.mk (FindOptions.where_ options) (Some 1%Z) (FindOptions.offset options)
    (Some false) (FindOptions.sort options) (FindOptions.join options).

(** The shop registry after [customer.oneToMany(invoice, 'invoices',
    {companionField: 'customer'})]. *)
Definition linkedShopDatabase : Database.t RecordingConnection :=
  fst (Relations.oneToMany 1 (Relations.ByRef 2) (Some "invoices")
         (Some {| Relations.foreignKey := None;
                  Relations.companionField := Some "customer" |})
         shopDatabase).

Definition linkedShopHeap : Heap := Database.heap linkedShopDatabase.

(** ** Instances read from and written to the database *)

(** The loop over the fields in [Model.buildFromDatabaseResult].  A row is
    the plain object the driver returns; [sqlResult.hasOwnProperty] is the
    inherited method unless the row has a column of that name, whose value
    is then called. *)
Fixpoint fieldsFromResult (heap : Heap) (this : Model.t)
    (sqlResult : list (string * JsValue)) (prefix : option string)
    (fields : list FieldSpecWrapper.t) (result : DatabaseInstance.t)
  : Outcome DatabaseInstance.t :=
  match fields with
  | [] => Done result
  | field :: rest =>
      let fieldName :=
        match Relations.given prefix with
        | Some p => p +:+ "." +:+ FieldSpecWrapper.fieldName field
        | None => FieldSpecWrapper.fieldName field
        end in
      match assoc "hasOwnProperty" sqlResult with
      | Some _ => Fail (Raised TypeError)
      | None =>
          match assoc fieldName sqlResult with
          | None => Fail (MissingColumn fieldName (Model.name this))
          | Some raw =>
              let value := FieldSpecWrapper.convertFromDatabaseForm field raw in
              let result :=
                DatabaseInstance.mk (DatabaseInstance.model result)
                  (<[FieldSpecWrapper.fieldName field := value]>
                     (DatabaseInstance.fields result))
                  (DatabaseInstance.created result) (DatabaseInstance.rowId result)
                  (DatabaseInstance.relations result) in
              let result :=
                if is_true_flag (primaryKey (FieldSpecWrapper.fieldSpec field))
                then DatabaseInstance.set_rowId heap result value
                else result in
              fieldsFromResult heap this sqlResult prefix rest result
          end
      end
  end.

Definition typeof_number (v : JsValue) : bool :=
  match v with
  | JNum _ => true
  | _ => false
  end.

(** [Model.buildFromDatabaseResult(sqlResult, prefix)] *)
Definition buildFromDatabaseResult (heap : Heap) (model : ModelRef)
    (sqlResult : list (string * JsValue)) (prefix : option string)
  : Outcome DatabaseInstance.t :=
  let this := heap model in
  match fieldsFromResult heap this sqlResult prefix (Model.fields this)
          (DatabaseInstance.new model) with
  | Fail f => Fail f
  | Done result =>
      match
        (if loose_eq_null (DatabaseInstance.rowId result)
         then
           let qualifiedRowid := Model.name this +:+ "." +:+ ROWID in
           match assoc ROWID sqlResult, assoc qualifiedRowid sqlResult with
           | None, None => Fail (MissingRowid (Model.name this))
           | Some rowid, _ | None, Some rowid =>
               if negb (typeof_number rowid)
               then Fail (InvalidRowidType (Model.name this))
               else Done (DatabaseInstance.set_rowId heap result rowid)
           end
         else Done result) with
      | Fail f => Fail f
      | Done result =>
          Done (_makeInstance heap
                  (DatabaseInstance.mk (DatabaseInstance.model result)
                     (DatabaseInstance.fields result) true
                     (DatabaseInstance.rowId result) (DatabaseInstance.relations result)))
      end
  end.

(** An instance together with the order in which the keys of its [$fields]
    map were first set, which is the order the map enumerates them in. *)
Module Instance.

Record t : Type := mk { target : DatabaseInstance.t; keyOrder : list string }.

Definition firstSet (keyOrder : list string) (key : string) : list string :=
  if existsb (String.eqb key) keyOrder then keyOrder else keyOrder ++ [key].

(** [$set(prop, value)] *)
Definition set (heap : Heap) (this : t) (prop : string) (value : JsValue)
  : t * Result bool :=
  let (target', r) := DatabaseInstance.set heap (target this) prop value in
  (mk target'
      (match DatabaseInstance.relations (target this) !! prop with
       | Some _ => keyOrder this
       | None => firstSet (keyOrder this) prop
       end),
   r).

(** [Model.build(template)] sets the fields in definition order. *)
Definition build (heap : Heap) (model : ModelRef) (template : list (string * JsValue)) : t :=
  mk (build heap model template)
     (fold_left firstSet (map FieldSpecWrapper.fieldName (Model.fields (heap model))) []).

(** The key order lists the keys of the field map, each once. *)
Definition ordered (this : t) : Prop :=
  NoDup (keyOrder this)
  /\ forall key, In key (keyOrder this)
                 <-> is_Some (DatabaseInstance.fields (target this) !! key).

End Instance.

(** [columns.map(key => ...)] in [createInstance] and [updateInstance]: the
    wrapper found for an inherited member is truthy and has no
    [convertToDatabaseForm]. *)
Fixpoint instanceValues (heap : Heap) (inst : DatabaseInstance.t) (columns : list string)
  : Outcome (list JsValue) :=
  match columns with
  | [] => Done []
  | key :: rest =>
      match
        (match Model.getFieldWrapper (heap (DatabaseInstance.model inst)) key with
         | Absent => Fail (NoFieldData key)
         | Inherited => Fail (Raised TypeError)
         | Own fieldWrapper =>
             raise (FieldSpecWrapper.convertToDatabaseForm fieldWrapper
                      (default JUndefined (DatabaseInstance.fields inst !! key)))
         end) with
      | Fail f => Fail f
      | Done value =>
          match instanceValues heap inst rest with
          | Fail f => Fail f
          | Done values => Done (value :: values)
          end
      end
  end.

Module Persistence.

Section Statements.

Context {C : Type} `{AbstractConnection C}.

(** The result of a method on an instance: the database and the instance
    as the call left them, and how the call ended. *)
Definition Effect : Type := (Database.t C * Instance.t) * Outcome unit.

(** [Database.createInstance(inst)] *)
Definition createInstance (this : Database.t C) (inst : Instance.t) : Effect :=
  let heap := Database.heap this in
  let d := Instance.target inst in
  let model := heap (DatabaseInstance.model d) in
  let columns := Instance.keyOrder inst in
  match instanceValues heap d columns with
  | Fail f => ((this, inst), Fail f)
  | Done values =>
      let valuesPlaceholders := join ", " (repeat "?" (List.length values)) in
      let sql := "INSERT INTO " +:+ Model.name model +:+ " (" +:+ join ", " columns
                 +:+ ") VALUES (" +:+ valuesPlaceholders +:+ ")" in
      match Database._run this sql (PositionalBindings values) with
      | (Throw e, this') => ((this', inst), Fail (Raised e))
      | (Ok runResult, this') =>
          let pkName := Model.getPrimaryKeyName model in
          let rowid := JNum (lastInsertROWID runResult) in
          let d :=
            if bool_decide (is_Some (DatabaseInstance.fields d !! pkName))
            then DatabaseInstance.mk (DatabaseInstance.model d)
                   (<[pkName := rowid]> (DatabaseInstance.fields d))
                   (DatabaseInstance.created d) (DatabaseInstance.rowId d)
                   (DatabaseInstance.relations d)
            else d in
          ((this', Instance.mk (DatabaseInstance.set_rowId heap d rowid)
                     (Instance.keyOrder inst)),
           Done tt)
      end
  end.

(** [Database.updateInstance(inst, updateFields)]; the placeholders are
    interpolated as an array, hence joined with a bare comma. *)
Definition updateInstance (this : Database.t C) (inst : Instance.t)
    (updateFields : option (list string)) : Effect :=
  let heap := Database.heap this in
  let d := Instance.target inst in
  let model := heap (DatabaseInstance.model d) in
  if negb (DatabaseInstance.created d)
  then ((this, inst), Fail InstanceNotCreated)
  else
    let columns :=
      match updateFields with
      | Some fields => fields
      | None => Instance.keyOrder inst
      end in
    match instanceValues heap d columns with
    | Fail f => ((this, inst), Fail f)
    | Done values =>
        let placeholders := map (fun column => column +:+ " = ?") columns in
        let pk := Model.getPrimaryKeyName model in
        let values := values ++ [DatabaseInstance.rowId d] in
        let sql := "UPDATE " +:+ Model.name model +:+ " SET " +:+ join "," placeholders
                   +:+ " WHERE " +:+ pk +:+ " = ?" in
        match Database._run this sql (PositionalBindings values) with
        | (r, this') => ((this', inst), raise (Database.discard r))
        end
    end.

(** [Database.removeInstance(inst)] *)
Definition removeInstance (this : Database.t C) (inst : Instance.t) : Effect :=
  let heap := Database.heap this in
  let d := Instance.target inst in
  let model := heap (DatabaseInstance.model d) in
  if negb (DatabaseInstance.created d)
  then ((this, inst), Fail InstanceNotCreated)
  else
    let pk := Model.getPrimaryKeyName model in
    let sql := "DELETE FROM " +:+ Model.name model +:+ " WHERE " +:+ pk +:+ " = ?" in
    match Database._run this sql (PositionalBindings [DatabaseInstance.rowId d]) with
    | (r, this') => ((this', inst), raise (Database.discard r))
    end.

(** [$flush(updateFields)] *)
Definition flush (this : Database.t C) (inst : Instance.t)
    (updateFields : option (list string)) : Effect :=
  if DatabaseInstance.created (Instance.target inst)
  then updateInstance this inst updateFields
  else
    match createInstance this inst with
    | ((this', inst'), Done _) =>
        let d := Instance.target inst' in
        ((this',
          Instance.mk (DatabaseInstance.mk (DatabaseInstance.model d)
                         (DatabaseInstance.fields d) true (DatabaseInstance.rowId d)
                         (DatabaseInstance.relations d))
            (Instance.keyOrder inst')),
         Done tt)
    | failed => failed
    end.

(** [$remove()] *)
Definition remove (this : Database.t C) (inst : Instance.t) : Effect :=
  match removeInstance this inst with
  | ((this', inst'), Done _) =>
      let d := Instance.target inst' in
      ((this',
        Instance.mk (DatabaseInstance.mk (DatabaseInstance.model d)
                       (DatabaseInstance.fields d) false JNull
                       (DatabaseInstance.relations d))
          (Instance.keyOrder inst')),
       Done tt)
  | failed => failed
  end.

End Statements.

End Persistence.

(** ** What the relation accessors do *)

(** [DbRelation._ensureRelatedInstancesGood] and [_ensureRelatedPksGood] *)
Fixpoint _ensureRelatedInstancesGood (instances : list DatabaseInstance.t)
    (expectedModel : ModelRef) : Result unit :=
  match instances with
  | [] => Ok tt
  | inst :: rest =>
      if negb (DatabaseInstance.created inst) || loose_eq_null (DatabaseInstance.rowId inst)
      then Throw InstanceInvalidError
      else if negb (DatabaseInstance.model inst =? expectedModel)%nat
      then Throw ModelMismatchError
      else _ensureRelatedInstancesGood rest expectedModel
  end.

Fixpoint _ensureRelatedPksGood (pks : list JsValue) : Result unit :=
  match pks with
  | [] => Ok tt
  | pk :: rest =>
      if loose_eq_null pk then Throw InstanceInvalidError else _ensureRelatedPksGood rest
  end.

(** [Object.assign({}, value)] and the spread of [value] in an object
    literal: the own enumerable properties, none for [null], [undefined],
    booleans and numbers. *)
Definition objectAssign (value : JsValue) : list (string * JsValue) :=
  match value with
  | JObj props => props
  | JArr items => array_entries items
  | JStr s => string_entries s
  | JUndefined | JNull | JBool _ | JNum _ => []
  end.

(** [obj[key] = value] for a key that is not an array index: an existing
    property keeps its place. *)
Fixpoint assign (obj : list (string * JsValue)) (key : string) (value : JsValue)
  : list (string * JsValue) :=
  match obj with
  | [] => [(key, value)]
  | (k, v) :: rest =>
      if String.eqb k key then (k, value) :: rest else (k, v) :: assign rest key value
  end.

(** The members of a [MultiRelationFieldData]; the other subclasses have
    none of them. *)
Definition relationModelOf (_d : RelationFieldData.t) : ModelRef :=
  match _d with
  | RelationFieldData.Multi _ _ _ _ _ relationModel _ _ => relationModel
  | RelationFieldData.Single _ _ m _ _ _ | RelationFieldData.Many _ _ m _ _ _ => m
  end.

Definition myForeignKeyOf (_d : RelationFieldData.t) : string :=
  match _d with
  | RelationFieldData.Multi _ _ _ _ isLeft _ lfk rfk => myForeignKey isLeft lfk rfk
  | _ => ""
  end.

Definition otherForeignKeyOf (_d : RelationFieldData.t) : string :=
  match _d with
  | RelationFieldData.Multi _ _ _ _ isLeft _ lfk rfk => otherForeignKey isLeft lfk rfk
  | _ => ""
  end.

Module DbManyRelation.

Section Methods.

Context {C : Type} `{AbstractConnection C}.

Variable rand : nat -> N.
Variable _inst : DatabaseInstance.t.
Variable _d : RelationFieldData.t.

Definition guarded (db : Database.t C) (checks : Result unit)
    (action : Database.t C -> Result unit * Database.t C) : Result unit * Database.t C :=
  match DbRelation._ensureGood _inst with
  | Throw e => (Throw e, db)
  | Ok _ =>
      match checks with
      | Throw e => (Throw e, db)
      | Ok _ => action db
      end
  end.

(** The update both [linkByPK] and [unlinkByPK] send. *)
Definition setForeignKeyIn (pks : list JsValue) (value : JsValue) (db : Database.t C)
  : Result unit * Database.t C :=
  let companion := RelationFieldData.companionModel _d in
  Database.update rand db companion
    (UpdateOptions.mk
       (Some (JObj [(Model.getPrimaryKeyName (Database.heap db companion),
                     JObj [("$in", JArr pks)])]))
       [(DbSingleRelation.foreignKeyOf _d, value)]).

Definition linkByPK (db : Database.t C) (pks : list JsValue) : Result unit * Database.t C :=
  guarded db (_ensureRelatedPksGood pks)
    (setForeignKeyIn pks (DatabaseInstance.rowId _inst)).

Definition link (db : Database.t C) (instances : list DatabaseInstance.t)
  : Result unit * Database.t C :=
  guarded db (_ensureRelatedInstancesGood instances (RelationFieldData.companionModel _d))
    (fun db => linkByPK db (map DatabaseInstance.rowId instances)).

Definition unlinkByPK (db : Database.t C) (pks : list JsValue) : Result unit * Database.t C :=
  guarded db (_ensureRelatedPksGood pks) (setForeignKeyIn pks JNull).

Definition unlink (db : Database.t C) (values : list DatabaseInstance.t)
  : Result unit * Database.t C :=
  guarded db (_ensureRelatedInstancesGood values (RelationFieldData.companionModel _d))
    (fun db => unlinkByPK db (map DatabaseInstance.rowId values)).

Definition unlinkWhere (db : Database.t C) (where_ : JsValue) : Result unit * Database.t C :=
  guarded db (Ok tt)
    (fun db =>
       let crit := assign (objectAssign where_) (DbSingleRelation.foreignKeyOf _d)
                     (DatabaseInstance.rowId _inst) in
       Database.update rand db (RelationFieldData.companionModel _d)
         (UpdateOptions.mk (Some (JObj crit)) [(DbSingleRelation.foreignKeyOf _d, JNull)])).

Definition unlinkAll (db : Database.t C) : Result unit * Database.t C :=
  guarded db (Ok tt) (fun db => unlinkWhere db (JObj [("where", JObj [])])).

End Methods.

(** The options [find(options)] searches the companion model with. *)
Definition findOptions (_inst : DatabaseInstance.t) (_d : RelationFieldData.t)
    (options : option FindOptions.t) : Result FindOptions.t :=
  match DbRelation._ensureGood _inst with
  | Throw e => Throw e
  | Ok _ =>
      let givenWhere :=
        match options with
        | Some o =>
            match FindOptions.where_ o with
            | Some w => if js_truthy w then w else JObj []
            | None => JObj []
            end
        | None => JObj []
        end in
      let given := default noFindOptions options in
      Ok (FindOptions.mk
            (Some (JObj (assign (objectAssign givenWhere) (DbSingleRelation.foreignKeyOf _d)
                           (JObj [("$eq", DatabaseInstance.rowId _inst)]))))
            (FindOptions.limit given) (FindOptions.offset given)
            (FindOptions.fetchTotalCount given) (FindOptions.sort given)
            (FindOptions.join given))
  end.

End DbManyRelation.

Module DbMultiRelation.

(** [{[myForeignKey]: mine, [otherForeignKey]: other}] *)
Definition keyPair (_d : RelationFieldData.t) (mine other : JsValue)
  : list (string * JsValue) :=
  assign [(myForeignKeyOf _d, mine)] (otherForeignKeyOf _d) other.

Section Methods.

Context {C : Type} `{AbstractConnection C}.

Variable rand : nat -> N.
Variable _inst : DatabaseInstance.t.
Variable _d : RelationFieldData.t.

Definition guarded (db : Database.t C) (checks : Result unit)
    (action : Database.t C -> Database.t C * Outcome unit) : Database.t C * Outcome unit :=
  match DbRelation._ensureGood _inst with
  | Throw e => (db, Fail (Raised e))
  | Ok _ =>
      match checks with
      | Throw e => (db, Fail (Raised e))
      | Ok _ => action db
      end
  end.

(** The loop of [linkByPK]: one relation instance built and flushed per
    key; the first failure ends it. *)
Fixpoint linkLoop (db : Database.t C) (pks : list JsValue) : Database.t C * Outcome unit :=
  match pks with
  | [] => (db, Done tt)
  | pk :: rest =>
      let newRelation :=
        Instance.build (Database.heap db) (relationModelOf _d)
          (keyPair _d (DatabaseInstance.rowId _inst) pk) in
      match Persistence.flush db newRelation None with
      | ((db', _), Done _) => linkLoop db' rest
      | ((db', _), Fail f) => (db', Fail f)
      end
  end.

Definition linkByPK (db : Database.t C) (pks : list JsValue) : Database.t C * Outcome unit :=
  guarded db (_ensureRelatedPksGood pks) (fun db => linkLoop db pks).

Definition link (db : Database.t C) (values : list DatabaseInstance.t)
  : Database.t C * Outcome unit :=
  guarded db (_ensureRelatedInstancesGood values (RelationFieldData.companionModel _d))
    (fun db => linkByPK db (map DatabaseInstance.rowId values)).

Definition removing (db : Database.t C) (criteria : list (string * JsValue))
  : Database.t C * Outcome unit :=
  let (r, db') := Database.remove rand db (relationModelOf _d)
                    (RemoveOptions.mk (Some (JObj criteria))) in
  (db', raise r).

Definition unlinkByPK (db : Database.t C) (pks : list JsValue) : Database.t C * Outcome unit :=
  guarded db (_ensureRelatedPksGood pks)
    (fun db =>
       removing db (keyPair _d (DatabaseInstance.rowId _inst) (JObj [("$in", JArr pks)]))).

(** [unlink(...values)] hands [unlinkByPK] the array of row ids as its one
    argument. *)
Definition unlink (db : Database.t C) (values : list DatabaseInstance.t)
  : Database.t C * Outcome unit :=
  guarded db (_ensureRelatedInstancesGood values (RelationFieldData.companionModel _d))
    (fun db => unlinkByPK db [JArr (map DatabaseInstance.rowId values)]).

Definition unlinkWhere (db : Database.t C) (where_ : JsValue) : Database.t C * Outcome unit :=
  guarded db (Ok tt)
    (fun db =>
       removing db (assign (objectAssign where_) (myForeignKeyOf _d)
                      (DatabaseInstance.rowId _inst))).

Definition unlinkAll (db : Database.t C) : Database.t C * Outcome unit :=
  guarded db (Ok tt)
    (fun db => removing db [(myForeignKeyOf _d, DatabaseInstance.rowId _inst)]).

End Methods.

(** The names of the properties an options object has. *)
Definition ownKeys (options : FindOptions.t) : list string :=
  let present {A : Type} (property : option A) (name : string) : list string :=
    match property with
    | Some _ => [name]
    | None => []
    end in
  present (FindOptions.where_ options) "where"
  ++ present (FindOptions.limit options) "limit"
  ++ present (FindOptions.offset options) "offset"
  ++ present (FindOptions.fetchTotalCount options) "fetchTotalCount"
  ++ present (FindOptions.sort options) "sort"
  ++ present (FindOptions.join options) "join".

(** The options [find(options)] searches the relation model with:
    [{where, join: [...], ...options}], the properties of [options] last.
    An options object has the properties whose field is [Some]. *)
Definition findOptions (_inst : DatabaseInstance.t) (_d : RelationFieldData.t)
    (options : option FindOptions.t) : Outcome FindOptions.t :=
  match options with
  | Some o =>
      match FindOptions.join o with
      | Some _ => Fail JoinNotAllowed
      | None =>
          if existsb (String.eqb (myForeignKeyOf _d)) (ownKeys o)
          then Fail InvalidSearchOptions
          else
            let where_ :=
              JObj (assign (objectAssign (default JUndefined (FindOptions.where_ o)))
                      (myForeignKeyOf _d) (DatabaseInstance.rowId _inst)) in
            Done (FindOptions.mk
                    (Some (default where_ (FindOptions.where_ o)))
                    (FindOptions.limit o) (FindOptions.offset o)
                    (FindOptions.fetchTotalCount o) (FindOptions.sort o)
                    (Some [JoinOption.mk _d JoinType.Inner]))
      end
  | None =>
      Done (FindOptions.mk
              (Some (JObj [(myForeignKeyOf _d, DatabaseInstance.rowId _inst)]))
              None None None None (Some [JoinOption.mk _d JoinType.Inner]))
  end.

End DbMultiRelation.

(** [DbSingleRelation.unlink()] *)
Definition DbSingleRelation_unlink {C : Type} `{AbstractConnection C} (rand : nat -> N)
    (db : Database.t C) (_inst : Instance.t) (_d : RelationFieldData.t)
  : Persistence.Effect :=
  match DbRelation._ensureGood (Instance.target _inst) with
  | Throw e => ((db, _inst), Fail (Raised e))
  | Ok _ =>
      let foreignKey := DbSingleRelation.foreignKeyOf _d in
      if negb (isCompanion _d)
      then
        match Instance.set (Database.heap db) _inst foreignKey JNull with
        | (inst', Throw e) => ((db, inst'), Fail (Raised e))
        | (inst', Ok _) => Persistence.flush db inst' (Some [foreignKey])
        end
      else
        let (r, db') :=
          Database.update rand db (RelationFieldData.companionModel _d)
            (UpdateOptions.mk
               (Some (JObj [(foreignKey, DatabaseInstance.rowId (Instance.target _inst))]))
               [(foreignKey, JNull)]) in
        ((db', _inst), raise r)
  end.

(** The shop registry after [customer.manyToMany(invoice, 'bills')]: the
    pivot model [customerInvoice] is defined behind 3. *)
Definition pivotShopDatabase : Database.t RecordingConnection :=
  fst (Relations.manyToMany 1 (Relations.ByRef 2) (Some "bills") None shopDatabase).

Definition billsRelation : RelationFieldData.t :=
  RelationFieldData.Multi "bills" ManyToMany 1 2 true 3 "customerid" "invoiceid".

(** A selected column named after itself: [column AS "column"]. *)
Definition asAlias (column : string) : string :=
  column +:+ " AS " +:+ dquote +:+ column +:+ dquote.

(** The names under which [buildSelect] returns the columns of the model
    it searches: one per field, and the implicit row id when no field is
    flagged as primary key. *)
Definition selectedNames (m : Model.t) : list string :=
  map (fun field => Model.name m +:+ "." +:+ FieldSpecWrapper.fieldName field) (Model.fields m)
  ++ (if (primaryKeyFields m =? 0)%nat then [Model.name m +:+ "." +:+ ROWID] else []).

(** ** Field specifications as shared objects *)

(** [new FieldSpecWrapper(fieldName, fieldSpec)] keeps the object the caller
    handed over, and [updateField] assigns into the object it finds in the
    wrapper.  Here the specification objects have an identity, a [SpecRef],
    and a [SpecHeap] gives the current properties of each of them. *)
Definition SpecRef : Type := nat.
Definition SpecHeap : Type := SpecRef -> FieldSpec.

Module SharedSpec.

Record Wrapper : Type := mkWrapper { fieldName : string; fieldSpec : SpecRef }.

(** The [_spec] object of a model. *)
Definition Table : Type := list (string * Wrapper).

(** [for (let k of Object.keys(fieldSpec)) oldFieldSpec[k] = fieldSpec[k]] *)
Definition assignInto (specs : SpecHeap) (oldFieldSpec fieldSpec : SpecRef) : SpecHeap :=
  fun r => if (r =? oldFieldSpec)%nat
           then mergeFieldSpec (specs oldFieldSpec) (specs fieldSpec)
           else specs r.

Definition getFieldSpec (specs : SpecHeap) (this : Table) (fieldName : string)
  : option FieldSpec :=
  match object_get this fieldName with
  | Own w => Some (specs (fieldSpec w))
  | Inherited | Absent => None
  end.

Definition addField (this : Table) (fieldName : string) (fieldSpec : SpecRef)
  : Result Table :=
  if negb (isValidName fieldName)
  then Throw (InvalidFieldName fieldName)
  else
    match object_get this fieldName with
    | Own _ | Inherited => Throw (FieldAlreadyExists fieldName)
    | Absent => Ok (this ++ [(fieldName, mkWrapper fieldName fieldSpec)])
    end.

Definition updateField (specs : SpecHeap) (this : Table) (fieldName : string)
    (fieldSpec : SpecRef) : Result (SpecHeap * Table) :=
  match object_get this fieldName with
  | Absent =>
      match addField this fieldName fieldSpec with
      | Ok this' => Ok (specs, this')
      | Throw e => Throw e
      end
  | Inherited => if hasNoKeys (specs fieldSpec) then Ok (specs, this) else Throw TypeError
  | Own w => Ok (assignInto specs (SharedSpec.fieldSpec w) fieldSpec, this)
  end.


End SharedSpec.

(** ** The text of a schema and of a select *)

(** The default value of a column as the schema shows it: none when the
    specification has none (or null), else the value the field converts it
    to. *)
Definition convertedDefault (w : FieldSpecWrapper.t) : Result (option JsValue) :=
  match defaultValue (FieldSpecWrapper.fieldSpec w) with
  | None => Ok None
  | Some dv =>
      if loose_eq_null dv then Ok None
      else match FieldSpecWrapper.convertToDatabaseForm w dv with
           | Ok v => Ok (Some v)
           | Throw e => Throw e
           end
  end.

(** The definition of a column: the name, then, of the following, those
    the specification asks for, in this order: the type, [PRIMARY KEY],
    [UNIQUE], [COLLATE] and the collation, [NOT NULL], [DEFAULT] and the
    value, a string between double quotes. *)
Definition columnDefinition (fieldName : string) (fs : FieldSpec)
    (defValue : option JsValue) : string :=
  join " "
    ([fieldName]
       ++ match typeHint fs with Some hint => [TypeHint_text hint] | None => [] end
       ++ (if is_true_flag (primaryKey fs) then ["PRIMARY KEY"] else [])
       ++ (if is_true_flag (unique fs) then ["UNIQUE"] else [])
       ++ match collation fs with Some c => ["COLLATE"; c] | None => [] end
       ++ (if is_false_flag (allowNull fs) then ["NOT NULL"] else [])
       ++ match defValue with
          | None => []
          | Some (JStr text) => ["DEFAULT"; dquote +:+ text +:+ dquote]
          | Some v => ["DEFAULT"; join_item v]
          end).

(** A field selected under a prefix, [prefix.field AS "prefix.field"], or
    bare when there is no prefix. *)
Definition selectedColumn (prefix : option string) (fieldName : string) : string :=
  match Relations.given prefix with
  | Some p => asAlias (p +:+ "." +:+ fieldName)
  | None => fieldName
  end.

(** The sorting a select asks for: the entries of the [sort] option in the
    order given, a bare name sorting ascending and case-insensitive, then
    the default sorting of the model unless an entry sorts by the same
    field. *)
Definition sortPart (entry : SortEntry) : string :=
  match entry with
  | SortName name => QueryBuilder._makeSort name (Some Asc) (Some false)
  | SortSpec prop => QueryBuilder._makeSort (by_ prop) (order prop) (caseSensitive prop)
  end.

Definition sortParts (m : Model.t) (options : FindOptions.t) : list string :=
  let entries := default [] (FindOptions.sort options) in
  map sortPart entries
    ++ match defaultSorting (Model._options m) with
       | Some d =>
           if existsb (fun x => String.eqb (SelectQueryBuilder.sortEntry_by x) (by_ d)) entries
           then []
           else [sortPart (SortSpec d)]
       | None => []
       end.

Definition orderByPart (m : Model.t) (options : FindOptions.t) : list string :=
  match sortParts m options with
  | [] => []
  | parts => ["ORDER BY " +:+ join ", " parts]
  end.



(** A connection that counts the statements it is given; every statement
    reports one change and row 42. *)
Definition CountingConnection : Type := nat.

#[export] Instance counting_connection : AbstractConnection CountingConnection := {
  prepare_run sql bindings n := (Ok {| changes := 1; lastInsertROWID := 42 |}, S n);
  exec sql n := (Ok tt, S n)
}.

(** * Properties *)

(** ** Identifier validation (C5) *)

Lemma charCodeAt_shift (c : ascii) (s : string) (j : nat) :
  charCodeAt (String c s) (S j) = charCodeAt s j.
Proof. reflexivity. Qed.

Lemma isValidName_loop_shift (c : ascii) (s : string) (steps j : nat) :
  isValidName_loop (String c s) (S j) steps = isValidName_loop s j steps.
Proof.
  revert j. induction steps as [|steps IH]; intros j; [reflexivity|].
  cbn [isValidName_loop]. rewrite charCodeAt_shift, IH. reflexivity.
Qed.

Lemma body_test_char (c : ascii) (s : string) :
  (isAlphaCode (charCodeAt (String c s) 0) || isDigitCode (charCodeAt (String c s) 0)
   || match charCodeAt (String c s) 0 with
      | Some n => (n =? CHAR_UNDERSCORE)%N
      | None => false
      end) = is_body_char c.
Proof. reflexivity. Qed.

Lemma isValidName_loop_body (s : string) :
  isValidName_loop s 0 (String.length s) = forallb is_body_char (list_ascii_of_string s).
Proof.
  induction s as [|c s IH]; [reflexivity|].
  cbn [String.length isValidName_loop list_ascii_of_string forallb].
  rewrite body_test_char, isValidName_loop_shift, IH.
  destruct (is_body_char c); reflexivity.
Qed.

Lemma isValidName_grammar (name : string) :
  isValidName name = letter_start_identifier name.
Proof.
  destruct name as [|c rest]; [reflexivity|].
  unfold isValidName, letter_start_identifier.
  cbn [String.length Nat.eqb orb].
  replace (isAlphaCode (charCodeAt (String c rest) 0)) with (is_letter c) by reflexivity.
  replace (S (String.length rest) - 1) with (String.length rest) by lia.
  rewrite isValidName_loop_shift, isValidName_loop_body.
  destruct (is_letter c); reflexivity.
Qed.

Lemma addField_name_error (m : Model.t) (name : string) (fs : FieldSpec) :
  Model.addField m name fs = Throw (InvalidFieldName name) <-> isValidName name = false.
Proof.
  unfold Model.addField. destruct (isValidName name); cbn.
  - split; [|discriminate]. destruct (object_get (Model._spec m) name); discriminate.
  - split; reflexivity.
Qed.

(** C5, as stated, fails: ["_abc"] matches the grammar of the specification
    (underscore start, letters after it) and [addField] rejects it with the
    name error.  The test suite expects this rejection. *)
Lemma C5_underscore_start_is_rejected :
  spec_identifier "_abc" = true /\
  Model.addField fooModel "_abc" textField = Throw (InvalidFieldName "_abc").
Proof. split; reflexivity. Qed.

(** C5, amended: [addField] raises the name error exactly for the names
    outside the grammar "a letter, then letters, digits and underscores", and
    so does [define] for model names; a name that starts with an underscore is
    always rejected. *)
Theorem C5_names_start_with_a_letter :
  forall (m : Model.t) (name : string) (fs : FieldSpec),
    (Model.addField m name fs = Throw (InvalidFieldName name)
     <-> letter_start_identifier name = false)
    /\ (forall (C : Type) (db : Database.t C) spec opts,
          Database.define db name spec opts = Throw (InvalidModelName name)
          <-> letter_start_identifier name = false)
    /\ (forall rest : string,
          Model.addField m (String "_" rest) fs = Throw (InvalidFieldName (String "_" rest))).
Proof.
  intros m name fs. split; [|split].
  - rewrite <- isValidName_grammar. apply addField_name_error.
  - intros C db spec opts. rewrite <- isValidName_grammar.
    unfold Database.define. destruct (isValidName name); cbn.
    + split; [|discriminate].
      destruct (Database.getModel db name); [discriminate|].
      destruct (Model.new name spec opts) as [model|e] eqn:Hnew; [discriminate|].
      intros Heq. injection Heq as ->.
      exfalso. revert Hnew. unfold Model.new.
      assert (Hadd' : forall m0 n0 f0,
                Model.addField m0 n0 f0 <> Throw (InvalidModelName name)).
      { intros m0 n0 f0. unfold Model.addField.
        destruct (isValidName n0); cbn; [|discriminate].
        destruct (object_get (Model._spec m0) n0); discriminate. }
      assert (Hfields : forall l m0, Model.addFields m0 l <> Throw (InvalidModelName name)).
      { induction l as [|[k f] l IH]; intros m0; cbn; [discriminate|].
        destruct (Model.addField m0 k f) eqn:Hk; [apply IH|].
        intros Heq. rewrite Heq in Hk. exact (Hadd' _ _ _ Hk). }
      destruct (Model.addFields _ spec) as [m1|e1] eqn:H1.
      * destruct (createTimestamp opts).
        -- destruct (Model.addField m1 "createdAt" _) as [m2|e2] eqn:H2.
           ++ destruct (updateTimestamp opts); [|discriminate].
              intros H3. exact (Hadd' _ _ _ H3).
           ++ intros Heq. rewrite Heq in H2. exact (Hadd' _ _ _ H2).
        -- destruct (updateTimestamp opts); [|discriminate].
           intros H3. exact (Hadd' _ _ _ H3).
      * intros Heq. rewrite Heq in H1. exact (Hfields _ _ H1).
    + split; reflexivity.
  - intros rest. apply addField_name_error. reflexivity.
Qed.

(** ** Primary keys and the schema (C6) *)

Lemma convertToDatabaseForm_error (w : FieldSpecWrapper.t) (v : JsValue) (e : Error) :
  FieldSpecWrapper.convertToDatabaseForm w v = Throw e ->
  e = InvalidPropertyValue (FieldSpecWrapper.fieldName w).
Proof.
  unfold FieldSpecWrapper.convertToDatabaseForm.
  destruct (negb _ && _); [discriminate|].
  destruct (validate _) as [check|]; [|discriminate].
  destruct (negb (check v)); [|discriminate].
  intros H. injection H as <-. reflexivity.
Qed.

Lemma columnsLoop_too_many (modelName : string) (spec : list (string * FieldSpecWrapper.t)) :
  forall (k : nat) (columns : list string),
    k <= 1 ->
    2 <= k + List.length (List.filter isPrimaryEntry spec) ->
    exists e, Database.columnsLoop modelName spec k columns = Throw e.
Proof.
  induction spec as [|[fieldName w] rest IH]; intros k columns Hk Hcount.
  - cbn in Hcount. lia.
  - cbn [Database.columnsLoop]. cbn [List.filter] in Hcount.
    unfold isPrimaryEntry at 1 in Hcount. cbn [snd] in Hcount.
    destruct (is_true_flag (primaryKey (FieldSpecWrapper.fieldSpec w))) eqn:Hp.
    + cbn [andb]. cbn [List.length] in Hcount.
      destruct (1 <? S k)%nat eqn:Hlt; [eauto|].
      apply Nat.ltb_ge in Hlt.
      match goal with
      | |- context [match ?d with Ok _ => _ | Throw _ => _ end] => destruct d; [|eauto]
      end.
      apply IH; lia.
    + cbn [andb].
      match goal with
      | |- context [match ?d with Ok _ => _ | Throw _ => _ end] => destruct d; [|eauto]
      end.
      apply IH; lia.
Qed.

Lemma columnsLoop_single_key (modelName : string) (spec : list (string * FieldSpecWrapper.t)) :
  forall (k : nat) (columns : list string) (n : string),
    k + List.length (List.filter isPrimaryEntry spec) <= 1 ->
    Database.columnsLoop modelName spec k columns <> Throw (MultiplePrimaryKeys n).
Proof.
  induction spec as [|[fieldName w] rest IH]; intros k columns n Hcount.
  - discriminate.
  - cbn [Database.columnsLoop]. cbn [List.filter] in Hcount.
    unfold isPrimaryEntry at 1 in Hcount. cbn [snd] in Hcount.
    destruct (is_true_flag (primaryKey (FieldSpecWrapper.fieldSpec w))) eqn:Hp;
      cbn [andb]; cbn [List.length] in Hcount.
    + assert (k = 0) as -> by lia. cbn [Nat.ltb Nat.leb].
      destruct (defaultValue (FieldSpecWrapper.fieldSpec w)) as [dv|]; [|apply IH; lia].
      destruct (negb (loose_eq_null dv)); [|apply IH; lia].
      destruct (FieldSpecWrapper.convertToDatabaseForm w dv) as [d|e] eqn:Hconv;
        [apply IH; lia|].
      apply convertToDatabaseForm_error in Hconv. subst e. discriminate.
    + destruct (defaultValue (FieldSpecWrapper.fieldSpec w)) as [dv|]; [|apply IH; lia].
      destruct (negb (loose_eq_null dv)); [|apply IH; lia].
      destruct (FieldSpecWrapper.convertToDatabaseForm w dv) as [d|e] eqn:Hconv;
        [apply IH; lia|].
      apply convertToDatabaseForm_error in Hconv. subst e. discriminate.
Qed.

Lemma tablesLoop_failing_model (heap : Heap) (models : list ModelRef) (ref : ModelRef) :
  In ref models ->
  (exists e, Database.columnsLoop (Model.name (heap ref)) (Model._spec (heap ref)) 0 []
             = Throw e) ->
  forall acc, exists e, Database.tablesLoop heap models acc = Throw e.
Proof.
  intros Hin [e He]. induction models as [|r rest IH]; intros acc; [destruct Hin|].
  cbn [Database.tablesLoop]. destruct Hin as [->|Hin].
  - rewrite He. eauto.
  - destruct (Database.columnsLoop (Model.name (heap r)) (Model._spec (heap r)) 0 []);
      [apply IH; exact Hin|eauto].
Qed.

Lemma tablesLoop_single_keys (heap : Heap) (models : list ModelRef) (n : string) :
  (forall ref, In ref models -> primaryKeyFields (heap ref) <= 1) ->
  forall acc, Database.tablesLoop heap models acc <> Throw (MultiplePrimaryKeys n).
Proof.
  induction models as [|r rest IH]; intros Hall acc; [discriminate|].
  cbn [Database.tablesLoop].
  destruct (Database.columnsLoop _ _ 0 []) as [cols|e] eqn:Hcols.
  - apply IH. intros ref Hin. apply Hall. right. exact Hin.
  - intros Heq. rewrite Heq in Hcols. revert Hcols.
    apply columnsLoop_single_key. apply (Hall r). left. reflexivity.
Qed.

Lemma filter_primary_app (l1 l2 : list (string * FieldSpecWrapper.t)) :
  List.length (List.filter isPrimaryEntry (l1 ++ l2))
  = List.length (List.filter isPrimaryEntry l1) + List.length (List.filter isPrimaryEntry l2).
Proof. rewrite List.filter_app, List.length_app. reflexivity. Qed.

(** C6: a field flagged primary key is added like any other field, also to
    a model that already has one (the number of flagged fields then grows by
    one); [createSchema] throws as soon as a registered model has two or
    more flagged fields, and never throws the compound-key error when every
    registered model has at most one. *)
Theorem C6_compound_key_rejected_by_createSchema_only :
  (forall (m : Model.t) (name : string) (fs : FieldSpec),
      isValidName name = true ->
      Model.getFieldWrapper m name = Absent ->
      exists m', Model.addField m name fs = Ok m'
                 /\ primaryKeyFields m'
                    = primaryKeyFields m + (if is_true_flag (primaryKey fs) then 1 else 0))
  /\ (forall (C : Type) (db : Database.t C) (ref : ModelRef),
        In ref (Database._models db) ->
        2 <= primaryKeyFields (Database.heap db ref) ->
        exists e, Database.createSchema db = Throw e)
  /\ (forall (C : Type) (db : Database.t C),
        (forall ref, In ref (Database._models db) ->
                     primaryKeyFields (Database.heap db ref) <= 1) ->
        forall n, Database.createSchema db <> Throw (MultiplePrimaryKeys n)).
Proof.
  split; [|split].
  - intros m name fs Hvalid Habsent.
    unfold Model.addField. rewrite Hvalid. cbn [negb].
    unfold Model.getFieldWrapper in Habsent. rewrite Habsent.
    eexists. split; [reflexivity|].
    unfold primaryKeyFields. cbn [Model._spec].
    rewrite filter_primary_app. f_equal.
    cbn [List.filter]. unfold isPrimaryEntry. cbn [snd FieldSpecWrapper.fieldSpec].
    destruct (is_true_flag (primaryKey fs)); reflexivity.
  - intros C db ref Hin Hcount. unfold Database.createSchema.
    destruct (tablesLoop_failing_model (Database.heap db) (Database._models db) ref Hin)
      with (acc := @nil string) as [e He].
    + apply columnsLoop_too_many; [lia|exact Hcount].
    + rewrite He. eauto.
  - intros C db Hall n. unfold Database.createSchema.
    destruct (Database.tablesLoop _ _ []) as [tables|e] eqn:Htables; [discriminate|].
    intros Heq. injection Heq as ->. revert Htables.
    apply tablesLoop_single_keys. exact Hall.
Qed.

Lemma C6_compound_key_witness :
  (exists m', Model.addField fooModel "other" integerKey = Ok m'
              /\ primaryKeyFields m' = primaryKeyFields fooModel + 1)
  /\ (exists e, Database.createSchema
                  (Database.mk (Some []) [1] sampleHeap false : Database.t RecordingConnection)
                = Throw e)
  /\ Database.createSchema sampleDatabase <> Throw (MultiplePrimaryKeys "foo").
Proof.
  destruct C6_compound_key_rejected_by_createSchema_only as [Hadd [Hfail Hok]].
  split; [|split].
  - apply (Hadd fooModel "other" integerKey); reflexivity.
  - apply (Hfail RecordingConnection _ 1); [left; reflexivity|vm_compute; lia].
  - apply (Hok RecordingConnection sampleDatabase).
    intros ref [<-|[]]. vm_compute. lia.
Defined.

(** Defining a model with two primary-key fields succeeds; the schema of the
    resulting database cannot be created. *)
Lemma define_two_primary_keys :
  match Database.define sampleDatabase "bar" [("a", integerKey); ("b", integerKey)]
          noOptions with
  | Ok (_, db) => Database.createSchema db = Throw (MultiplePrimaryKeys "bar")
  | Throw _ => False
  end.
Proof. vm_compute. reflexivity. Qed.

(** A compound primary key stops [flushSchema] before anything reaches the
    connection. *)
Lemma flushSchema_compound_key (C : Type) (conn : AbstractConnection C) (db : Database.t C)
    (ref : ModelRef) :
  Database._schemaFlushed db = false ->
  In ref (Database._models db) ->
  2 <= primaryKeyFields (Database.heap db ref) ->
  exists e, Database.flushSchema db = (Throw e, db).
Proof.
  intros Hflushed Hin Hcount. unfold Database.flushSchema. rewrite Hflushed.
  assert (Hschema : exists e, Database.createSchema db = Throw e).
  { unfold Database.createSchema.
    destruct (tablesLoop_failing_model (Database.heap db) (Database._models db) ref Hin)
      with (acc := @nil string) as [e He].
    - apply columnsLoop_too_many; [lia|exact Hcount].
    - rewrite He. eauto. }
  destruct Hschema as [e ->]. eauto.
Qed.

(** ** Join conditions of single relations (C7) *)

(** C7: called with its own model and its companion model, a single relation
    edge answers [alias.<companionPK> = owner.<foreignKey>] on the side that
    stores the key and [alias.<foreignKey> = owner.<ownerPK>] on the companion
    side of a one-to-one relation; any other pair of models raises
    [ModelMismatchError]. *)
Theorem C7_single_relation_join_condition :
  forall (heap : Heap) (name : string) (type : RelationType) (model companion : ModelRef)
         (isLeft : bool) (foreignKey companionAlias : string),
    let edge := RelationFieldData.Single name type model companion isLeft foreignKey in
    (getJoinCondition heap edge model companionAlias companion
     = Ok (if isCompanion edge
           then companionAlias +:+ "." +:+ foreignKey +:+ " = "
                +:+ Model.name (heap model) +:+ "."
                +:+ Model.getPrimaryKeyName (heap model)
           else companionAlias +:+ "." +:+ Model.getPrimaryKeyName (heap companion)
                +:+ " = " +:+ Model.name (heap model) +:+ "." +:+ foreignKey))
    /\ (forall m j : ModelRef,
          m <> model \/ j <> companion ->
          getJoinCondition heap edge m companionAlias j = Throw ModelMismatchError).
Proof.
  intros heap name type model companion isLeft foreignKey companionAlias edge.
  split.
  - unfold getJoinCondition, edge. rewrite !Nat.eqb_refl. cbn [negb orb].
    destruct (isCompanion _); reflexivity.
  - intros m j Hne. unfold getJoinCondition, edge.
    destruct (Nat.eqb_spec m model) as [->|Hm]; [|reflexivity].
    destruct (Nat.eqb_spec j companion) as [->|Hj]; [|reflexivity].
    destruct Hne as [Hne|Hne]; contradiction.
Qed.

Lemma C7_single_relation_witness :
  getJoinCondition sampleHeap
    (RelationFieldData.Single "bar" OneToOne 0 1 true "barid") 1 "__sa_bar" 1
  = Throw ModelMismatchError.
Proof.
  apply (proj2 (C7_single_relation_join_condition sampleHeap "bar" OneToOne 0 1 true
                  "barid" "__sa_bar") 1 1).
  left. lia.
Defined.

(** ** Dynamic field access (C9) *)

Lemma fold_insert_relations_lookup (l : list RelationFieldData.t) :
  forall (acc : gmap string RelationFieldData.t) (name : string),
    is_Some (fold_left (fun rels relation =>
                          <[RelationFieldData.name relation := relation]> rels) l acc
             !! name)
    <-> is_Some (acc !! name)
        \/ is_Some (List.find (fun x => String.eqb (RelationFieldData.name x) name) l).
Proof.
  induction l as [|r l IH]; intros acc name; cbn [fold_left List.find].
  - split; [auto|]. intros [H|[x H]]; [exact H|discriminate].
  - rewrite IH. destruct (String.eqb_spec (RelationFieldData.name r) name) as [->|Hne].
    + rewrite lookup_insert_eq. split; intros _; [right|left]; eauto.
    + rewrite lookup_insert_ne by exact Hne. reflexivity.
Qed.

(** [_makeInstance], run on a freshly constructed instance, leaves it with
    the accessors of the declared relations and no other. *)
Lemma makeInstance_relations_declared (heap : Heap) (inst : DatabaseInstance.t) :
  DatabaseInstance.relations inst = ∅ ->
  relations_declared heap (_makeInstance heap inst).
Proof.
  intros Hempty name. unfold _makeInstance.
  cbn [DatabaseInstance.relations DatabaseInstance.model].
  rewrite fold_insert_relations_lookup, Hempty, lookup_empty.
  unfold Model.getRelationFieldData. split; [intros [[x H]|H]|intros H].
  - discriminate.
  - exact H.
  - right. exact H.
Qed.

Lemma set_keeps_relations (heap : Heap) (inst : DatabaseInstance.t) (prop : string)
    (value : JsValue) :
  DatabaseInstance.relations (fst (DatabaseInstance.set heap inst prop value))
  = DatabaseInstance.relations inst
  /\ DatabaseInstance.model (fst (DatabaseInstance.set heap inst prop value))
     = DatabaseInstance.model inst.
Proof.
  unfold DatabaseInstance.set.
  destruct (DatabaseInstance.relations inst !! prop); [auto|].
  destruct (Model.getFieldWrapper _ prop) as [fsw| |]; [|auto..].
  destruct (is_true_flag _); auto.
Qed.

(** C9 does not hold of the code: ["constructor"] is neither a field nor a
    relation of [foo] and does not start with ["$"], yet [$set] throws.  The
    lookup [this._spec[name]] in [getFieldWrapper] finds the member that the
    object literal [_spec] inherits from [Object.prototype], and reading
    [fieldSpec.primaryKey] off it fails. *)
Theorem C9_inherited_member_name_throws :
  let inst := build sampleHeap 0 [] in
  relations_declared sampleHeap inst
  /\ Model.getRelationFieldData (sampleHeap 0) "constructor" = None
  /\ assoc "constructor" (Model._spec (sampleHeap 0)) = None
  /\ startsWith "constructor" "$" = false
  /\ snd (DatabaseInstance.set sampleHeap inst "constructor" (JNum 1)) = Throw TypeError.
Proof.
  cbv zeta. split; [|repeat split].
  apply makeInstance_relations_declared. reflexivity.
Qed.

(** Away from the members of [Object.prototype] the statement of C9 holds:
    for a name that is neither a declared field nor a declared relation of
    the instance's model, [$set] returns true and writes the field map, after
    which [$has] is true and [$get] returns the value. *)
Lemma undeclared_name_is_stored :
  forall (heap : Heap) (inst : DatabaseInstance.t) (name : string) (value : JsValue),
    relations_declared heap inst ->
    Model.getRelationFieldData (heap (DatabaseInstance.model inst)) name = None ->
    assoc name (Model._spec (heap (DatabaseInstance.model inst))) = None ->
    existsb (String.eqb name) object_prototype_keys = false ->
    let result := DatabaseInstance.set heap inst name value in
    snd result = Ok true
    /\ DatabaseInstance.fields (fst result) = <[name := value]> (DatabaseInstance.fields inst)
    /\ DatabaseInstance.has (fst result) name = true
    /\ DatabaseInstance.get (fst result) name = DatabaseInstance.FieldValue value.
Proof.
  intros heap inst name value Hdecl Hrel Hfield Hproto result.
  assert (Hnone : DatabaseInstance.relations inst !! name = None).
  { destruct (DatabaseInstance.relations inst !! name) eqn:Hlook; [|reflexivity].
    assert (Hsome : is_Some (DatabaseInstance.relations inst !! name)) by (rewrite Hlook; eauto).
    apply Hdecl in Hsome. rewrite Hrel in Hsome. destruct Hsome as [x Hx]. discriminate. }
  unfold result, DatabaseInstance.set. rewrite Hnone.
  unfold Model.getFieldWrapper, object_get. rewrite Hfield, Hproto.
  cbn [fst snd DatabaseInstance.fields]. split; [reflexivity|]. split; [reflexivity|].
  unfold DatabaseInstance.has, DatabaseInstance.get. cbn [DatabaseInstance.fields].
  rewrite lookup_insert_eq. split; [|reflexivity].
  rewrite bool_decide_eq_true_2 by eauto. reflexivity.
Qed.

Lemma undeclared_name_is_stored_example :
  snd (DatabaseInstance.set sampleHeap (build sampleHeap 0 []) "nickname" (JStr "x")) = Ok true
  /\ DatabaseInstance.get
       (fst (DatabaseInstance.set sampleHeap (build sampleHeap 0 []) "nickname" (JStr "x")))
       "nickname"
     = DatabaseInstance.FieldValue (JStr "x").
Proof.
  destruct (undeclared_name_is_stored sampleHeap (build sampleHeap 0 []) "nickname"
              (JStr "x")) as [Hret [_ [_ Hget]]].
  - apply makeInstance_relations_declared. reflexivity.
  - reflexivity.
  - reflexivity.
  - reflexivity.
  - split; [exact Hret|exact Hget].
Defined.

(** ** The companion side of a one-to-one relation (C10) *)

Lemma negation_is_never_null (v : JsValue) : loose_eq_null (js_not v) = false.
Proof. reflexivity. Qed.

(** C10: on the companion side, once [_ensureGood] has passed (the instance is
    created and its row identifier is neither null nor undefined), the guard
    [!this._inst.$rowId == null || !this._inst.$created] is false, so [get()]
    never takes the branch returning null and always ends in the [findOne]
    search on the companion model by foreign key. *)
Theorem C10_companion_get_always_searches :
  forall (inst : DatabaseInstance.t) (name : string) (type : RelationType)
         (model companion : ModelRef) (isLeft : bool) (foreignKey : string),
    let d := RelationFieldData.Single name type model companion isLeft foreignKey in
    isCompanion d = true ->
    DatabaseInstance.created inst = true ->
    loose_eq_null (DatabaseInstance.rowId inst) = false ->
    DbSingleRelation.earlyNullGuard inst = false
    /\ DbSingleRelation.get inst d
       = Ok (DbSingleRelation.FindOne companion
               (FindOptions.mk (Some (JObj [(foreignKey, DatabaseInstance.rowId inst)]))
                  None None None None None)).
Proof.
  intros inst name type model companion isLeft foreignKey d Hcomp Hcreated Hrow.
  assert (Hguard : DbSingleRelation.earlyNullGuard inst = false).
  { unfold DbSingleRelation.earlyNullGuard.
    rewrite negation_is_never_null, Hcreated. reflexivity. }
  split; [exact Hguard|].
  unfold DbSingleRelation.get, DbRelation._ensureGood.
  rewrite Hrow, Hcreated, Hcomp, Hguard. reflexivity.
Qed.

Lemma C10_companion_get_witness :
  DbSingleRelation.get
    (DatabaseInstance.mk 0 ∅ true (JNum 0) ∅)
    (RelationFieldData.Single "bar" OneToOne 0 1 false "fooid")
  = Ok (DbSingleRelation.FindOne 1
          (FindOptions.mk (Some (JObj [("fooid", JNum 0)])) None None None None None)).
Proof.
  apply (C10_companion_get_always_searches (DatabaseInstance.mk 0 ∅ true (JNum 0) ∅)
           "bar" OneToOne 0 1 false "fooid"); reflexivity.
Defined.

(** ** Update with nothing to set (C8) *)

(** C8: with an empty [set] map, [update] either fails while compiling the
    criteria or returns without running anything: for every connection, every
    criteria and every source of placeholder names the database, its
    connection included, is as before, and the compiled query text is empty. *)
Theorem C8_update_with_empty_set_runs_nothing :
  forall (C : Type) (conn : AbstractConnection C) (rand : nat -> N) (db : Database.t C)
         (model : ModelRef) (whereClause : option JsValue),
    snd (Database.update rand db model (UpdateOptions.mk whereClause [])) = db
    /\ match buildUpdate (Database.heap db) rand model (UpdateOptions.mk whereClause []) with
       | Ok q => query q = ""
       | Throw _ => True
       end.
Proof.
  intros C conn rand db model whereClause.
  assert (Hq : match buildUpdate (Database.heap db) rand model
                       (UpdateOptions.mk whereClause []) with
               | Ok q => query q = ""
               | Throw _ => True
               end).
  { unfold buildUpdate, run, UpdateQueryBuilder._buildUpdate, QueryBuilder.bindM.
    cbn [UpdateOptions.where_ UpdateOptions.set map List.length Nat.eqb].
    destruct (QueryBuilder._buildWhere _ _ _ _ _) as [[u st]|e]; [|exact I].
    reflexivity. }
  split; [|exact Hq].
  unfold Database.update.
  destruct (buildUpdate _ _ _ _) as [q|e]; [|reflexivity].
  rewrite Hq. reflexivity.
Qed.

(** ** Remove without criteria (C1) *)

(** C1 does not hold of the code.  The guard of [_buildRemove] reads
    [this._whereClause.length], which is [undefined] on a criteria object, so
    it lets the empty object through: [remove({})] and [remove({where: {}})]
    compile to an unconditional [DELETE] and the database runs it. *)
Theorem C1_remove_without_criteria_deletes_everything :
  forall (rand : nat -> N) (heap : Heap) (model : ModelRef),
    RemoveQueryBuilder.noCriteria (JObj []) = false
    /\ buildRemove heap rand model (RemoveOptions.mk None)
       = Ok {| query := "DELETE FROM " +:+ Model.name (heap model) +:+ " ";
               bound := SqlBoundParams.empty |}
    /\ buildRemove heap rand model (RemoveOptions.mk (Some (JObj [])))
       = Ok {| query := "DELETE FROM " +:+ Model.name (heap model) +:+ " ";
               bound := SqlBoundParams.empty |}
    /\ forall (log : RecordingConnection) (models : list ModelRef) (flushed : bool),
         Database.remove rand (Database.mk (Some log) models heap flushed) model
           (RemoveOptions.mk (Some (JObj [])))
         = (Ok tt,
            Database.mk
              (Some (log ++ [("DELETE FROM " +:+ Model.name (heap model) +:+ " ",
                              NamedBindings SqlBoundParams.empty)]))
              models heap flushed).
Proof.
  intros rand heap model.
  assert (Hbuild : forall w, normalizeWhere w = JObj [] ->
            buildRemove heap rand model (RemoveOptions.mk w)
            = Ok {| query := "DELETE FROM " +:+ Model.name (heap model) +:+ " ";
                    bound := SqlBoundParams.empty |}).
  { intros w Hw. unfold buildRemove, run, RemoveQueryBuilder._buildRemove.
    cbn [RemoveOptions.where_]. rewrite Hw. reflexivity. }
  split; [reflexivity|]. split; [apply Hbuild; reflexivity|].
  split; [apply Hbuild; reflexivity|].
  intros log models flushed. unfold Database.remove.
  cbn [Database.heap]. rewrite Hbuild by reflexivity.
  reflexivity.
Qed.

(** [removeAll] is the operation that deletes without criteria: it runs the
    statement that [remove] with empty criteria ends up running, up to the
    trailing blank. *)
Lemma removeAll_statement (heap : Heap) (model : ModelRef) (log : RecordingConnection)
    (models : list ModelRef) (flushed : bool) :
  Database.removeAll (Database.mk (Some log) models heap flushed) model
  = (Ok tt,
     Database.mk (Some (log ++ [("DELETE FROM " +:+ Model.name (heap model), NoBindings)]))
       models heap flushed).
Proof. reflexivity. Qed.

(** ** Single-element [$in] and [$notin] (C4) *)

Lemma buildWhere_criterion (heap : Heap) (rand : nat -> N) (model : ModelRef)
    (field op : string) (arg : JsValue) (st : QueryBuilder.State) :
  startsWith field "$" = false ->
  QueryBuilder._buildWhere heap rand model (criterion field op arg) st
  = match WhereTree.context (QueryBuilder._globalWhere st) with
    | Logical =>
        match QueryBuilder._buildWhereNode heap rand model op arg
                (WhereTree.new Value And field) st with
        | Ok (node, st') =>
            QueryBuilder.set_globalWhere
              (WhereTree.append (QueryBuilder._globalWhere st) node) st'
        | Throw e => Throw e
        end
    | Value => Throw UnexpectedValueUnderField
    end.
Proof.
  intros Hfield.
  unfold QueryBuilder._buildWhere, criterion, QueryBuilder.bindM, QueryBuilder.lift.
  cbn [entries QueryBuilder.forEach fst snd QueryBuilder._buildWhereNode].
  rewrite Hfield.
  destruct (WhereTree.context (QueryBuilder._globalWhere st)); [|reflexivity].
  cbn [typeof_object loose_eq_null negb andb]. unfold QueryBuilder.bindM.
  destruct (QueryBuilder._buildWhereNode heap rand model op arg _ st) as [[node st']|e];
    reflexivity.
Qed.

Lemma in_single_is_eq (heap : Heap) (rand : nat -> N) (model : ModelRef)
    (field : string) (v : JsValue) :
  QueryBuilder._buildWhereNode heap rand model "$in" (JArr [v])
    (WhereTree.new Value And field)
  = QueryBuilder._buildWhereNode heap rand model "$eq" v (WhereTree.new Value And field).
Proof. destruct v; reflexivity. Qed.

Lemma notin_single_is_ne (heap : Heap) (rand : nat -> N) (model : ModelRef)
    (field : string) (v : JsValue) :
  QueryBuilder._buildWhereNode heap rand model "$notin" (JArr [v])
    (WhereTree.new Value And field)
  = QueryBuilder._buildWhereNode heap rand model "$ne" v (WhereTree.new Value And field).
Proof. destruct v; reflexivity. Qed.

Lemma buildWhere_single_in (heap : Heap) (rand : nat -> N) (model : ModelRef)
    (field : string) (v : JsValue) (st : QueryBuilder.State) :
  startsWith field "$" = false ->
  QueryBuilder._buildWhere heap rand model (criterion field "$in" (JArr [v])) st
  = QueryBuilder._buildWhere heap rand model (criterion field "$eq" v) st
  /\ QueryBuilder._buildWhere heap rand model (criterion field "$notin" (JArr [v])) st
     = QueryBuilder._buildWhere heap rand model (criterion field "$ne" v) st.
Proof.
  intros Hfield. rewrite !buildWhere_criterion by exact Hfield.
  rewrite (in_single_is_eq heap rand model field v).
  rewrite (notin_single_is_ne heap rand model field v).
  split; reflexivity.
Qed.

Lemma buildWhere_empty_list (heap : Heap) (rand : nat -> N) (model : ModelRef)
    (field op : string) (st : QueryBuilder.State) :
  startsWith field "$" = false ->
  op = "$in" \/ op = "$notin" ->
  WhereTree.context (QueryBuilder._globalWhere st) = Logical ->
  QueryBuilder._buildWhere heap rand model (criterion field op (JArr [])) st
  = Throw ListOfValuesExpected.
Proof.
  intros Hfield Hop Hctx. rewrite buildWhere_criterion by exact Hfield.
  rewrite Hctx. destruct Hop as [->| ->]; reflexivity.
Qed.

Lemma noCriteria_criterion (field op : string) (arg : JsValue) :
  RemoveQueryBuilder.noCriteria (criterion field op arg) = false.
Proof.
  unfold RemoveQueryBuilder.noCriteria, criterion. cbn.
  destruct (String.eqb field "length"); reflexivity.
Qed.

Lemma run_bind_congr {A B : Type} (m1 m2 : QueryBuilder.M A)
    (k1 k2 : A -> QueryBuilder.M B) :
  (forall st, m1 st = m2 st) ->
  (forall a st, k1 a st = k2 a st) ->
  run (QueryBuilder.bindM m1 k1) = run (QueryBuilder.bindM m2 k2).
Proof.
  intros Hm Hk. unfold run, QueryBuilder.bindM. rewrite Hm.
  destruct (m2 QueryBuilder.initial) as [[a st]|e]; [rewrite Hk|]; reflexivity.
Qed.

Lemma buildSelect_where (heap : Heap) (rand : nat -> N) (model : ModelRef)
    (w1 w2 : option JsValue) limit offset total sort joins :
  (forall st, QueryBuilder._buildWhere heap rand model (normalizeWhere w1) st
              = QueryBuilder._buildWhere heap rand model (normalizeWhere w2) st) ->
  buildSelect heap rand model (FindOptions.mk w1 limit offset total sort joins)
  = buildSelect heap rand model (FindOptions.mk w2 limit offset total sort joins).
Proof.
  intros H. unfold buildSelect, SelectQueryBuilder._buildSelect.
  apply run_bind_congr; [exact H|reflexivity].
Qed.

Lemma buildUpdate_where (heap : Heap) (rand : nat -> N) (model : ModelRef)
    (w1 w2 : option JsValue) set :
  (forall st, QueryBuilder._buildWhere heap rand model (normalizeWhere w1) st
              = QueryBuilder._buildWhere heap rand model (normalizeWhere w2) st) ->
  buildUpdate heap rand model (UpdateOptions.mk w1 set)
  = buildUpdate heap rand model (UpdateOptions.mk w2 set).
Proof.
  intros H. unfold buildUpdate, UpdateQueryBuilder._buildUpdate.
  apply run_bind_congr; [exact H|reflexivity].
Qed.

Lemma buildRemove_where (heap : Heap) (rand : nat -> N) (model : ModelRef)
    (w1 w2 : option JsValue) :
  RemoveQueryBuilder.noCriteria (normalizeWhere w1) = false ->
  RemoveQueryBuilder.noCriteria (normalizeWhere w2) = false ->
  (forall st, QueryBuilder._buildWhere heap rand model (normalizeWhere w1) st
              = QueryBuilder._buildWhere heap rand model (normalizeWhere w2) st) ->
  buildRemove heap rand model (RemoveOptions.mk w1)
  = buildRemove heap rand model (RemoveOptions.mk w2).
Proof.
  intros Hguard1 Hguard2 H. unfold buildRemove, RemoveQueryBuilder._buildRemove.
  cbn [RemoveOptions.where_]. rewrite Hguard1, Hguard2.
  apply run_bind_congr; [exact H|reflexivity].
Qed.

(** C4: for a field key and the same sequence of draws for the placeholder
    names, [{field: {$in: [v]}}] compiles to what [{field: {$eq: v}}] compiles
    to, and [{field: {$notin: [v]}}] to what [{field: {$ne: v}}] compiles to:
    the builder ends in the same state (same WHERE tree, joins, constraints
    and bound parameters, or the same exception), hence the select, update
    and remove statements are the same.  With an empty list the compilation
    fails. *)
Theorem C4_single_element_list_is_equality :
  forall (heap : Heap) (rand : nat -> N) (model : ModelRef) (field : string) (v : JsValue),
    startsWith field "$" = false ->
    (forall st,
        QueryBuilder._buildWhere heap rand model (criterion field "$in" (JArr [v])) st
        = QueryBuilder._buildWhere heap rand model (criterion field "$eq" v) st)
    /\ (forall st,
          QueryBuilder._buildWhere heap rand model (criterion field "$notin" (JArr [v])) st
          = QueryBuilder._buildWhere heap rand model (criterion field "$ne" v) st)
    /\ (forall limit offset total sort joins,
          buildSelect heap rand model
            (FindOptions.mk (Some (criterion field "$in" (JArr [v])))
               limit offset total sort joins)
          = buildSelect heap rand model
              (FindOptions.mk (Some (criterion field "$eq" v)) limit offset total sort joins)
          /\ buildSelect heap rand model
               (FindOptions.mk (Some (criterion field "$notin" (JArr [v])))
                  limit offset total sort joins)
             = buildSelect heap rand model
                 (FindOptions.mk (Some (criterion field "$ne" v))
                    limit offset total sort joins))
    /\ (forall set,
          buildUpdate heap rand model
            (UpdateOptions.mk (Some (criterion field "$in" (JArr [v]))) set)
          = buildUpdate heap rand model (UpdateOptions.mk (Some (criterion field "$eq" v)) set)
          /\ buildUpdate heap rand model
               (UpdateOptions.mk (Some (criterion field "$notin" (JArr [v]))) set)
             = buildUpdate heap rand model
                 (UpdateOptions.mk (Some (criterion field "$ne" v)) set))
    /\ (buildRemove heap rand model
          (RemoveOptions.mk (Some (criterion field "$in" (JArr [v]))))
        = buildRemove heap rand model (RemoveOptions.mk (Some (criterion field "$eq" v)))
        /\ buildRemove heap rand model
             (RemoveOptions.mk (Some (criterion field "$notin" (JArr [v]))))
           = buildRemove heap rand model (RemoveOptions.mk (Some (criterion field "$ne" v))))
    /\ (forall limit offset total sort joins,
          buildSelect heap rand model
            (FindOptions.mk (Some (criterion field "$in" (JArr [])))
               limit offset total sort joins)
          = Throw ListOfValuesExpected
          /\ buildSelect heap rand model
               (FindOptions.mk (Some (criterion field "$notin" (JArr [])))
                  limit offset total sort joins)
             = Throw ListOfValuesExpected).
Proof.
  intros heap rand model field v Hfield.
  pose proof (fun st => proj1 (buildWhere_single_in heap rand model field v st Hfield)) as Hin.
  pose proof (fun st => proj2 (buildWhere_single_in heap rand model field v st Hfield)) as Hnotin.
  split; [exact Hin|]. split; [exact Hnotin|].
  split; [|split; [|split; [|]]].
  - intros limit offset total sort joins.
    split; apply buildSelect_where; assumption.
  - intros set. split; apply buildUpdate_where; assumption.
  - split; apply buildRemove_where; try assumption; apply noCriteria_criterion.
  - intros limit offset total sort joins.
    unfold buildSelect, run, SelectQueryBuilder._buildSelect.
    split; unfold QueryBuilder.bindM at 1; cbn [FindOptions.where_];
      change (normalizeWhere (Some (criterion ?f ?o ?a))) with (criterion f o a);
      rewrite buildWhere_empty_list by (auto; reflexivity); reflexivity.
Qed.

Lemma C4_single_element_witness :
  buildSelect sampleHeap sampleRand 0
    (FindOptions.mk (Some (criterion "name" "$in" (JArr [JStr "a"]))) None None None None None)
  = buildSelect sampleHeap sampleRand 0
      (FindOptions.mk (Some (criterion "name" "$eq" (JStr "a"))) None None None None None).
Proof.
  apply (C4_single_element_list_is_equality sampleHeap sampleRand 0 "name" (JStr "a")).
  reflexivity.
Defined.

(** ** The count query (C2) *)

Lemma bindM_inv {A B : Type} (m : QueryBuilder.M A) (k : A -> QueryBuilder.M B)
    (st st'' : QueryBuilder.State) (b : B) :
  QueryBuilder.bindM m k st = Ok (b, st'') ->
  exists a st', m st = Ok (a, st') /\ k a st' = Ok (b, st'').
Proof.
  unfold QueryBuilder.bindM. destruct (m st) as [[a st']|e]; [|discriminate].
  intros H. exists a, st'. split; [reflexivity|exact H].
Qed.

Lemma keeps_ret {A : Type} (a : A) : keepsConstraints (QueryBuilder.ret a).
Proof. intros st a' st' H. injection H as _ <-. auto. Qed.

Lemma keeps_throw {A : Type} (e : Error) : keepsConstraints (@QueryBuilder.throw A e).
Proof. intros st a st' H. discriminate. Qed.

Lemma keeps_lift {A : Type} (r : Result A) : keepsConstraints (QueryBuilder.lift r).
Proof.
  intros st a st' H. unfold QueryBuilder.lift in H. destruct r; [|discriminate].
  injection H as _ <-. auto.
Qed.

Lemma keeps_get : keepsConstraints (fun st : QueryBuilder.State => Ok (st, st)).
Proof. intros st a st' H. injection H as _ <-. auto. Qed.

Lemma keeps_bind {A B : Type} (m : QueryBuilder.M A) (k : A -> QueryBuilder.M B) :
  keepsConstraints m -> (forall a, keepsConstraints (k a)) ->
  keepsConstraints (QueryBuilder.bindM m k).
Proof.
  intros Hm Hk st b st'' H c Hc.
  apply bindM_inv in H as (a & st' & H1 & H2).
  eapply Hk; [exact H2|]. eapply Hm; [exact H1|exact Hc].
Qed.

Lemma keeps_mapM {A B : Type} (f : A -> QueryBuilder.M B) (l : list A) :
  (forall x, keepsConstraints (f x)) -> keepsConstraints (QueryBuilder.mapM f l).
Proof.
  intros Hf. induction l as [|x l IH]; cbn [QueryBuilder.mapM].
  - apply keeps_ret.
  - apply keeps_bind; [apply Hf|]. intros y.
    apply keeps_bind; [exact IH|]. intros ys. apply keeps_ret.
Qed.

Lemma keeps_addJoin (jd : ParsedJoin.t) : keepsConstraints (QueryBuilder._addJoin jd).
Proof. intros st a st' H. injection H as _ <-. auto. Qed.

Lemma keeps_addExtraColumns (col : list string) :
  keepsConstraints (QueryBuilder._addExtraColumns col).
Proof. intros st a st' H. injection H as _ <-. auto. Qed.

Lemma keeps_addConstraint (constr : string) :
  keepsConstraints (QueryBuilder._addConstraint constr).
Proof.
  intros st a st' H c Hc. injection H as _ <-.
  unfold constraintsOf in *. cbn [QueryBuilder._constraints default].
  destruct (QueryBuilder._constraints st) as [cs|]; cbn in *; [|contradiction].
  apply List.in_or_app. left. exact Hc.
Qed.

Lemma addConstraint_last (constr : string) (st st' : QueryBuilder.State) (a : unit) :
  QueryBuilder._addConstraint constr st = Ok (a, st') -> In constr (constraintsOf st').
Proof.
  intros H. injection H as _ <-.
  unfold constraintsOf. cbn [QueryBuilder._constraints default].
  destruct (QueryBuilder._constraints st) as [cs|]; [|left; reflexivity].
  apply List.in_or_app. right. left. reflexivity.
Qed.

Ltac keeps :=
  repeat first
    [ apply keeps_ret | apply keeps_throw | apply keeps_lift | apply keeps_get
    | apply keeps_addConstraint | apply keeps_addJoin | apply keeps_addExtraColumns
    | apply keeps_bind; [|intros ?]
    | apply keeps_mapM; intros ?
    | match goal with
      | |- keepsConstraints (match ?x with _ => _ end) => destruct x
      end ].

Lemma keeps_buildSort (heap : Heap) (model : ModelRef) (options : FindOptions.t) :
  keepsConstraints (SelectQueryBuilder._buildSort heap model options).
Proof. unfold SelectQueryBuilder._buildSort. keeps. Qed.

Lemma keeps_buildJoins (heap : Heap) (model : ModelRef) (options : FindOptions.t) :
  keepsConstraints (SelectQueryBuilder._buildJoins heap model options).
Proof. unfold SelectQueryBuilder._buildJoins. keeps. Qed.

Lemma buildConstraints_offset (options : FindOptions.t) (o : Z)
    (st st' : QueryBuilder.State) (a : unit) :
  FindOptions.offset options = Some o ->
  SelectQueryBuilder._buildConstraints options st = Ok (a, st') ->
  In ("OFFSET " +:+ Z_to_string o) (constraintsOf st').
Proof.
  intros Ho H. unfold SelectQueryBuilder._buildConstraints in H. rewrite Ho in H.
  apply bindM_inv in H as (u & st1 & _ & H2).
  eapply addConstraint_last. exact H2.
Qed.

Lemma offset_is_not_limit (o : Z) :
  negb (startsWith ("OFFSET " +:+ Z_to_string o) "LIMIT") = true.
Proof. reflexivity. Qed.

(** C2 does not hold of the code.  The count query does repeat the joins and
    the WHERE clause of the select query and drops every constraint that
    starts with [LIMIT], but the filter of [_buildSelect] tests for [LIMIT]
    only: whenever an offset is given, [OFFSET <n>] is among the constraints
    of the count query. *)
Theorem C2_count_query_keeps_offset :
  forall (heap : Heap) (rand : nat -> N) (model : ModelRef) (w : option JsValue)
         (limit : option Z) (o : Z) (sort : option (list SortEntry))
         (joins : option (list JoinOption.t)) (q : BuiltSelectQuery),
    buildSelect heap rand model (FindOptions.mk w limit (Some o) (Some true) sort joins)
    = Ok q ->
    exists (st : QueryBuilder.State) (columns : string),
      selectQuery q
      = "SELECT " +:+ columns +:+ " FROM " +:+ Model.name (heap model) +:+ " "
        +:+ SelectQueryBuilder.joinsText st +:+ " " +:+ QueryBuilder._makeWhere st +:+ " "
        +:+ join " " (constraintsOf st)
      /\ countQuery q
         = Some ("SELECT COUNT(*) FROM " +:+ Model.name (heap model) +:+ " "
                 +:+ SelectQueryBuilder.joinsText st +:+ " " +:+ QueryBuilder._makeWhere st
                 +:+ " "
                 +:+ join " " (List.filter (fun c => negb (startsWith c "LIMIT"))
                                 (constraintsOf st)))
      /\ Forall (fun c => startsWith c "LIMIT" = false)
           (List.filter (fun c => negb (startsWith c "LIMIT")) (constraintsOf st))
      /\ In ("OFFSET " +:+ Z_to_string o)
           (List.filter (fun c => negb (startsWith c "LIMIT")) (constraintsOf st)).
Proof.
  intros heap rand model w limit o sort joins q Hq.
  unfold buildSelect, run in Hq.
  destruct (SelectQueryBuilder._buildSelect _ _ _ _ _) as [[q' stf]|e] eqn:Hrun;
    [|discriminate].
  injection Hq as ->.
  unfold SelectQueryBuilder._buildSelect in Hrun.
  apply bindM_inv in Hrun as (u1 & st1 & _ & Hrun).
  apply bindM_inv in Hrun as (u2 & st2 & Hcons & Hrun).
  apply bindM_inv in Hrun as (u3 & st3 & Hsort & Hrun).
  apply bindM_inv in Hrun as (u4 & st4 & Hjoins & Hrun).
  apply bindM_inv in Hrun as (st & st5 & Hget & Hrun).
  injection Hget as <- <-.
  cbn [FindOptions.fetchTotalCount is_true_flag] in Hrun.
  injection Hrun as <- _.
  assert (Hoffset : In ("OFFSET " +:+ Z_to_string o) (constraintsOf st4)).
  { eapply keeps_buildJoins; [exact Hjoins|].
    eapply keeps_buildSort; [exact Hsort|].
    eapply buildConstraints_offset; [|exact Hcons]. reflexivity. }
  exists st4. eexists.
  cbn [selectQuery countQuery].
  split; [|split; [|split]].
  - unfold constraintsOf. destruct (QueryBuilder._constraints st4); reflexivity.
  - unfold SelectQueryBuilder.countConstraints, constraintsOf.
    destruct (QueryBuilder._constraints st4); reflexivity.
  - apply List.Forall_forall. intros c Hc. apply List.filter_In in Hc as [_ Hc].
    apply negb_true_iff. exact Hc.
  - apply List.filter_In. split; [exact Hoffset|apply offset_is_not_limit].
Qed.

Lemma C2_count_query_witness :
  match buildSelect sampleHeap sampleRand 0
          (FindOptions.mk None (Some 5%Z) (Some 2%Z) (Some true) None None) with
  | Ok q => countQuery q = Some "SELECT COUNT(*) FROM foo   OFFSET 2"
  | Throw _ => False
  end
  /\ exists st,
       In ("OFFSET " +:+ Z_to_string 2)
         (List.filter (fun c => negb (startsWith c "LIMIT")) (constraintsOf st)).
Proof.
  split; [reflexivity|].
  destruct (buildSelect sampleHeap sampleRand 0
              (FindOptions.mk None (Some 5%Z) (Some 2%Z) (Some true) None None))
    as [q|e] eqn:Hq; [|vm_compute in Hq; discriminate].
  destruct (C2_count_query_keeps_offset sampleHeap sampleRand 0 None (Some 5%Z) 2%Z
              None None q Hq) as (st & columns & _ & _ & _ & Hin).
  exists st. exact Hin.
Defined.

(** ** Placeholder names (C3) *)

Lemma N_to_string_inj (a b : N) : N_to_string a = N_to_string b -> a = b.
Proof.
  unfold N_to_string. intros H.
  assert (Hnil : forall n : N, N.to_uint n <> Decimal.Nil).
  { intros [|p]; [discriminate|apply DecimalPos.Unsigned.to_uint_nonnil]. }
  apply DecimalN.Unsigned.to_uint_inj.
  apply (f_equal NilZero.uint_of_string) in H.
  rewrite !NilZero.usu in H by apply Hnil. injection H as H. exact H.
Qed.

Lemma uniqueName_inj (a b : N) :
  SqlBoundParams.uniqueName a = SqlBoundParams.uniqueName b -> a = b.
Proof.
  unfold SqlBoundParams.uniqueName. intros H. apply N_to_string_inj.
  cbn in H. injection H as H. exact H.
Qed.

Lemma uniqueName_in_range (r : N) :
  (r < 100000)%N -> SqlBoundParams.uniqueName r ∈ placeholderNames.
Proof.
  intros Hr. unfold placeholderNames. apply list_elem_of_In, List.in_map_iff.
  exists (N.to_nat r). split; [rewrite N2Nat.id; reflexivity|].
  apply List.in_seq. lia.
Qed.

Lemma size_list_to_set_le (l : list string) :
  size (list_to_set l : gset string) <= List.length l.
Proof.
  induction l as [|x l IH]; cbn [list_to_set List.length].
  - rewrite size_empty. lia.
  - rewrite size_union_alt, size_singleton.
    assert (Hsub : size ((list_to_set l : gset string) ∖ {[x]})
                   <= size (list_to_set l : gset string)).
    { apply subseteq_size. apply subseteq_difference_l. reflexivity. }
    lia.
Qed.

Lemma bindAll_dom (names : gset string) (values : list JsValue) :
  forall (draws : list N) (acc : gmap string JsValue),
    Forall (fun r => SqlBoundParams.uniqueName r ∈ names) draws ->
    dom (applyBoundOps (bindAll values draws) acc) ⊆ dom acc ∪ names.
Proof.
  induction values as [|v values IH]; intros draws acc Hdraws.
  - cbn. apply union_subseteq_l.
  - destruct draws as [|r draws]; [cbn; apply union_subseteq_l|].
    apply Forall_cons in Hdraws as [Hr Hdraws].
    unfold applyBoundOps, bindAll in *. cbn [zip_with fold_left applyBoundOp].
    etransitivity; [apply IH; exact Hdraws|].
    unfold SqlBoundParams.bind. cbn [snd]. rewrite dom_insert_L.
    apply union_least; [apply union_least|apply union_subseteq_r].
    + apply singleton_subseteq_l, elem_of_union_r. exact Hr.
    + apply union_subseteq_l.
Qed.

Lemma count_bounded_by_names (names : list string) (values : list JsValue)
    (draws : list N) :
  Forall (fun r => SqlBoundParams.uniqueName r ∈ names) draws ->
  SqlBoundParams.count (applyBoundOps (bindAll values draws) SqlBoundParams.empty)
  <= List.length names.
Proof.
  intros Hdraws. unfold SqlBoundParams.count.
  rewrite <- (size_dom (D := gset string)).
  etransitivity; [|apply size_list_to_set_le].
  apply subseteq_size.
  etransitivity.
  - apply (bindAll_dom (list_to_set names) values draws SqlBoundParams.empty).
    eapply Forall_impl; [exact Hdraws|].
    intros r Hr. apply elem_of_list_to_set. exact Hr.
  - unfold SqlBoundParams.empty. rewrite dom_empty_L. apply union_least.
    + apply empty_subseteq.
    + reflexivity.
Qed.

Lemma placeholderNames_length : List.length placeholderNames = N.to_nat 100000.
Proof. unfold placeholderNames. rewrite List.length_map, List.length_seq. reflexivity. Qed.

(** Whatever the draws, one object never holds more than 100000 bindings:
    binding more values than that loses some of them. *)
Lemma bindAll_count_bound (values : list JsValue) (draws : list N) :
  Forall (fun r => (r < 100000)%N) draws ->
  SqlBoundParams.count (applyBoundOps (bindAll values draws) SqlBoundParams.empty)
  <= N.to_nat 100000.
Proof.
  intros Hdraws. rewrite <- placeholderNames_length.
  apply count_bounded_by_names.
  eapply Forall_impl; [exact Hdraws|].
  intros r Hr. apply uniqueName_in_range. exact Hr.
Qed.

Lemma bindAll_lookup_other (values : list JsValue) :
  forall (draws : list N) (acc : gmap string JsValue) (r : N),
    r ∉ draws ->
    applyBoundOps (bindAll values draws) acc !! SqlBoundParams.uniqueName r
    = acc !! SqlBoundParams.uniqueName r.
Proof.
  induction values as [|v values IH]; intros draws acc r Hr; [reflexivity|].
  destruct draws as [|r' draws]; [reflexivity|].
  apply not_elem_of_cons in Hr as [Hne Hr].
  unfold applyBoundOps, bindAll in *. cbn [zip_with fold_left applyBoundOp].
  rewrite IH by exact Hr. unfold SqlBoundParams.bind. cbn [snd].
  apply lookup_insert_ne. intros Heq. apply uniqueName_inj in Heq. congruence.
Qed.

Lemma bindAll_lookup (values : list JsValue) :
  forall (draws : list N) (acc : gmap string JsValue) (i : nat) (v : JsValue) (r : N),
    NoDup draws ->
    values !! i = Some v ->
    draws !! i = Some r ->
    applyBoundOps (bindAll values draws) acc !! SqlBoundParams.uniqueName r = Some v.
Proof.
  induction values as [|v0 values IH]; intros draws acc i v r Hnodup Hv Hr;
    [discriminate|].
  destruct draws as [|r0 draws]; [discriminate|].
  apply NoDup_cons in Hnodup as [Hr0 Hnodup].
  unfold applyBoundOps, bindAll in *. cbn [zip_with fold_left applyBoundOp].
  destruct i as [|i].
  - injection Hv as ->. injection Hr as ->.
    pose proof (bindAll_lookup_other values draws
                  (snd (SqlBoundParams.bind v r acc)) r Hr0) as Hother.
    unfold applyBoundOps, bindAll in Hother. rewrite Hother.
    unfold SqlBoundParams.bind. cbn [snd]. apply lookup_insert_eq.
  - eapply IH; [exact Hnodup|exact Hv|exact Hr].
Qed.

(** C3, as stated, fails.  [uniqueName] draws the placeholder name at random
    and nothing checks whether the name is taken: two [bind] calls that draw
    the same number return the same placeholder and leave one entry, holding
    the second value; [merge] overwrites in the same way. *)
Lemma C3_equal_draws_lose_a_binding :
  let twice := applyBoundOps (bindAll [JStr "first"; JStr "second"] [7; 7]%N)
                 SqlBoundParams.empty in
  let merged := applyBoundOps [OpBind (JStr "first") 7%N;
                               OpMerge (snd (SqlBoundParams.bind (JStr "second") 7%N
                                               SqlBoundParams.empty))]
                  SqlBoundParams.empty in
  fst (SqlBoundParams.bind (JStr "first") 7%N SqlBoundParams.empty)
  = fst (SqlBoundParams.bind (JStr "second") 7%N
           (snd (SqlBoundParams.bind (JStr "first") 7%N SqlBoundParams.empty)))
  /\ SqlBoundParams.count twice = 1
  /\ twice = {[ "uniq_7" := JStr "second" ]}
  /\ SqlBoundParams.count merged = 1
  /\ merged = {[ "uniq_7" := JStr "second" ]}.
Proof. cbv zeta. repeat split; vm_compute; reflexivity. Qed.

(** An operation adds what it writes on top of what was bound. *)
Lemma applyBoundOp_union (this : SqlBoundParams.t) (op : BoundOp) :
  applyBoundOp this op = written op ∪ this.
Proof.
  destruct op as [value r|another]; cbn [applyBoundOp written].
  - unfold SqlBoundParams.bind. cbn [snd]. apply insert_union_singleton_l.
  - reflexivity.
Qed.

Lemma applyBoundOp_lookup (this : SqlBoundParams.t) (op : BoundOp) (name : string) :
  applyBoundOp this op !! name
  = match written op !! name with
    | Some value => Some value
    | None => this !! name
    end.
Proof.
  rewrite applyBoundOp_union.
  destruct (written op !! name) as [value|] eqn:Hw.
  - apply lookup_union_Some_l. exact Hw.
  - apply lookup_union_r. exact Hw.
Qed.

Lemma applyBoundOps_unwritten (ops : list BoundOp) (name : string) :
  (forall op, In op ops -> written op !! name = None) ->
  forall this, applyBoundOps ops this !! name = this !! name.
Proof.
  induction ops as [|op rest IH]; intros Hnone this; [reflexivity|].
  unfold applyBoundOps in *. cbn [fold_left].
  rewrite IH by (intros op' Hin; apply Hnone; right; exact Hin).
  rewrite applyBoundOp_lookup, (Hnone op) by (left; reflexivity). reflexivity.
Qed.

Lemma applyBoundOps_app (before after : list BoundOp) (this : SqlBoundParams.t) :
  applyBoundOps (before ++ after) this = applyBoundOps after (applyBoundOps before this).
Proof. unfold applyBoundOps. apply fold_left_app. Qed.

Lemma applyBoundOps_last_written (before after : list BoundOp) (op : BoundOp)
    (this : SqlBoundParams.t) (name : string) (value : JsValue) :
  written op !! name = Some value ->
  (forall later, In later after -> written later !! name = None) ->
  applyBoundOps (before ++ op :: after) this !! name = Some value.
Proof.
  intros Hop Hafter. rewrite applyBoundOps_app.
  change (applyBoundOps (op :: after) (applyBoundOps before this))
    with (applyBoundOps after (applyBoundOp (applyBoundOps before this) op)).
  rewrite (applyBoundOps_unwritten after name Hafter), applyBoundOp_lookup, Hop.
  reflexivity.
Qed.

Lemma count_union (a b : SqlBoundParams.t) :
  SqlBoundParams.count (a ∪ b) <= SqlBoundParams.count a + SqlBoundParams.count b
  /\ (SqlBoundParams.count (a ∪ b) = SqlBoundParams.count a + SqlBoundParams.count b
      <-> a ##ₘ b).
Proof.
  unfold SqlBoundParams.count.
  rewrite <- !(size_dom (D := gset string)), dom_union_L, size_union_alt.
  assert (Hsub : dom b ∖ dom a ⊆ dom b) by (apply subseteq_difference_l; reflexivity).
  pose proof (subseteq_size _ _ Hsub) as Hle.
  split; [lia|]. rewrite map_disjoint_dom. split.
  - intros Heq name Ha Hb.
    assert (Hstrict : dom b ∖ dom a ⊂ dom b).
    { split; [exact Hsub|]. intros Hback. specialize (Hback name Hb).
      apply elem_of_difference in Hback as [_ Hout]. contradiction. }
    apply subset_size in Hstrict. lia.
  - intros Hdisj.
    assert (Hsame : dom b ∖ dom a = dom b).
    { apply set_eq. intros name. rewrite elem_of_difference. split; [intros [Hb _]; exact Hb|].
      intros Hb. split; [exact Hb|]. intros Ha. exact (Hdisj name Ha Hb). }
    rewrite Hsame. reflexivity.
Qed.

Lemma applyBoundOps_count (ops : list BoundOp) :
  forall this,
    SqlBoundParams.count (applyBoundOps ops this)
    <= SqlBoundParams.count this + writtenCount ops
    /\ (SqlBoundParams.count (applyBoundOps ops this)
        = SqlBoundParams.count this + writtenCount ops
        <-> freshNames ops this).
Proof.
  induction ops as [|op rest IH]; intros this.
  - unfold applyBoundOps, writtenCount.
    cbn [fold_left sum_list_with freshNames]. split; [lia|].
    split; [auto|lia].
  - change (applyBoundOps (op :: rest) this)
      with (applyBoundOps rest (applyBoundOp this op)).
    destruct (IH (applyBoundOp this op)) as [Hle Hiff].
    destruct (count_union (written op) this) as [Hstep Hstepiff].
    rewrite <- applyBoundOp_union in Hstep, Hstepiff.
    unfold writtenCount in *. cbn [sum_list_with freshNames].
    split; [lia|]. rewrite <- Hiff, <- Hstepiff. lia.
Qed.

Lemma freshNames_keeps (ops : list BoundOp) (name : string) (value : JsValue) :
  forall this,
    freshNames ops this ->
    this !! name = Some value ->
    applyBoundOps ops this !! name = Some value.
Proof.
  induction ops as [|op rest IH]; intros this Hfresh Hthis; [exact Hthis|].
  destruct Hfresh as [Hdisj Hfresh].
  change (applyBoundOps (op :: rest) this)
    with (applyBoundOps rest (applyBoundOp this op)).
  apply IH; [exact Hfresh|].
  rewrite applyBoundOp_lookup, (map_disjoint_Some_r _ _ _ _ Hdisj Hthis). exact Hthis.
Qed.

Lemma freshNames_app (before after : list BoundOp) :
  forall this,
    freshNames (before ++ after) this ->
    freshNames after (applyBoundOps before this).
Proof.
  induction before as [|op rest IH]; intros this Hfresh; [exact Hfresh|].
  destruct Hfresh as [_ Hfresh]. apply IH in Hfresh. exact Hfresh.
Qed.

Lemma freshNames_written (ops : list BoundOp) (this : SqlBoundParams.t) (op : BoundOp)
    (name : string) (value : JsValue) :
  freshNames ops this ->
  In op ops ->
  written op !! name = Some value ->
  applyBoundOps ops this !! name = Some value.
Proof.
  intros Hfresh Hin Hop. apply in_split in Hin as (before & after & ->).
  apply freshNames_app in Hfresh. destruct Hfresh as [_ Hfresh].
  rewrite applyBoundOps_app.
  change (applyBoundOps (op :: after) (applyBoundOps before this))
    with (applyBoundOps after (applyBoundOp (applyBoundOps before this) op)).
  apply freshNames_keeps; [exact Hfresh|].
  rewrite applyBoundOp_lookup, Hop. reflexivity.
Qed.

Lemma freshNames_bindAll (values : list JsValue) :
  forall (draws : list N) (this : SqlBoundParams.t),
    List.length draws = List.length values ->
    freshNames (bindAll values draws) this
    <-> NoDup draws /\ forall r, In r draws -> this !! SqlBoundParams.uniqueName r = None.
Proof.
  induction values as [|v values IH]; intros draws this Hlen.
  - destruct draws; [|discriminate]. cbn. split; [|auto].
    intros _. split; [constructor|intros r []].
  - destruct draws as [|r draws]; [discriminate|].
    injection Hlen as Hlen. unfold bindAll in *. cbn [zip_with freshNames written].
    rewrite map_disjoint_singleton_l, (IH draws _ Hlen), NoDup_cons.
    cbn [applyBoundOp]. unfold SqlBoundParams.bind. cbn [snd]. split.
    + intros (Hr & Hnodup & Hrest). split; [split; [|exact Hnodup]|].
      * intros Hin. apply list_elem_of_In in Hin. specialize (Hrest r Hin).
        rewrite lookup_insert_eq in Hrest. discriminate.
      * intros r' [<-|Hin]; [exact Hr|]. specialize (Hrest r' Hin).
        apply lookup_insert_None in Hrest. apply Hrest.
    + intros ([Hr Hnodup] & Hall). split; [apply Hall; left; reflexivity|].
      split; [exact Hnodup|]. intros r' Hin. apply lookup_insert_None. split.
      * apply Hall. right. exact Hin.
      * intros Heq. apply uniqueName_inj in Heq. subst r'.
        apply Hr, list_elem_of_In. exact Hin.
Qed.

Lemma writtenCount_bindAll (values : list JsValue) :
  forall draws, List.length draws = List.length values ->
                writtenCount (bindAll values draws) = List.length values.
Proof.
  induction values as [|v values IH]; intros draws Hlen.
  - destruct draws; [reflexivity|discriminate].
  - destruct draws as [|r draws]; [discriminate|]. injection Hlen as Hlen.
    unfold writtenCount, bindAll in *.
    cbn [zip_with sum_list_with written List.length].
    rewrite (IH draws Hlen). unfold SqlBoundParams.count. rewrite map_size_singleton.
    reflexivity.
Qed.

(** C3, amended: after any sequence of [bind] and [merge] operations a name
    holds the value written under it last, and a name no operation wrote
    holds what it held before.  The count never exceeds the count before
    plus the number of entries written, and equals it exactly when no
    operation wrote a name that was bound when it ran; every value bound
    before or written is then retained under its name.  For n values bound
    into the empty object: the count is n exactly when the draws are
    pairwise distinct, and each value is then found under its own
    placeholder.  Two [bind] calls return the same placeholder exactly when
    they drew the same number. *)
Theorem C3_distinct_draws_retain_every_binding :
  forall (ops : list BoundOp) (this : SqlBoundParams.t),
    let result := applyBoundOps ops this in
    (forall before op after name value,
        ops = before ++ op :: after ->
        written op !! name = Some value ->
        (forall later, In later after -> written later !! name = None) ->
        result !! name = Some value)
    /\ (forall name,
          (forall op, In op ops -> written op !! name = None) ->
          result !! name = this !! name)
    /\ SqlBoundParams.count result <= SqlBoundParams.count this + writtenCount ops
    /\ (SqlBoundParams.count result = SqlBoundParams.count this + writtenCount ops
        <-> freshNames ops this)
    /\ (freshNames ops this ->
        (forall name value, this !! name = Some value -> result !! name = Some value)
        /\ (forall op name value,
              In op ops -> written op !! name = Some value ->
              result !! name = Some value))
    /\ (forall (values : list JsValue) (draws : list N),
          List.length draws = List.length values ->
          ops = bindAll values draws ->
          this = SqlBoundParams.empty ->
          (SqlBoundParams.count result = List.length values <-> NoDup draws)
          /\ (NoDup draws ->
              forall i value r,
                values !! i = Some value -> draws !! i = Some r ->
                result !! SqlBoundParams.uniqueName r = Some value))
    /\ (forall value value' r r' acc acc',
          fst (SqlBoundParams.bind value r acc) = fst (SqlBoundParams.bind value' r' acc')
          <-> r = r').
Proof.
  intros ops this result. unfold result.
  destruct (applyBoundOps_count ops this) as [Hle Hiff].
  split; [|split; [|split; [|split; [|split; [|split]]]]].
  - intros before op after name value -> Hop Hafter.
    apply applyBoundOps_last_written; assumption.
  - intros name Hnone. apply applyBoundOps_unwritten. exact Hnone.
  - exact Hle.
  - exact Hiff.
  - intros Hfresh. split.
    + intros name value. apply freshNames_keeps. exact Hfresh.
    + intros op name value. apply freshNames_written. exact Hfresh.
  - intros values draws Hlen -> ->.
    pose proof (freshNames_bindAll values draws SqlBoundParams.empty Hlen) as Hdraws.
    rewrite (writtenCount_bindAll values draws Hlen) in Hiff.
    change (SqlBoundParams.count SqlBoundParams.empty + List.length values)
      with (List.length values) in Hiff.
    split.
    + rewrite Hiff, Hdraws. split; [intros [Hnodup _]; exact Hnodup|].
      intros Hnodup. split; [exact Hnodup|]. intros r _. apply lookup_empty.
    + intros Hnodup i value r Hv Hr.
      eapply bindAll_lookup; [exact Hnodup|exact Hv|exact Hr].
  - intros value value' r r' acc acc'. unfold SqlBoundParams.bind. cbn [fst]. split.
    + intros Heq. injection Heq as Heq. apply N_to_string_inj. exact Heq.
    + intros ->. reflexivity.
Qed.

Lemma C3_distinct_draws_witness :
  SqlBoundParams.count
    (applyBoundOps (bindAll [JStr "first"; JStr "second"] [7; 8]%N) SqlBoundParams.empty)
  = 2.
Proof.
  assert (Hdistinct : NoDup [7; 8]%N).
  { apply NoDup_cons. split; [|apply NoDup_singleton].
    intros Hin. apply list_elem_of_singleton in Hin. discriminate. }
  destruct (C3_distinct_draws_retain_every_binding
              (bindAll [JStr "first"; JStr "second"] [7; 8]%N) SqlBoundParams.empty)
    as (_ & _ & _ & _ & _ & Hbind & _).
  destruct (Hbind [JStr "first"; JStr "second"] [7; 8]%N eq_refl eq_refl eq_refl)
    as [Hcount _].
  exact (proj2 Hcount Hdistinct).
Defined.

(** * Further properties *)

(** ** The field table *)

Lemma assoc_None_not_key {A : Type} (key : string) (l : list (string * A)) :
  assoc key l = None <-> ~ In key (map fst l).
Proof.
  induction l as [|[k a] l IH]; cbn [assoc map fst In].
  - tauto.
  - destruct (String.eqb_spec k key) as [->|Hne].
    + split; [discriminate|]. intros H. exfalso. apply H. left. reflexivity.
    + rewrite IH. tauto.
Qed.

Lemma assoc_app {A : Type} (key : string) (l1 l2 : list (string * A)) :
  assoc key (l1 ++ l2) = match assoc key l1 with
                         | Some a => Some a
                         | None => assoc key l2
                         end.
Proof.
  induction l1 as [|[k a] l1 IH]; cbn [assoc app]; [reflexivity|].
  destruct (String.eqb k key); [reflexivity|exact IH].
Qed.

Lemma object_get_absent {A : Type} (obj : list (string * A)) (key : string) :
  object_get obj key = Absent ->
  assoc key obj = None /\ existsb (String.eqb key) object_prototype_keys = false.
Proof.
  unfold object_get. destruct (assoc key obj); [discriminate|].
  destruct (existsb _ _); [discriminate|]. auto.
Qed.

Lemma addField_ok_inv (m m' : Model.t) (name : string) (fs : FieldSpec) :
  Model.addField m name fs = Ok m' ->
  isValidName name = true
  /\ object_get (Model._spec m) name = Absent
  /\ m' = Model.mk (Model.name m)
            (Model._spec m ++ [(name, FieldSpecWrapper.mk name fs)])
            (Model._constraints m) (Model._options m) (Model._relationFields m).
Proof.
  unfold Model.addField. destruct (isValidName name); cbn [negb]; [|discriminate].
  destruct (object_get (Model._spec m) name); try discriminate.
  intros H. injection H as <-. auto.
Qed.

Lemma replace_spec_keys (name : string) (upd : FieldSpec)
    (l : list (string * FieldSpecWrapper.t)) :
  map fst (Model.replace_spec name upd l) = map fst l.
Proof.
  induction l as [|[k w] l IH]; cbn [Model.replace_spec map fst]; [reflexivity|].
  destruct (String.eqb k name); cbn [map fst]; [reflexivity|]. rewrite IH. reflexivity.
Qed.

Lemma replace_spec_assoc (name : string) (upd : FieldSpec)
    (l : list (string * FieldSpecWrapper.t)) (key : string) :
  assoc key (Model.replace_spec name upd l)
  = if String.eqb name key
    then match assoc key l with
         | Some w => Some (FieldSpecWrapper.mk (FieldSpecWrapper.fieldName w)
                             (mergeFieldSpec (FieldSpecWrapper.fieldSpec w) upd))
         | None => None
         end
    else assoc key l.
Proof.
  induction l as [|[k w] l IH]; cbn [Model.replace_spec assoc].
  - destruct (String.eqb name key); reflexivity.
  - destruct (String.eqb_spec k name) as [->|Hk]; cbn [assoc].
    + destruct (String.eqb_spec name key) as [->|Hn]; reflexivity.
    + destruct (String.eqb_spec k key) as [->|Hkey].
      * destruct (String.eqb_spec name key) as [->|Hn]; [contradiction|reflexivity].
      * exact IH.
Qed.

Lemma replace_spec_wellFormed (name : string) (upd : FieldSpec)
    (l : list (string * FieldSpecWrapper.t)) :
  Forall (fun kv =>
            isValidName (fst kv) = true
            /\ FieldSpecWrapper.fieldName (snd kv) = fst kv
            /\ existsb (String.eqb (fst kv)) object_prototype_keys = false) l ->
  Forall (fun kv =>
            isValidName (fst kv) = true
            /\ FieldSpecWrapper.fieldName (snd kv) = fst kv
            /\ existsb (String.eqb (fst kv)) object_prototype_keys = false)
    (Model.replace_spec name upd l).
Proof.
  induction 1 as [|[k w] l Hkw Hl IH]; cbn [Model.replace_spec]; [constructor|].
  destruct (String.eqb k name); constructor; try assumption.
Qed.

Lemma addField_wellFormed (m m' : Model.t) (name : string) (fs : FieldSpec) :
  fieldsWellFormed m -> Model.addField m name fs = Ok m' -> fieldsWellFormed m'.
Proof.
  intros [Hnodup Hall] Hadd.
  apply addField_ok_inv in Hadd as (Hvalid & Habsent & ->).
  apply object_get_absent in Habsent as [Hnone Hproto].
  apply assoc_None_not_key in Hnone.
  unfold fieldsWellFormed. cbn [Model._spec]. split.
  - rewrite map_app. cbn [map fst]. apply NoDup_ListNoDup.
    apply List.NoDup_app; [apply NoDup_ListNoDup; exact Hnodup| |].
    + constructor; [intros []|constructor].
    + intros x Hx [<-|[]]. contradiction.
  - apply Forall_app. split; [exact Hall|]. constructor; [|constructor].
    cbn [fst snd FieldSpecWrapper.fieldName]. auto.
Qed.

Lemma updateField_wellFormed (m m' : Model.t) (name : string) (fs : FieldSpec) :
  fieldsWellFormed m -> Model.updateField m name fs = Ok m' -> fieldsWellFormed m'.
Proof.
  intros Hwf. unfold Model.updateField.
  destruct (object_get (Model._spec m) name) as [w| |] eqn:Hget.
  - intros H. injection H as <-. destruct Hwf as [Hnodup Hall].
    unfold fieldsWellFormed. cbn [Model._spec]. rewrite replace_spec_keys.
    split; [exact Hnodup|]. apply replace_spec_wellFormed. exact Hall.
  - destruct (hasNoKeys fs); [|discriminate]. intros H. injection H as <-. exact Hwf.
  - apply addField_wellFormed. exact Hwf.
Qed.

Lemma addFields_wellFormed (spec : list (string * FieldSpec)) :
  forall m m', fieldsWellFormed m -> Model.addFields m spec = Ok m' -> fieldsWellFormed m'.
Proof.
  induction spec as [|[k fs] spec IH]; intros m m' Hwf; cbn [Model.addFields].
  - intros H. injection H as <-. exact Hwf.
  - destruct (Model.addField m k fs) as [m1|e] eqn:Hadd; [|discriminate].
    apply IH. eapply addField_wellFormed; eassumption.
Qed.

Lemma new_wellFormed (name : string) (spec : list (string * FieldSpec))
    (options : ModelOptions) (m : Model.t) :
  Model.new name spec options = Ok m -> fieldsWellFormed m.
Proof.
  unfold Model.new.
  destruct (Model.addFields _ spec) as [m1|e] eqn:H1; [|discriminate].
  assert (Hwf1 : fieldsWellFormed m1).
  { eapply addFields_wellFormed; [|exact H1]. split; cbn; constructor. }
  destruct (createTimestamp options).
  - destruct (Model.addField m1 "createdAt" _) as [m2|e] eqn:H2; [|discriminate].
    assert (Hwf2 : fieldsWellFormed m2) by (eapply addField_wellFormed; eassumption).
    destruct (updateTimestamp options).
    + intros H3. eapply addField_wellFormed; eassumption.
    + intros H. injection H as <-. exact Hwf2.
  - destruct (updateTimestamp options).
    + intros H3. eapply addField_wellFormed; eassumption.
    + intros H. injection H as <-. exact Hwf1.
Qed.

(** X1: the field table invariant.  A model that comes out of the
    constructor has pairwise distinct, valid field names, none of them
    shadowing a member of [Object.prototype], each wrapper carrying its own
    key; [addField] and [updateField] keep it so. *)
Theorem X1_field_table_invariant :
  (forall name spec options m,
      Model.new name spec options = Ok m -> fieldsWellFormed m)
  /\ (forall m m' name fs,
        fieldsWellFormed m -> Model.addField m name fs = Ok m' -> fieldsWellFormed m')
  /\ (forall m m' name fs,
        fieldsWellFormed m -> Model.updateField m name fs = Ok m' -> fieldsWellFormed m').
Proof.
  split; [exact new_wellFormed|].
  split; [exact addField_wellFormed|exact updateField_wellFormed].
Qed.

Lemma X1_field_table_witness :
  fieldsWellFormed fooModel
  /\ forall m', Model.addField fooModel "extra" textField = Ok m' -> fieldsWellFormed m'.
Proof.
  assert (Hfoo : fieldsWellFormed fooModel).
  { apply (proj1 X1_field_table_invariant "foo"
             [("id", integerKey); ("name", textField)] noOptions).
    reflexivity. }
  split; [exact Hfoo|].
  intros m' Hadd.
  exact (proj1 (proj2 X1_field_table_invariant) fooModel m' "extra" textField Hfoo Hadd).
Defined.

(** X2: insert and lookup.  After a successful [addField] the new field is
    found under its name with the given specification, every other lookup
    answers as before, and the field comes last in definition order. *)
Theorem X2_addField_lookup :
  forall (m m' : Model.t) (name : string) (fs : FieldSpec),
    Model.addField m name fs = Ok m' ->
    Model.getFieldWrapper m' name = Own (FieldSpecWrapper.mk name fs)
    /\ Model.getFieldSpec m' name = Some fs
    /\ (forall other, other <> name ->
          Model.getFieldWrapper m' other = Model.getFieldWrapper m other)
    /\ map FieldSpecWrapper.fieldName (Model.fields m')
       = map FieldSpecWrapper.fieldName (Model.fields m) ++ [name].
Proof.
  intros m m' name fs Hadd.
  apply addField_ok_inv in Hadd as (Hvalid & Habsent & ->).
  apply object_get_absent in Habsent as [Hnone Hproto].
  assert (Hget : object_get (Model._spec m ++ [(name, FieldSpecWrapper.mk name fs)]) name
                 = Own (FieldSpecWrapper.mk name fs)).
  { unfold object_get. rewrite assoc_app, Hnone. cbn [assoc].
    rewrite String.eqb_refl. reflexivity. }
  split; [exact Hget|]. split.
  - unfold Model.getFieldSpec. cbn [Model._spec]. rewrite Hget. reflexivity.
  - split.
    + intros other Hother. unfold Model.getFieldWrapper, object_get. cbn [Model._spec].
      rewrite assoc_app. destruct (assoc other (Model._spec m)); [reflexivity|].
      cbn [assoc]. destruct (String.eqb_spec name other) as [->|Hne]; [contradiction|].
      reflexivity.
    + unfold Model.fields. cbn [Model._spec]. rewrite !map_app. reflexivity.
Qed.

Lemma X2_addField_witness :
  match Model.addField fooModel "extra" textField with
  | Ok m' => Model.getFieldSpec m' "extra" = Some textField
  | Throw _ => False
  end.
Proof.
  destruct (Model.addField fooModel "extra" textField) as [m'|e] eqn:Hadd;
    [|vm_compute in Hadd; discriminate].
  exact (proj1 (proj2 (X2_addField_lookup fooModel m' "extra" textField Hadd))).
Defined.

Lemma own_assoc {A : Type} (obj : list (string * A)) (key : string) (a : A) :
  object_get obj key = Own a -> assoc key obj = Some a.
Proof.
  unfold object_get. destruct (assoc key obj) as [a0|].
  - intros H. injection H as ->. reflexivity.
  - destruct (existsb _ _); discriminate.
Qed.

Lemma updateField_own (m : Model.t) (name : string) (w : FieldSpecWrapper.t)
    (upd : FieldSpec) :
  Model.getFieldWrapper m name = Own w ->
  exists m',
    Model.updateField m name upd = Ok m'
    /\ Model._spec m' = Model.replace_spec name upd (Model._spec m)
    /\ Model.getFieldSpec m' name = Some (mergeFieldSpec (FieldSpecWrapper.fieldSpec w) upd).
Proof.
  intros Hget. unfold Model.getFieldWrapper in Hget.
  unfold Model.updateField. rewrite Hget. eexists. split; [reflexivity|].
  split; [reflexivity|].
  unfold Model.getFieldSpec, object_get. cbn [Model._spec].
  rewrite replace_spec_assoc, String.eqb_refl, (own_assoc _ _ _ Hget). reflexivity.
Qed.






(** ** The model registry *)

Lemma NoDup_snoc {A : Type} (l : list A) (x : A) :
  NoDup l -> ~ In x l -> NoDup (l ++ [x]).
Proof.
  intros Hl Hx. apply NoDup_ListNoDup. apply List.NoDup_app.
  - apply NoDup_ListNoDup. exact Hl.
  - constructor; [intros []|constructor].
  - intros y Hy [<-|[]]. contradiction.
Qed.

Lemma addField_frame (m m' : Model.t) (name : string) (fs : FieldSpec) :
  Model.addField m name fs = Ok m' ->
  Model.name m' = Model.name m
  /\ Model._relationFields m' = Model._relationFields m
  /\ Model._constraints m' = Model._constraints m.
Proof.
  intros H. apply addField_ok_inv in H as (_ & _ & ->). auto.
Qed.

Lemma updateField_frame (m m' : Model.t) (name : string) (fs : FieldSpec) :
  Model.updateField m name fs = Ok m' ->
  Model.name m' = Model.name m
  /\ Model._relationFields m' = Model._relationFields m
  /\ Model._constraints m' = Model._constraints m.
Proof.
  unfold Model.updateField. destruct (object_get (Model._spec m) name).
  - intros H. injection H as <-. auto.
  - destruct (hasNoKeys fs); [|discriminate]. intros H. injection H as <-. auto.
  - apply addField_frame.
Qed.

Lemma addFields_frame (spec : list (string * FieldSpec)) :
  forall m m', Model.addFields m spec = Ok m' ->
               Model.name m' = Model.name m
               /\ Model._relationFields m' = Model._relationFields m
               /\ Model._constraints m' = Model._constraints m.
Proof.
  induction spec as [|[k fs] spec IH]; intros m m'; cbn [Model.addFields].
  - intros H. injection H as <-. auto.
  - destruct (Model.addField m k fs) as [m1|e] eqn:Hadd; [|discriminate].
    intros H. apply IH in H as (-> & -> & ->). apply addField_frame in Hadd. exact Hadd.
Qed.

Lemma new_frame (name : string) (spec : list (string * FieldSpec)) (options : ModelOptions)
    (m : Model.t) :
  Model.new name spec options = Ok m ->
  Model.name m = name /\ Model._relationFields m = [] /\ Model._constraints m = [].
Proof.
  unfold Model.new.
  destruct (Model.addFields _ spec) as [m1|e] eqn:H1; [|discriminate].
  apply addFields_frame in H1 as (N1 & R1 & C1). cbn in N1, R1, C1.
  destruct (createTimestamp options).
  - destruct (Model.addField m1 "createdAt" _) as [m2|e] eqn:H2; [|discriminate].
    apply addField_frame in H2 as (N2 & R2 & C2).
    destruct (updateTimestamp options).
    + intros H3. apply addField_frame in H3 as (-> & -> & ->). repeat split; congruence.
    + intros H. injection H as <-. repeat split; congruence.
  - destruct (updateTimestamp options).
    + intros H3. apply addField_frame in H3 as (-> & -> & ->). repeat split; congruence.
    + intros H. injection H as <-. repeat split; congruence.
Qed.

Lemma list_max_fresh (l : list nat) : ~ In (S (list_max l)) l.
Proof.
  intros Hin.
  pose proof (proj1 (List.list_max_le l (list_max l)) (le_n _)) as Hall.
  rewrite List.Forall_forall in Hall. specialize (Hall _ Hin). lia.
Qed.

Lemma getModel_None {C : Type} (db : Database.t C) (modelName : string) :
  Database.getModel db modelName = None ->
  ~ In modelName (map (fun ref => Model.name (Database.heap db ref)) (Database._models db)).
Proof.
  unfold Database.getModel. intros Hfind Hin.
  apply in_map_iff in Hin as (ref & Hname & Href).
  pose proof (List.find_none _ _ Hfind ref Href) as Hfalse. cbn beta in Hfalse.
  rewrite Hname, String.eqb_refl in Hfalse. discriminate.
Qed.

Lemma find_snoc_fresh {A : Type} (f : A -> bool) (l : list A) (x : A) :
  List.find f (l ++ [x]) = match List.find f l with
                           | Some y => Some y
                           | None => if f x then Some x else None
                           end.
Proof.
  induction l as [|y l IH]; cbn [List.find app]; [reflexivity|].
  destruct (f y); [reflexivity|exact IH].
Qed.

Lemma define_inv {C : Type} (db db' : Database.t C) (modelName : string)
    (modelSpec : list (string * FieldSpec)) (modelOptions : ModelOptions) (ref : ModelRef) :
  Database.define db modelName modelSpec modelOptions = Ok (ref, db') ->
  exists model,
    isValidName modelName = true
    /\ Database.getModel db modelName = None
    /\ Model.new modelName modelSpec modelOptions = Ok model
    /\ ~ In ref (Database._models db)
    /\ Database._models db' = Database._models db ++ [ref]
    /\ Database.heap db' ref = model
    /\ (forall r, r <> ref -> Database.heap db' r = Database.heap db r)
    /\ Database._connection db' = Database._connection db
    /\ Database._schemaFlushed db' = Database._schemaFlushed db.
Proof.
  unfold Database.define. destruct (isValidName modelName); cbn [negb]; [|discriminate].
  destruct (Database.getModel db modelName) eqn:Hget; [discriminate|].
  destruct (Model.new modelName modelSpec modelOptions) as [model|e] eqn:Hnew; [|discriminate].
  intros H. injection H as <- <-. exists model. cbn.
  rewrite Nat.eqb_refl. repeat split; auto.
  - apply list_max_fresh.
  - intros r Hr. destruct (Nat.eqb_spec r (S (list_max (Database._models db)))); congruence.
Qed.

Lemma names_unchanged (h h' : Heap) (models : list ModelRef) :
  (forall r, In r models -> Model.name (h' r) = Model.name (h r)) ->
  map (fun ref => Model.name (h' ref)) models = map (fun ref => Model.name (h ref)) models.
Proof.
  intros H. apply map_ext_in. exact H.
Qed.

Lemma define_wellFormed {C : Type} (db db' : Database.t C) (modelName : string)
    (modelSpec : list (string * FieldSpec)) (modelOptions : ModelOptions) (ref : ModelRef) :
  databaseWellFormed db ->
  Database.define db modelName modelSpec modelOptions = Ok (ref, db') ->
  databaseWellFormed db'.
Proof.
  intros [Hreg Hnames] Hdef.
  apply define_inv in Hdef
    as (model & Hvalid & Hget & Hnew & Hfresh & Hmodels & Hat & Hother & _ & _).
  split.
  - intros r. destruct (Nat.eq_dec r ref) as [->|Hne].
    + rewrite Hat. split.
      * exact (new_wellFormed _ _ _ _ Hnew).
      * apply new_frame in Hnew as (_ & Hrel & _). unfold relationsOwnedBy.
        rewrite Hrel. split; constructor.
    + rewrite (Hother r Hne). apply Hreg.
  - rewrite Hmodels, map_app. cbn [map]. rewrite Hat.
    apply new_frame in Hnew as (-> & _ & _).
    rewrite (names_unchanged (Database.heap db) (Database.heap db')).
    + apply NoDup_snoc; [exact Hnames|]. apply getModel_None. exact Hget.
    + intros r Hr. rewrite Hother; [reflexivity|]. intros ->. contradiction.
Qed.

(** X4: [define] and [getModel].  A successful [define] makes the model
    findable under its name, leaves every other name resolving as before,
    puts the model last in registration order, and keeps the registry well
    formed: field tables intact, relations owned, model names pairwise
    distinct. *)
Theorem X4_define_then_getModel :
  forall (C : Type) (db db' : Database.t C) (modelName : string)
         (modelSpec : list (string * FieldSpec)) (modelOptions : ModelOptions)
         (ref : ModelRef),
    Database.define db modelName modelSpec modelOptions = Ok (ref, db') ->
    Database.getModel db' modelName = Some ref
    /\ Model.name (Database.heap db' ref) = modelName
    /\ (forall other, other <> modelName ->
          Database.getModel db' other = Database.getModel db other)
    /\ Database._models db' = Database._models db ++ [ref]
    /\ (databaseWellFormed db -> databaseWellFormed db').
Proof.
  intros C db db' modelName modelSpec modelOptions ref Hdef.
  pose proof Hdef as Hinv.
  apply define_inv in Hinv
    as (model & Hvalid & Hget & Hnew & Hfresh & Hmodels & Hat & Hother & _ & _).
  pose proof (new_frame _ _ _ _ Hnew) as (Hname & _ & _).
  assert (Hfind : forall n,
             List.find (fun r => String.eqb (Model.name (Database.heap db' r)) n)
               (Database._models db)
             = Database.getModel db n).
  { intros n. unfold Database.getModel.
    assert (Hext : forall l, (forall r, In r l -> r <> ref) ->
                     List.find (fun r => String.eqb (Model.name (Database.heap db' r)) n) l
                     = List.find (fun r => String.eqb (Model.name (Database.heap db r)) n) l).
    { induction l as [|r l IH]; intros Hl; cbn [List.find]; [reflexivity|].
      rewrite (Hother r (Hl r (or_introl eq_refl))).
      rewrite IH; [reflexivity|]. intros r' Hr'. apply Hl. right. exact Hr'. }
    apply Hext. intros r Hr ->. contradiction. }
  split; [|split; [|split; [|split]]].
  - unfold Database.getModel. rewrite Hmodels, find_snoc_fresh, Hfind, Hget, Hat, Hname.
    rewrite String.eqb_refl. reflexivity.
  - rewrite Hat. exact Hname.
  - intros other Hne. unfold Database.getModel at 1.
    rewrite Hmodels, find_snoc_fresh, Hfind, Hat, Hname.
    destruct (Database.getModel db other); [reflexivity|].
    destruct (String.eqb_spec modelName other); [congruence|reflexivity].
  - exact Hmodels.
  - intros Hwf. eapply define_wellFormed; eassumption.
Qed.

Lemma X4_define_witness :
  match Database.define sampleDatabase "bar" [("id", integerKey)] noOptions with
  | Ok (ref, db') => Database.getModel db' "bar" = Some ref
  | Throw _ => False
  end.
Proof.
  destruct (Database.define sampleDatabase "bar" [("id", integerKey)] noOptions)
    as [[ref db']|e] eqn:Hdef; [|vm_compute in Hdef; discriminate].
  exact (proj1 (X4_define_then_getModel _ _ _ _ _ _ _ Hdef)).
Defined.
(** ** Relation declarations *)

Section RegistrySteps.

Context {C : Type}.

Lemma keepsReg_ret {A : Type} (P : Database.t C -> Prop) (a : A) :
  keepsReg (C:=C) P (Relations.retR a).
Proof. intros db H. exact H. Qed.

Lemma keepsReg_bind {A B : Type} (P : Database.t C -> Prop)
    (m : Relations.Reg (C:=C) A) (k : A -> Relations.Reg (C:=C) B) :
  keepsReg (C:=C) P m -> (forall a, keepsReg (C:=C) P (k a)) -> keepsReg (C:=C) P (Relations.bindReg m k).
Proof.
  intros Hm Hk db HP. unfold Relations.bindReg.
  specialize (Hm db HP). destruct (m db) as [db1 [a|f]]; cbn [fst] in *.
  - apply Hk. exact Hm.
  - exact Hm.
Qed.

Lemma keepsReg_readModel (P : Database.t C -> Prop) (ref : ModelRef) :
  keepsReg (C:=C) P (Relations.readModel ref).
Proof. intros db H. exact H. Qed.

Lemma keepsReg_resolve (P : Database.t C -> Prop) (m : Relations.ModelArg) :
  keepsReg (C:=C) P (Relations.resolve m).
Proof.
  intros db H. unfold Relations.resolve. destruct m as [ref|name]; [exact H|].
  destruct (Database.getModel db name); exact H.
Qed.

Lemma keepsReg_onModel (ref : ModelRef) (f : Model.t -> Outcome Model.t) :
  modelStep ref f -> keepsReg (C:=C) databaseWellFormed (Relations.onModel ref f).
Proof.
  intros Hstep db [Hreg Hnames]. unfold Relations.onModel.
  destruct (f (Database.heap db ref)) as [m'|e] eqn:Hf; cbn [fst]; [|split; assumption].
  destruct (Hstep _ _ Hf) as (Hname & Hfields & Hrels).
  split; cbn [Relations.setModel Database.heap Database._models].
  - intros r. destruct (Nat.eqb_spec r ref) as [->|Hne].
    + split; [apply Hfields|apply Hrels]; apply Hreg.
    + apply Hreg.
  - rewrite (names_unchanged (Database.heap db)); [exact Hnames|].
    intros r _. destruct (Nat.eqb_spec r ref) as [->|Hne]; [exact Hname|reflexivity].
Qed.

Lemma keepsReg_define (name : string) :
  keepsReg (C:=C) databaseWellFormed
    (fun db =>
       match Database.define db name [] Relations.emptyOptions with
       | Ok (ref, db') => (db', Done ref)
       | Throw e => (db, Fail (Raised e))
       end).
Proof.
  intros db Hwf.
  destruct (Database.define db name [] Relations.emptyOptions) as [[ref db']|e] eqn:Hdef;
    cbn [fst]; [|exact Hwf].
  eapply define_wellFormed; eassumption.
Qed.

Lemma modelStep_column (ref : ModelRef) (key : string) (fresh upd : FieldSpec) :
  modelStep ref (fun m =>
                   match Model.getFieldSpec m key with
                   | None => raise (Model.addField m key fresh)
                   | Some _ => raise (Model.updateField m key upd)
                   end).
Proof.
  intros m m'. destruct (Model.getFieldSpec m key).
  - destruct (Model.updateField m key upd) as [m1|e] eqn:Hupd; cbn [raise]; [|discriminate].
    intros H. injection H as <-.
    pose proof (updateField_frame _ _ _ _ Hupd) as (Hn & Hr & _).
    split; [exact Hn|]. split.
    + intros Hwf. eapply updateField_wellFormed; eassumption.
    + unfold relationsOwnedBy. rewrite Hr. auto.
  - destruct (Model.addField m key fresh) as [m1|e] eqn:Hadd; cbn [raise]; [|discriminate].
    intros H. injection H as <-.
    pose proof (addField_frame _ _ _ _ Hadd) as (Hn & Hr & _).
    split; [exact Hn|]. split.
    + intros Hwf. eapply addField_wellFormed; eassumption.
    + unfold relationsOwnedBy. rewrite Hr. auto.
Qed.

Lemma modelStep_updateField (ref : ModelRef) (key : string) (upd : FieldSpec) :
  modelStep ref (fun m => raise (Model.updateField m key upd)).
Proof.
  intros m m'.
  destruct (Model.updateField m key upd) as [m1|e] eqn:Hupd; cbn [raise]; [|discriminate].
  intros H. injection H as <-.
  pose proof (updateField_frame _ _ _ _ Hupd) as (Hn & Hr & _).
  split; [exact Hn|]. split.
  - intros Hwf. eapply updateField_wellFormed; eassumption.
  - unfold relationsOwnedBy. rewrite Hr. auto.
Qed.

Lemma modelStep_constraints (ref : ModelRef) (g : Model.t -> Model.t) :
  (forall m, Model.name (g m) = Model.name m
             /\ Model._spec (g m) = Model._spec m
             /\ Model._relationFields (g m) = Model._relationFields m) ->
  modelStep ref (fun m => Done (g m)).
Proof.
  intros Hg m m' H. injection H as <-. destruct (Hg m) as (Hn & Hs & Hr).
  split; [exact Hn|]. unfold fieldsWellFormed, relationsOwnedBy. rewrite Hs, Hr. auto.
Qed.

Lemma addRelationField_inv (m m' : Model.t) (d : RelationFieldData.t) :
  Relations._addRelationField m d = Done m' ->
  isValidName (RelationFieldData.name d) = true
  /\ Model.getFieldSpec m (RelationFieldData.name d) = None
  /\ Model.getRelationFieldData m (RelationFieldData.name d) = None
  /\ m' = Model.mk (Model.name m) (Model._spec m) (Model._constraints m)
            (Model._options m) (Model._relationFields m ++ [d]).
Proof.
  unfold Relations._addRelationField, Relations._checkRelationFieldName.
  destruct (isValidName (RelationFieldData.name d)); cbn [negb]; [|discriminate].
  destruct (Model.getFieldSpec m _); [discriminate|].
  destruct (Model.getRelationFieldData m _); [discriminate|].
  intros H. injection H as <-. auto.
Qed.

Lemma getRelationFieldData_None (m : Model.t) (name : string) :
  Model.getRelationFieldData m name = None ->
  ~ In name (map RelationFieldData.name (Model._relationFields m)).
Proof.
  unfold Model.getRelationFieldData. intros Hfind Hin.
  apply in_map_iff in Hin as (d & Hname & Hd).
  pose proof (List.find_none _ _ Hfind d Hd) as Hfalse. cbn beta in Hfalse.
  rewrite Hname, String.eqb_refl in Hfalse. discriminate.
Qed.

Lemma modelStep_addRelationField (ref : ModelRef) (d : RelationFieldData.t) :
  RelationFieldData.model d = ref ->
  modelStep ref (fun m => Relations._addRelationField m d).
Proof.
  intros Hd m m' H. apply addRelationField_inv in H as (_ & _ & Hnone & ->).
  split; [reflexivity|]. split; [auto|].
  intros [Hown Hnodup]. unfold relationsOwnedBy. cbn [Model._relationFields]. split.
  - apply Forall_app. split; [exact Hown|]. constructor; [exact Hd|constructor].
  - rewrite map_app. apply NoDup_snoc; [exact Hnodup|].
    apply getRelationFieldData_None. exact Hnone.
Qed.

Lemma keepsReg_oneOrManyToOne (this : ModelRef) (otherModel : Relations.ModelArg)
    (field : option string) (options : option Relations.SingleRelationOptions)
    (type : RelationType) (swapLeftRight : bool) :
  keepsReg (C:=C) databaseWellFormed
    (Relations._oneOrManyToOne this otherModel field options type swapLeftRight).
Proof.
  unfold Relations._oneOrManyToOne.
  apply keepsReg_bind; [apply keepsReg_resolve|]. intros other.
  apply keepsReg_bind; [apply keepsReg_readModel|]. intros otherObject.
  apply keepsReg_bind; [apply keepsReg_onModel, modelStep_column|]. intros _.
  apply keepsReg_bind; [apply keepsReg_readModel|]. intros otherObject'.
  apply keepsReg_bind.
  { apply keepsReg_onModel, modelStep_constraints. intros m. auto. }
  intros _. apply keepsReg_bind.
  { destruct (Relations.given field); [|apply keepsReg_ret].
    apply keepsReg_onModel, modelStep_addRelationField.
    destruct (Relations.isMany _ _); reflexivity. }
  intros _. destruct (Relations.given _); [|apply keepsReg_ret].
  apply keepsReg_onModel, modelStep_addRelationField.
  destruct (Relations.isMany _ _); reflexivity.
Qed.

Lemma keepsReg_manyToMany (this : ModelRef) (otherModel : Relations.ModelArg)
    (field : option string) (options : option Relations.MultiRelationOptions) :
  keepsReg (C:=C) databaseWellFormed (Relations.manyToMany this otherModel field options).
Proof.
  unfold Relations.manyToMany.
  apply keepsReg_bind; [apply keepsReg_resolve|]. intros other.
  apply keepsReg_bind; [apply keepsReg_readModel|]. intros thisObject.
  apply keepsReg_bind; [apply keepsReg_readModel|]. intros otherObject.
  apply keepsReg_bind.
  { destruct (match options with Some o => Relations.pivot o | None => None end)
      as [[ref|name]|].
    - apply keepsReg_ret.
    - destruct (String.length name =? 0)%nat; [apply keepsReg_define|].
      intros db Hwf. destruct (Database.getModel db name); [exact Hwf|].
      apply (keepsReg_define name db Hwf).
    - apply keepsReg_define. }
  intros relationModel.
  apply keepsReg_bind; [apply keepsReg_onModel, modelStep_updateField|]. intros _.
  apply keepsReg_bind; [apply keepsReg_onModel, modelStep_updateField|]. intros _.
  apply keepsReg_bind; [apply keepsReg_readModel|]. intros thisObject'.
  apply keepsReg_bind.
  { apply keepsReg_onModel, modelStep_constraints. intros m. auto. }
  intros _.
  apply keepsReg_bind; [apply keepsReg_readModel|]. intros otherObject'.
  apply keepsReg_bind.
  { apply keepsReg_onModel, modelStep_constraints. intros m. auto. }
  intros _. apply keepsReg_bind.
  { destruct (Relations.given field); [|apply keepsReg_ret].
    apply keepsReg_onModel, modelStep_addRelationField. reflexivity. }
  intros _. destruct (Relations.given _); [|apply keepsReg_ret].
  apply keepsReg_onModel, modelStep_addRelationField. reflexivity.
Qed.

End RegistrySteps.

(** X5: declaring relations keeps the registry well formed.  Whatever
    [oneToOne], [manyToOne], [oneToMany] or [manyToMany] did before it
    returned or threw, afterwards every model still has a well-formed field
    table, every registered relation names the model it is registered on,
    relation names are pairwise distinct within a model, and model names are
    pairwise distinct. *)
Theorem X5_declarations_keep_registry :
  forall (C : Type) (db : Database.t C) (this : ModelRef) (otherModel : Relations.ModelArg)
         (field : option string),
    databaseWellFormed db ->
    (forall options,
        databaseWellFormed (fst (Relations.oneToOne this otherModel field options db))
        /\ databaseWellFormed (fst (Relations.manyToOne this otherModel field options db))
        /\ databaseWellFormed (fst (Relations.oneToMany this otherModel field options db)))
    /\ (forall options,
          databaseWellFormed (fst (Relations.manyToMany this otherModel field options db))).
Proof.
  intros C db this otherModel field Hwf. split.
  - intros options. split; [|split].
    + apply keepsReg_oneOrManyToOne. exact Hwf.
    + apply keepsReg_oneOrManyToOne. exact Hwf.
    + unfold Relations.oneToMany. revert db Hwf.
      apply keepsReg_bind; [apply keepsReg_resolve|]. intros other.
      apply keepsReg_oneOrManyToOne.
  - intros options. apply keepsReg_manyToMany. exact Hwf.
Qed.

Lemma shopDatabase_wellFormed : databaseWellFormed shopDatabase.
Proof.
  split.
  - intros [|[|[|ref]]]; (split; [split|split]); cbn;
      repeat (constructor; cbn; auto); rewrite ?list_elem_of_In; cbn; intuition discriminate.
  - cbn. repeat (constructor; cbn; auto); rewrite ?list_elem_of_In; cbn; intuition discriminate.
Qed.

Lemma X5_declarations_witness :
  databaseWellFormed
    (fst (Relations.oneToMany 1 (Relations.ByName "invoice") (Some "invoices")
            (Some {| Relations.foreignKey := None;
                     Relations.companionField := Some "customer" |})
            shopDatabase)).
Proof.
  exact (proj2 (proj2 (proj1 (X5_declarations_keep_registry _ shopDatabase 1
                                (Relations.ByName "invoice") (Some "invoices")
                                shopDatabase_wellFormed) _))).
Defined.
Lemma bindReg_Done_inv {C A B : Type} (m : Relations.Reg (C:=C) A)
    (k : A -> Relations.Reg (C:=C) B) (db db' : Database.t C) (b : B) :
  Relations.bindReg m k db = (db', Done b) ->
  exists a db1, m db = (db1, Done a) /\ k a db1 = (db', Done b).
Proof.
  unfold Relations.bindReg. destruct (m db) as [db1 [a|f]]; [|discriminate].
  intros H. exists a, db1. auto.
Qed.

Lemma onModel_Done_inv {C : Type} (ref : ModelRef) (f : Model.t -> Outcome Model.t)
    (db db' : Database.t C) (u : unit) :
  Relations.onModel ref f db = (db', Done u) ->
  exists m', f (Database.heap db ref) = Done m' /\ db' = Relations.setModel db ref m'.
Proof.
  unfold Relations.onModel. destruct (f (Database.heap db ref)) as [m'|e]; [|discriminate].
  intros H. injection H as <-. exists m'. auto.
Qed.

Lemma heap_setModel_same {C : Type} (db : Database.t C) (ref : ModelRef) (m : Model.t) :
  Database.heap (Relations.setModel db ref m) ref = m.
Proof. cbn. rewrite Nat.eqb_refl. reflexivity. Qed.

Lemma heap_setModel_other {C : Type} (db : Database.t C) (ref r : ModelRef) (m : Model.t) :
  r <> ref -> Database.heap (Relations.setModel db ref m) r = Database.heap db r.
Proof. intros Hne. cbn. destruct (Nat.eqb_spec r ref); [contradiction|reflexivity]. Qed.

Lemma given_nonempty (s : string) : s <> "" -> Relations.given (Some s) = Some s.
Proof. destruct s; [contradiction|reflexivity]. Qed.

Lemma orElse_given (s : option string) (fallback : string) :
  Relations.orElse (Relations.given s) fallback = Relations.orElse s fallback.
Proof.
  destruct s as [[|c s]|]; reflexivity.
Qed.

Lemma getFieldSpec_column (m m' : Model.t) (key : string) (fresh upd : FieldSpec) :
  match Model.getFieldSpec m key with
  | None => raise (Model.addField m key fresh)
  | Some _ => raise (Model.updateField m key upd)
  end = Done m' ->
  exists fs, Model.getFieldSpec m' key = Some fs.
Proof.
  destruct (Model.getFieldSpec m key) as [fs0|] eqn:Hget.
  - unfold Model.getFieldSpec in Hget.
    destruct (object_get (Model._spec m) key) as [w| |] eqn:Hobj; try discriminate.
    destruct (updateField_own m key w upd Hobj) as (m1 & Hupd & _ & Hspec).
    rewrite Hupd. cbn [raise]. intros H. injection H as <-. eexists. exact Hspec.
  - destruct (Model.addField m key fresh) as [m1|e] eqn:Hadd; cbn [raise]; [|discriminate].
    intros H. injection H as <-. exists fresh.
    apply addField_ok_inv in Hadd as (_ & Habs & ->).
    apply object_get_absent in Habs as [Hnone _].
    unfold Model.getFieldSpec, object_get. cbn [Model._spec].
    rewrite assoc_app, Hnone. cbn [assoc]. rewrite String.eqb_refl. reflexivity.
Qed.
Lemma getRelationFieldData_snoc (m : Model.t) (d : RelationFieldData.t) (name : string) :
  Model.getRelationFieldData
    (Model.mk (Model.name m) (Model._spec m) (Model._constraints m) (Model._options m)
       (Model._relationFields m ++ [d])) name
  = match Model.getRelationFieldData m name with
    | Some x => Some x
    | None => if String.eqb (RelationFieldData.name d) name then Some d else None
    end.
Proof.
  unfold Model.getRelationFieldData. cbn [Model._relationFields].
  exact (find_snoc_fresh (fun x => String.eqb (RelationFieldData.name x) name) _ d).
Qed.

Lemma addRelationField_lookup (m m' : Model.t) (d : RelationFieldData.t) :
  Relations._addRelationField m d = Done m' ->
  Model.getRelationFieldData m' (RelationFieldData.name d) = Some d
  /\ (forall name x, Model.getRelationFieldData m name = Some x ->
                     Model.getRelationFieldData m' name = Some x)
  /\ Model._spec m' = Model._spec m
  /\ Model._constraints m' = Model._constraints m
  /\ Model.name m' = Model.name m.
Proof.
  intros H. apply addRelationField_inv in H as (_ & _ & Hnone & ->).
  split; [|split].
  - rewrite getRelationFieldData_snoc, Hnone, String.eqb_refl. reflexivity.
  - intros name x Hx. rewrite getRelationFieldData_snoc, Hx. reflexivity.
  - auto.
Qed.

(** X7: [oneToMany] registers both ends.  When [a.oneToMany(b, field,
    {companionField})] returns, [a] has the many-valued relation [field]
    to [b], [b] has the single-valued relation [companionField] back to [a],
    both name the same foreign key ([<a>id] unless given), and [b] has a
    column of that name.  This also holds when [a] and [b] are the same
    model. *)
Theorem X7_oneToMany_registers_both_ends :
  forall (C : Type) (db db' : Database.t C) (this other : ModelRef)
         (field companion : string) (fk : option string),
    field <> "" -> companion <> "" ->
    Relations.oneToMany this (Relations.ByRef other) (Some field)
      (Some {| Relations.foreignKey := fk; Relations.companionField := Some companion |}) db
    = (db', Done tt) ->
    let key := Relations.orElse fk (Model.name (Database.heap db this) +:+ "id") in
    Model.getRelationFieldData (Database.heap db' this) field
    = Some (RelationFieldData.Many field OneToMany this other true key)
    /\ Model.getRelationFieldData (Database.heap db' other) companion
       = Some (RelationFieldData.Single companion OneToMany other this false key)
    /\ (exists fs, Model.getFieldSpec (Database.heap db' other) key = Some fs).
Proof.
  intros C db db' this other field companion fk Hfield Hcomp H key.
  unfold Relations.oneToMany in H.
  apply bindReg_Done_inv in H as (o & db0 & Hres & H).
  cbn in Hres. injection Hres as <- <-.
  cbn [Relations.companionField Relations.foreignKey] in H.
  rewrite (given_nonempty _ Hcomp) in H.
  unfold Relations._oneOrManyToOne in H.
  apply bindReg_Done_inv in H as (t & db0 & Hres & H).
  cbn in Hres. injection Hres as <- <-.
  apply bindReg_Done_inv in H as (thisObject & db0 & Hres & H).
  cbn in Hres. injection Hres as <- <-.
  cbn [Relations.companionField Relations.foreignKey] in H.
  rewrite orElse_given in H. fold key in H.
  apply bindReg_Done_inv in H as ([] & db1 & Hcol & H).
  apply onModel_Done_inv in Hcol as (m1 & Hm1 & ->).
  apply bindReg_Done_inv in H as (thisObject' & db0 & Hres & H).
  cbn [Relations.readModel] in Hres. injection Hres as <- <-.
  apply bindReg_Done_inv in H as ([] & db2 & Hcon & H).
  apply onModel_Done_inv in Hcon as (m2 & Hm2 & ->).
  rewrite heap_setModel_same in Hm2. injection Hm2 as <-.
  apply bindReg_Done_inv in H as ([] & db3 & Hrel & H).
  rewrite (given_nonempty _ Hcomp) in Hrel.
  apply onModel_Done_inv in Hrel as (m3 & Hm3 & ->).
  rewrite heap_setModel_same in Hm3.
  rewrite (given_nonempty _ Hfield) in H.
  apply onModel_Done_inv in H as (m4 & Hm4 & ->).
  cbn [Relations.isMany RelationType_eqb negb andb orb] in Hm3, Hm4.
  remember (Relations.addForeignKeyConstraint m1 key _ _) as m2 eqn:Em2.
  assert (Hspec2 : Model._spec m2 = Model._spec m1) by (rewrite Em2; reflexivity).
  clear Em2.
  destruct (getFieldSpec_column _ _ _ _ _ Hm1) as (fs & Hfs).
  pose proof (addRelationField_lookup _ _ _ Hm3) as (Hl3 & _ & Hs3 & _ & _).
  pose proof (addRelationField_lookup _ _ _ Hm4) as (Hl4 & Hk4 & Hs4 & _ & _).
  cbn [RelationFieldData.name] in Hl3, Hl4.
  assert (Hfs3 : Model.getFieldSpec m3 key = Some fs).
  { unfold Model.getFieldSpec in *. rewrite Hs3, Hspec2. exact Hfs. }
  rewrite !heap_setModel_same. split; [exact Hl4|].
  destruct (Nat.eq_dec other this) as [->|Hne].
  - rewrite !heap_setModel_same in *. split.
    + apply Hk4. exact Hl3.
    + exists fs. unfold Model.getFieldSpec in *. rewrite Hs4. exact Hfs3.
  - rewrite (heap_setModel_other _ _ _ _ Hne), !heap_setModel_same.
    split; [exact Hl3|]. exists fs. exact Hfs3.
Qed.

Lemma X7_oneToMany_witness :
  match Relations.oneToMany 1 (Relations.ByRef 2) (Some "invoices")
          (Some {| Relations.foreignKey := None;
                   Relations.companionField := Some "customer" |})
          shopDatabase with
  | (db', Done _) =>
      Model.getRelationFieldData (Database.heap db' 2) "customer"
      = Some (RelationFieldData.Single "customer" OneToMany 2 1 false "customerid")
  | (_, Fail _) => False
  end.
Proof.
  destruct (Relations.oneToMany 1 (Relations.ByRef 2) (Some "invoices")
              (Some {| Relations.foreignKey := None;
                       Relations.companionField := Some "customer" |})
              shopDatabase) as [db' [[]|f]] eqn:Hdecl;
    [|vm_compute in Hdecl; discriminate].
  refine (proj1 (proj2 (X7_oneToMany_registers_both_ends _ shopDatabase db' 1 2
                          "invoices" "customer" None _ _ Hdecl))); discriminate.
Defined.
Lemma isValidName_nonempty (s : string) : isValidName s = true -> s <> "".
Proof. intros H ->. discriminate. Qed.

Lemma find_primary_snoc (l : list FieldSpecWrapper.t) (w : FieldSpecWrapper.t) :
  is_true_flag (primaryKey (FieldSpecWrapper.fieldSpec w)) = false ->
  List.find (fun fsw => is_true_flag (primaryKey (FieldSpecWrapper.fieldSpec fsw))) (l ++ [w])
  = List.find (fun fsw => is_true_flag (primaryKey (FieldSpecWrapper.fieldSpec fsw))) l.
Proof.
  intros Hw.
  rewrite (find_snoc_fresh
             (fun fsw => is_true_flag (primaryKey (FieldSpecWrapper.fieldSpec fsw))) l w).
  rewrite Hw. destruct (List.find _ l); reflexivity.
Qed.

(** X6: a failed declaration is not undone.  When [oneToOne] is given a
    relation name that is already a field of the model, it throws, but only
    after it has added the foreign key column and the foreign key constraint
    to the model: both are still there afterwards, and no relation has been
    registered. *)
Theorem X6_failed_declaration_leaves_column :
  forall (C : Type) (db : Database.t C) (this other : ModelRef) (field : string)
         (fs0 : FieldSpec),
    let m := Database.heap db this in
    let key := Model.name (Database.heap db other) +:+ "id" in
    isValidName field = true ->
    Model.getFieldSpec m field = Some fs0 ->
    isValidName key = true ->
    Model.getFieldWrapper m key = Absent ->
    exists db',
      Relations.oneToOne this (Relations.ByRef other) (Some field) None db
      = (db', Fail (ReservedRelationName field))
      /\ Model.getFieldSpec (Database.heap db' this) key
         = Some (Relations.integerColumn (Some true))
      /\ Model._constraints (Database.heap db' this)
         = Model._constraints m
             ++ ["FOREIGN KEY (" +:+ key +:+ ") REFERENCES "
                 +:+ Model.name (Database.heap db other) +:+ "("
                 +:+ Model.getPrimaryKeyName (Database.heap db other)
                 +:+ ") ON UPDATE CASCADE ON DELETE CASCADE"]
      /\ Model._relationFields (Database.heap db' this) = Model._relationFields m.
Proof.
  intros C db this other field fs0 m key Hfield Hreserved Hkey Habsent.
  assert (Hadd : Model.addField m key (Relations.integerColumn (Some true))
                 = Ok (Model.mk (Model.name m)
                         (Model._spec m
                            ++ [(key, FieldSpecWrapper.mk key
                                        (Relations.integerColumn (Some true)))])
                         (Model._constraints m) (Model._options m)
                         (Model._relationFields m))).
  { unfold Model.addField. unfold Model.getFieldWrapper in Habsent.
    rewrite Hkey, Habsent. reflexivity. }
  assert (Hnone : Model.getFieldSpec m key = None).
  { unfold Model.getFieldSpec. unfold Model.getFieldWrapper in Habsent.
    rewrite Habsent. reflexivity. }
  set (m1 := Model.mk (Model.name m)
               (Model._spec m
                  ++ [(key, FieldSpecWrapper.mk key (Relations.integerColumn (Some true)))])
               (Model._constraints m) (Model._options m) (Model._relationFields m)) in *.
  assert (Hother : Model.name (Database.heap (Relations.setModel db this m1) other)
                   = Model.name (Database.heap db other)
                   /\ Model.getPrimaryKeyName (Database.heap (Relations.setModel db this m1) other)
                      = Model.getPrimaryKeyName (Database.heap db other)).
  { destruct (Nat.eq_dec other this) as [->|Hne].
    - rewrite heap_setModel_same. split; [reflexivity|].
      unfold Model.getPrimaryKeyName, Model.fields. cbn [m1 Model._spec].
      rewrite map_app. cbn [map snd]. rewrite find_primary_snoc; reflexivity.
    - rewrite (heap_setModel_other _ _ _ _ Hne). auto. }
  destruct Hother as [Hname Hpk].
  eexists. split.
  - unfold Relations.oneToOne, Relations._oneOrManyToOne.
    unfold Relations.bindReg at 1. cbn [Relations.resolve].
    unfold Relations.bindReg at 1. cbn [Relations.readModel Relations.orElse].
    fold key.
    unfold Relations.bindReg at 1. unfold Relations.onModel at 1.
    fold m. rewrite Hnone. cbn [RelationType_eqb]. rewrite Hadd. cbn [raise].
    unfold Relations.bindReg at 1. cbn [Relations.readModel].
    unfold Relations.bindReg at 1. unfold Relations.onModel at 1.
    rewrite heap_setModel_same, Hname, Hpk.
    unfold Relations.bindReg at 1.
    rewrite (given_nonempty _ (isValidName_nonempty _ Hfield)).
    unfold Relations.onModel at 1. rewrite heap_setModel_same.
    unfold Relations._addRelationField, Relations._checkRelationFieldName.
    cbn [RelationFieldData.name Relations.isMany RelationType_eqb andb orb negb].
    rewrite Hfield. cbn [negb].
    assert (Hstill : Model.getFieldSpec
                       (Relations.addForeignKeyConstraint m1 key
                          (Model.name (Database.heap db other))
                          (Model.getPrimaryKeyName (Database.heap db other))) field
                     = Some fs0).
    { unfold Model.getFieldSpec, object_get in *.
      cbn [Relations.addForeignKeyConstraint Relations.addConstraint Model._spec m1].
      rewrite assoc_app. destruct (assoc field (Model._spec m)); [exact Hreserved|].
      destruct (existsb _ _); discriminate. }
    rewrite Hstill. reflexivity.
  - rewrite !heap_setModel_same. split; [|split; reflexivity].
    unfold Model.getFieldSpec, object_get.
    cbn [Relations.addForeignKeyConstraint Relations.addConstraint Model._spec m1].
    unfold Model.getFieldWrapper in Habsent.
    apply object_get_absent in Habsent as [Hassoc _].
    rewrite assoc_app, Hassoc. cbn [assoc]. rewrite String.eqb_refl. reflexivity.
Qed.

Lemma X6_failed_declaration_witness :
  exists db',
    Relations.oneToOne 1 (Relations.ByRef 2) (Some "name") None shopDatabase
    = (db', Fail (ReservedRelationName "name"))
    /\ Model.getFieldSpec (Database.heap db' 1) "invoiceid"
       = Some (Relations.integerColumn (Some true)).
Proof.
  destruct (X6_failed_declaration_leaves_column _ shopDatabase 1 2 "name" textField
              eq_refl eq_refl eq_refl eq_refl) as (db' & Hfail & Hcolumn & _).
  exists db'. split; [exact Hfail|exact Hcolumn].
Defined.

(** ** The criteria compiler *)

Lemma JsValue_nested_ind (P : JsValue -> Prop) :
  P JUndefined -> P JNull -> (forall b, P (JBool b)) -> (forall n, P (JNum n)) ->
  (forall s, P (JStr s)) ->
  (forall items, Forall P items -> P (JArr items)) ->
  (forall props, Forall (fun kv => P (snd kv)) props -> P (JObj props)) ->
  forall v, P v.
Proof.
  intros Hu Hn Hb Hz Hs Ha Ho.
  refine (fix F (v : JsValue) : P v :=
            match v with
            | JUndefined => Hu
            | JNull => Hn
            | JBool b => Hb b
            | JNum n => Hz n
            | JStr s => Hs s
            | JArr items =>
                Ha items ((fix G (l : list JsValue) : Forall P l :=
                             match l with
                             | [] => @List.Forall_nil _ _
                             | x :: r => @List.Forall_cons _ _ x r (F x) (G r)
                             end) items)
            | JObj props =>
                Ho props ((fix G (l : list (string * JsValue))
                             : Forall (fun kv => P (snd kv)) l :=
                             match l with
                             | [] => @List.Forall_nil _ _
                             | x :: r => @List.Forall_cons _ _ x r (F (snd x)) (G r)
                             end) props)
            end).
Qed.

Section Respects.

Import QueryBuilder.

Variable P : State -> Prop.
Variable E : Error -> Prop.

Lemma respects_ret {A : Type} (a : A) : respects P E (ret a).
Proof. intros st H. exact H. Qed.

Lemma respects_throw {A : Type} (e : Error) : E e -> respects P E (@throw A e).
Proof. intros He st _. exact He. Qed.

Lemma respects_lift {A : Type} (r : Result A) :
  (forall e, r = Throw e -> E e) -> respects P E (lift r).
Proof.
  intros Hr st H. unfold lift. destruct r as [a|e]; [exact H|]. apply Hr. reflexivity.
Qed.

Lemma respects_get : respects P E (fun st : State => Ok (st, st)).
Proof. intros st H. exact H. Qed.

Lemma respects_bind {A B : Type} (m : M A) (k : A -> M B) :
  respects P E m -> (forall a, respects P E (k a)) -> respects P E (bindM m k).
Proof.
  intros Hm Hk st H. unfold bindM. specialize (Hm st H).
  destruct (m st) as [[a st']|e]; [|exact Hm]. apply Hk. exact Hm.
Qed.

Lemma respects_mapM {A B : Type} (f : A -> M B) (l : list A) :
  (forall x, respects P E (f x)) -> respects P E (mapM f l).
Proof.
  intros Hf. induction l as [|x l IH]; cbn [mapM].
  - apply respects_ret.
  - apply respects_bind; [apply Hf|]. intros y.
    apply respects_bind; [exact IH|]. intros ys. apply respects_ret.
Qed.

Lemma respects_forEach {A : Type} (f : A -> WhereTree.t -> M WhereTree.t) (l : list A) :
  (forall x n, respects P E (f x n)) -> forall node, respects P E (forEach f l node).
Proof.
  intros Hf. induction l as [|x l IH]; intros node; cbn [forEach].
  - apply respects_ret.
  - apply respects_bind; [apply Hf|]. intros n'. apply IH.
Qed.

Variable heap : Heap.
Variable rand : nat -> N.
Variable _model : ModelRef.

Hypothesis criteria_errors : forall e, criteriaError e = true -> E e.
Hypothesis attach : forall fieldName, respects P E (_attachColumn heap _model fieldName).
Hypothesis binding : forall value, respects P E (bindValue rand value).
Hypothesis root_write : forall node, respects P E (set_globalWhere node).

Lemma respects_convert (fsw : PropLookup FieldSpecWrapper.t) (v : JsValue) :
  respects P E (lift (callConvertToDatabaseForm fsw v)).
Proof.
  apply respects_lift. intros e He. apply criteria_errors.
  destruct fsw as [w| |]; cbn [callConvertToDatabaseForm] in He.
  - apply convertToDatabaseForm_error in He. subst e. reflexivity.
  - injection He as <-. reflexivity.
  - injection He as <-. reflexivity.
Qed.

Lemma respects_buildMappedOperator (operator left : string) (right : JsValue)
    (parentNode : WhereTree.t) :
  respects P E (_buildMappedOperator heap rand _model operator left right parentNode).
Proof.
  unfold _buildMappedOperator.
  apply respects_bind; [apply attach|]. intros fieldData.
  apply respects_bind; [apply respects_convert|]. intros rightConv.
  apply respects_bind; [apply binding|]. intros placeholder. apply respects_ret.
Qed.

Lemma respects_buildOperator (operator left : string) (right : JsValue)
    (parentNode : WhereTree.t) :
  respects P E (_buildOperator heap rand _model operator left right parentNode).
Proof.
  unfold _buildOperator. destruct (assoc operator _mappedOperators).
  { apply respects_buildMappedOperator. }
  destruct (String.eqb operator "$in" || String.eqb operator "$notin");
    [|apply respects_throw, criteria_errors; reflexivity].
  apply respects_bind.
  { apply respects_lift. intros e He. apply criteria_errors.
    destruct right; cbn in He; try discriminate; injection He as <-; reflexivity. }
  intros len. destruct (negb (js_truthy len));
    [apply respects_throw, criteria_errors; reflexivity|].
  destruct (strict_eq_num len 1); [apply respects_buildMappedOperator|].
  apply respects_bind; [apply attach|]. intros fieldData.
  destruct right; try (apply respects_throw, criteria_errors; reflexivity).
  apply respects_bind; [|intros list; apply respects_ret].
  apply respects_mapM. intros x.
  apply respects_bind; [apply respects_convert|]. intros conv. apply binding.
Qed.

Lemma respects_buildWhereNode (value : JsValue) :
  forall (key : string) (parentNode : WhereTree.t),
    respects P E (_buildWhereNode heap rand _model key value parentNode).
Proof.
  induction value as [| |b|n|s|items IH|props IH] using JsValue_nested_ind;
    intros key parentNode; cbn [_buildWhereNode];
    (destruct (startsWith key "$"); destruct (WhereTree.context parentNode);
     [ destruct (_ || _);
       [apply respects_bind; [|intros node; apply respects_ret]
       |apply respects_throw, criteria_errors; reflexivity]
     | apply respects_buildOperator
     | destruct (_ && _);
       [apply respects_bind; [|intros node; apply respects_ret]
       |apply respects_buildMappedOperator]
     | apply respects_throw, criteria_errors; reflexivity ]).
  1-4: apply respects_throw, criteria_errors; reflexivity.
  1-4: apply respects_ret.
  1-2: apply respects_forEach; intros kv n0; apply respects_buildMappedOperator.
  1-2: generalize 0 at 1;
       match goal with |- forall i, respects _ _ (_ _ i ?n) => generalize n end;
       induction IH as [|x l Hx Hl IHl]; intros n0 i; [apply respects_ret|];
       apply respects_bind; [apply Hx|intros n'; apply IHl].
  1-2: match goal with |- respects _ _ (_ _ ?n) => generalize n end;
       induction IH as [|[subKey sub] l Hx Hl IHl]; intros n0; [apply respects_ret|];
       apply respects_bind; [apply Hx|intros n'; apply IHl].
Qed.

Lemma respects_buildWhere (_whereClause : JsValue) :
  respects P E (_buildWhere heap rand _model _whereClause).
Proof.
  unfold _buildWhere. apply respects_bind.
  { apply respects_lift. intros e He. apply criteria_errors.
    destruct _whereClause; cbn in He; try discriminate; injection He as <-; reflexivity. }
  intros es. apply respects_bind; [apply respects_get|]. intros st.
  apply respects_bind; [|intros node; apply root_write].
  apply respects_forEach. intros kv n. apply respects_buildWhereNode.
Qed.

End Respects.

Lemma getJoinCondition_owned (heap : Heap) (relation : RelationFieldData.t)
    (model joinModel : ModelRef) (companionAlias : string) :
  RelationFieldData.model relation = model ->
  joinModel = RelationFieldData.companionModel relation
  \/ (exists n ty m c l lfk rfk,
         relation = RelationFieldData.Multi n ty m c l joinModel lfk rfk) ->
  exists condition,
    getJoinCondition heap relation model companionAlias joinModel = Ok condition.
Proof.
  intros Hmodel Hjoin.
  destruct relation as [n ty m c l fk|n ty m c l fk|n ty m c l r lfk rfk];
    cbn [RelationFieldData.model RelationFieldData.companionModel] in *; subst m.
  - destruct Hjoin as [->|(? & ? & ? & ? & ? & ? & ? & Heq)]; [|discriminate].
    cbn [getJoinCondition]. rewrite !Nat.eqb_refl. cbn [negb orb].
    destruct (negb _); eauto.
  - destruct Hjoin as [->|(? & ? & ? & ? & ? & ? & ? & Heq)]; [|discriminate].
    cbn [getJoinCondition]. rewrite !Nat.eqb_refl. cbn [negb orb]. eauto.
  - cbn [getJoinCondition]. rewrite Nat.eqb_refl.
    destruct Hjoin as [->|(? & ? & ? & ? & ? & ? & ? & Heq)].
    + rewrite Nat.eqb_refl. rewrite andb_false_r.
      destruct (c =? r)%nat; eauto.
    + injection Heq as _ _ _ _ _ <- _ _. rewrite Nat.eqb_refl. cbn [negb andb]. eauto.
Qed.

Lemma getRelationFieldData_some (m : Model.t) (name : string) (d : RelationFieldData.t) :
  Model.getRelationFieldData m name = Some d ->
  In d (Model._relationFields m) /\ RelationFieldData.name d = name.
Proof.
  unfold Model.getRelationFieldData. intros H. apply List.find_some in H as [Hin Heq].
  split; [exact Hin|]. apply String.eqb_eq. exact Heq.
Qed.

Section Attach.

Import QueryBuilder.

Variable heap : Heap.
Variable rand : nat -> N.
Variable _model : ModelRef.

Lemma respects_bind_ret {A B : Type} (P : State -> Prop) (E : Error -> Prop)
    (a : A) (k : A -> M B) :
  respects P E (k a) -> respects P E (bindM (ret a) k).
Proof. intros H st HP. exact (H st HP). Qed.

Lemma respects_bind_throw {A B : Type} (P : State -> Prop) (E : Error -> Prop)
    (e : Error) (k : A -> M B) :
  E e -> respects P E (bindM (throw e) k).
Proof. intros H st HP. exact H. Qed.

(** Column resolution: its own errors, and those of the join condition of
    a relation registered on the model. *)
Lemma attachColumn_respects (E : Error -> Prop) (fieldName : string) :
  (forall e, columnError e = true -> E e) ->
  (forall relation relatedModel e,
      In relation (Model._relationFields (heap _model)) ->
      relatedModel = RelationFieldData.companionModel relation
      \/ (exists n ty m c l lfk rfk,
             relation = RelationFieldData.Multi n ty m c l relatedModel lfk rfk) ->
      getJoinCondition heap relation _model ("__sa_" +:+ Model.name (heap relatedModel))
        relatedModel = Throw e ->
      E e) ->
  respects (fun _ => True) E (_attachColumn heap _model fieldName).
Proof.
  intros HE Hjoin. unfold _attachColumn.
  destruct (indexOf fieldName "$") as [[|sindex]|].
  - apply respects_throw, HE. reflexivity.
  - destruct (_ || _); [apply respects_throw, HE; reflexivity|].
    destruct (Model.getRelationFieldData (heap _model) _) as [relation|] eqn:Hrel;
      [|apply respects_throw, HE; reflexivity].
    apply getRelationFieldData_some in Hrel as [Hin _].
    specialize (Hjoin relation).
    match goal with
    | |- respects _ _ (bindM ?step ?cont) =>
        assert (Hcont : forall found,
                   (snd found = RelationFieldData.companionModel relation
                    \/ (exists n ty m c l lfk rfk,
                           relation = RelationFieldData.Multi n ty m c l (snd found) lfk rfk)) ->
                   respects (fun _ => True) E (cont found))
    end.
    { intros found Hfound. cbn beta.
      apply respects_bind; [apply respects_get|]. intros st1.
      apply respects_bind; [|intros u; apply respects_ret].
      destruct (match _joins st1 with None => true | Some _ => _ end);
        [|apply respects_ret].
      apply respects_bind.
      { apply respects_lift. intros e He. exact (Hjoin (snd found) e Hin Hfound He). }
      intros condition. apply respects_bind; [intros st2 _; exact I|]. intros _.
      destruct (RelationFieldData.resultsInMany relation); [|apply respects_ret].
      destruct (match _constraints st1 with None => true | Some _ => _ end);
        [intros st2 _; exact I|apply respects_ret]. }
    destruct (Model.getFieldWrapper (heap (RelationFieldData.companionModel relation)) _).
    + apply respects_bind_ret, Hcont. left. reflexivity.
    + apply respects_bind_ret, Hcont. left. reflexivity.
    + destruct (RelationType_eqb _ _); [|apply respects_bind_throw, HE; reflexivity].
      destruct relation as [n ty m c l fk|n ty m c l fk|n ty m c l r lfk rfk];
        try (apply respects_bind_throw, HE; reflexivity).
      destruct (Model.getFieldWrapper (heap r) _).
      * apply respects_bind_ret, Hcont. right. cbn [snd]. eauto 10.
      * apply respects_bind_ret, Hcont. right. cbn [snd]. eauto 10.
      * apply respects_bind_throw, HE. reflexivity.
  - apply respects_bind; [|intros fsw; apply respects_ret].
    apply respects_lift. intros e He. apply HE. unfold Model.getFieldWrapperChecked in He.
    destruct (Model.getFieldWrapper _ _); try discriminate. injection He as <-. reflexivity.
Qed.

(** Column resolution in a registry whose relations are owned. *)
Lemma attachColumn_errors (fieldName : string) :
  Forall (fun d => RelationFieldData.model d = _model)
    (Model._relationFields (heap _model)) ->
  respects (fun _ => True) (fun e => columnError e = true)
    (_attachColumn heap _model fieldName).
Proof.
  intros Howned. apply attachColumn_respects; [auto|].
  intros relation relatedModel e Hin Hrelated He.
  rewrite List.Forall_forall in Howned.
  destruct (getJoinCondition_owned heap relation _model relatedModel
              ("__sa_" +:+ Model.name (heap relatedModel)) (Howned _ Hin) Hrelated)
    as [c Hc].
  rewrite Hc in He. discriminate.
Qed.

Lemma getJoinCondition_error (relation : RelationFieldData.t) (model joinModel : ModelRef)
    (companionAlias : string) (e : Error) :
  getJoinCondition heap relation model companionAlias joinModel = Throw e ->
  e = ModelMismatchError.
Proof.
  destruct relation; cbn [getJoinCondition];
    repeat match goal with
           | |- context [if ?b then _ else _] => destruct b
           end;
    intros H; try discriminate; injection H as <-; reflexivity.
Qed.

End Attach.
Section CompileErrors.

Import QueryBuilder.

Variable heap : Heap.
Variable rand : nat -> N.
Variable _model : ModelRef.

Hypothesis owned :
  Forall (fun d => RelationFieldData.model d = _model) (Model._relationFields (heap _model)).

Variable E : Error -> Prop.
Hypothesis compile_errors : forall e, compileError e = true -> E e.

Lemma respects_weaken {A : Type} (P : State -> Prop) (E1 E2 : Error -> Prop) (m : M A) :
  (forall e, E1 e -> E2 e) -> respects P E1 m -> respects P E2 m.
Proof.
  intros HE Hm st HP. specialize (Hm st HP).
  destruct (m st) as [[a st']|e]; [exact Hm|]. apply HE. exact Hm.
Qed.

Lemma buildWhere_errors (_whereClause : JsValue) :
  respects (fun _ => True) E (_buildWhere heap rand _model _whereClause).
Proof.
  apply respects_buildWhere.
  - intros e He. apply compile_errors. unfold compileError. rewrite He. reflexivity.
  - intros fieldName. eapply respects_weaken; [|apply attachColumn_errors; exact owned].
    intros e He. apply compile_errors. unfold compileError. cbn beta in He.
    rewrite He. apply orb_true_r.
  - intros value st _. unfold bindValue. destruct (SqlBoundParams.bind _ _ _). exact I.
  - intros node st _. exact I.
Qed.

Lemma run_errors {A : Type} (m : M A) (e : Error) :
  respects (fun _ => True) E m -> run m = Throw e -> E e.
Proof.
  intros Hm. unfold run. specialize (Hm initial I).
  destruct (m initial) as [[a st]|e']; [discriminate|].
  intros H. injection H as <-. exact Hm.
Qed.

Lemma buildUpdate_errors (options : UpdateOptions.t) :
  respects (fun _ => True) E (UpdateQueryBuilder._buildUpdate heap rand _model options).
Proof.
  unfold UpdateQueryBuilder._buildUpdate.
  apply respects_bind; [apply buildWhere_errors|]. intros _.
  destruct (List.length _ =? 0)%nat.
  { intros st _. exact I. }
  apply respects_bind.
  - apply respects_mapM. intros kv.
    apply respects_bind.
    { apply respects_lift. intros e He. apply compile_errors.
      unfold Model.getFieldWrapperChecked in He.
      destruct (Model.getFieldWrapper _ _); try discriminate.
      injection He as <-. reflexivity. }
    intros fsw. apply respects_bind.
    { apply respects_lift. intros e He. apply compile_errors.
      destruct fsw as [w| |]; cbn [callConvertToDatabaseForm] in He.
      - apply convertToDatabaseForm_error in He. subst e. reflexivity.
      - injection He as <-. reflexivity.
      - injection He as <-. reflexivity. }
    intros conv. apply respects_bind; [|intros; apply respects_ret].
    intros st _. unfold bindValue. destruct (SqlBoundParams.bind _ _ _). exact I.
  - intros assignments st _. cbn. destruct (_joins st), (_constraints st); exact I.
Qed.

End CompileErrors.

(** X10: what compiling a query can fail with.  On a model whose relations
    are all registered under the model itself (as the declaration methods
    leave them), building a delete fails only with the missing-criteria
    error or with an error of the criteria compiler; building an update only
    with the latter; building a select, whose join options name relations
    of the model, also with an invalid sorting property.  In particular no
    build ever ends in a model mismatch. *)
Theorem X10_compile_errors :
  forall (heap : Heap) (rand : nat -> N) (model : ModelRef),
    Forall (fun d => RelationFieldData.model d = model)
      (Model._relationFields (heap model)) ->
    (forall options e,
        buildRemove heap rand model options = Throw e ->
        e = RemoveWithoutCriteria \/ compileError e = true)
    /\ (forall options e,
          buildUpdate heap rand model options = Throw e -> compileError e = true)
    /\ (forall options e,
          joinsDeclared heap model options ->
          buildSelect heap rand model options = Throw e ->
          compileError e = true \/ exists p, e = InvalidSortingProperty p).
Proof.
  intros heap rand model Howned. split; [|split].
  - intros options e. unfold buildRemove.
    apply (run_errors (fun e => e = RemoveWithoutCriteria \/ compileError e = true)).
    unfold RemoveQueryBuilder._buildRemove.
    destruct (RemoveQueryBuilder.noCriteria _); [intros st _; left; reflexivity|].
    apply respects_bind.
    { apply buildWhere_errors; [exact Howned|]. intros e' He'. right. exact He'. }
    intros _ st _. cbn.
    destruct (QueryBuilder._joins st), (QueryBuilder._constraints st); exact I.
  - intros options e. unfold buildUpdate.
    apply (run_errors (fun e => compileError e = true)).
    apply buildUpdate_errors; [exact Howned|auto].
  - intros options e Hjoins. unfold buildSelect.
    apply (run_errors (fun e => compileError e = true \/ exists p, e = InvalidSortingProperty p)).
    unfold SelectQueryBuilder._buildSelect.
    apply respects_bind.
    { apply buildWhere_errors; [exact Howned|]. intros e' He'. left. exact He'. }
    intros _. apply respects_bind.
    { unfold SelectQueryBuilder._buildConstraints.
      intros st _. unfold QueryBuilder.bindM.
      destruct (FindOptions.limit options), (FindOptions.offset options); exact I. }
    intros _. apply respects_bind.
    { unfold SelectQueryBuilder._buildSort.
      apply respects_bind;
        [|intros parts st _;
          destruct parts; destruct (defaultSorting (Model._options (heap model)));
          exact I].
      destruct (FindOptions.sort options) as [[|entry rest]|]; try apply respects_ret.
      apply respects_bind.
      - apply respects_lift. intros e' He'. right.
        generalize dependent (@nil string). generalize (entry :: rest).
        induction l as [|[name|prop] l IH]; intros acc He'; cbn in He'; [discriminate| |].
        + destruct (Model.getFieldSpec _ _); [eapply IH; exact He'|].
          injection He' as <-. eauto.
        + destruct (Model.getFieldSpec _ _); [eapply IH; exact He'|].
          injection He' as <-. eauto.
      - intros parts. destruct (defaultSorting _) as [d|]; [|apply respects_ret].
        destruct (negb _); [|apply respects_ret].
        destruct (Model.getFieldSpec _ _); [apply respects_ret|].
        apply respects_throw. right. eauto. }
    intros _. apply respects_bind.
    { unfold SelectQueryBuilder._buildJoins, joinsDeclared in *.
      destruct (FindOptions.join options) as [joins|]; [|apply respects_ret].
      change (Forall (fun j => In (JoinOption.relation j)
                            (Model._relationFields (heap model))) joins) in Hjoins.
      apply respects_bind; [|intros; apply respects_ret].
      induction Hjoins as [|j others Hj Hjs IH]; cbn [QueryBuilder.mapM];
        [apply respects_ret|].
      apply respects_bind; [|intros y; apply respects_bind;
                              [exact IH|intros; apply respects_ret]].
      apply respects_bind; [|intros c st _; exact I].
      apply respects_lift. intros e' He'.
      rewrite List.Forall_forall in Howned.
      destruct (getJoinCondition_owned heap (JoinOption.relation j) model
                  (RelationFieldData.companionModel (JoinOption.relation j))
                  (RelationFieldData.name (JoinOption.relation j))
                  (Howned _ Hj) (or_introl eq_refl)) as [c Hc].
      rewrite Hc in He'. discriminate. }
    intros _ st _. cbn. destruct (is_true_flag _); exact I.
Qed.
Section Shape.

Import QueryBuilder.

Variable heap : Heap.
Variable rand : nat -> N.
Variable _model : ModelRef.

Lemma group_by_recognised (s : string) :
  startsWith (toUpperCase ("GROUP BY " +:+ s)) "GROUP BY" = true.
Proof. reflexivity. Qed.

Lemma existsb_alias_false (table : string) (js : list ParsedJoin.t) :
  existsb (fun x => String.eqb (ParsedJoin.alias x) table) js = false ->
  ~ In table (map ParsedJoin.alias js).
Proof.
  intros Hex Hin. apply in_map_iff in Hin as (j & Hj & Hin).
  assert (Htrue : existsb (fun x => String.eqb (ParsedJoin.alias x) table) js = true).
  { apply existsb_exists. exists j. split; [exact Hin|]. rewrite Hj. apply String.eqb_refl. }
  congruence.
Qed.

Lemma attachColumn_shape (fieldName : string) :
  respects (whereShape heap _model) (fun _ => True) (_attachColumn heap _model fieldName).
Proof.
  intros st HP.
  destruct (_attachColumn heap _model fieldName st) as [[r st']|e] eqn:Hrun; [|exact I].
  unfold _attachColumn in Hrun.
  destruct (indexOf fieldName "$") as [[|sindex]|]; [discriminate| |].
  - destruct (_ || _); [discriminate|].
    destruct (Model.getRelationFieldData (heap _model) _) as [relation|]; [|discriminate].
    apply bindM_inv in Hrun as (found & st1 & Hfound & Hrun).
    assert (Hst1 : st1 = st).
    { destruct (Model.getFieldWrapper _ _); try (injection Hfound as _ <-; reflexivity).
      destruct (RelationType_eqb _ _); [|discriminate].
      destruct relation; try discriminate.
      destruct (Model.getFieldWrapper _ _); try discriminate;
        injection Hfound as _ <-; reflexivity. }
    subst st1. clear Hfound.
    apply bindM_inv in Hrun as (st0 & st1 & Hget & Hrun). injection Hget as <- <-.
    apply bindM_inv in Hrun as ([] & st2 & Hjoin & Hrun). injection Hrun as _ <-.
    destruct HP as (Hnodup & Hall & Hcons).
    set (table := "__sa_" +:+ Model.name (heap (snd found))) in *.
    destruct (match _joins st with None => true | Some js => _ end) eqn:Hfresh;
      [|injection Hjoin as <-; repeat split; assumption].
    apply bindM_inv in Hjoin as (condition & st3 & Hcond & Hjoin).
    unfold lift in Hcond. destruct (getJoinCondition _ _ _ _ _); [|discriminate].
    injection Hcond as _ <-.
    apply bindM_inv in Hjoin as ([] & st4 & Hadd & Hjoin).
    injection Hadd as <-.
    assert (Hshape4 :
              NoDup (map ParsedJoin.alias
                       (default []
                          (Some (match _joins st with
                                 | None => [ParsedJoin.mk JoinType.Left
                                              (Model.name (heap (snd found))) None table
                                              condition]
                                 | Some js => js ++ [ParsedJoin.mk JoinType.Left
                                                       (Model.name (heap (snd found))) None
                                                       table condition]
                                 end))))
              /\ Forall (fun j => ParsedJoin.joinType j = JoinType.Left
                                  /\ ParsedJoin.selectWhere j = None
                                  /\ ParsedJoin.alias j = "__sa_" +:+ ParsedJoin.sourceTable j)
                   (default []
                      (Some (match _joins st with
                             | None => [ParsedJoin.mk JoinType.Left
                                          (Model.name (heap (snd found))) None table
                                          condition]
                             | Some js => js ++ [ParsedJoin.mk JoinType.Left
                                                   (Model.name (heap (snd found))) None
                                                   table condition]
                             end)))).
    { destruct (_joins st) as [js|]; cbn [default from_option id] in *.
      - split.
        + rewrite map_app. apply NoDup_snoc; [exact Hnodup|].
          apply existsb_alias_false. apply negb_true_iff. exact Hfresh.
        + apply Forall_app. split; [exact Hall|]. constructor; [|constructor]. auto.
      - split.
        + cbn. apply NoDup_singleton.
        + constructor; [|constructor]. auto. }
    destruct Hshape4 as [Hnodup4 Hall4].
    destruct (RelationFieldData.resultsInMany relation);
      [|injection Hjoin as <-; repeat split; assumption].
    cbn [_constraints] in Hjoin.
    destruct Hcons as [Hnone|Hsome].
    + rewrite Hnone in Hjoin. injection Hjoin as <-.
      split; [exact Hnodup4|]. split; [exact Hall4|]. right.
      reflexivity.
    + rewrite Hsome in Hjoin. cbn [existsb] in Hjoin.
      rewrite group_by_recognised in Hjoin. cbn [orb negb] in Hjoin.
      injection Hjoin as <-. split; [exact Hnodup4|]. split; [exact Hall4|]. right.
      reflexivity.
  - apply bindM_inv in Hrun as (fsw & st1 & Hlift & Hrun).
    unfold lift in Hlift. destruct (Model.getFieldWrapperChecked _ _); [|discriminate].
    injection Hlift as _ <-. injection Hrun as _ <-. exact HP.
Qed.

Lemma buildWhere_shape (_whereClause : JsValue) :
  respects (whereShape heap _model) (fun _ => True)
    (_buildWhere heap rand _model _whereClause).
Proof.
  apply respects_buildWhere.
  - intros e _. exact I.
  - apply attachColumn_shape.
  - intros value st HP. unfold bindValue. destruct (SqlBoundParams.bind _ _ _). exact HP.
  - intros node st HP. exact HP.
Qed.

Lemma initial_shape : whereShape heap _model initial.
Proof.
  split; [constructor|]. split; [constructor|]. left. reflexivity.
Qed.

End Shape.
(** ** The select statement *)

Section SelectShape.

Import QueryBuilder.

Variable heap : Heap.
Variable rand : nat -> N.
Variable _model : ModelRef.
Variable options : FindOptions.t.

Lemma addConstraint_adds (c : string) (st : State) :
  exists st', _addConstraint c st = Ok (tt, st')
              /\ constraintsOf st' = constraintsOf st ++ [c]
              /\ _globalWhere st' = _globalWhere st.
Proof.
  eexists. split; [reflexivity|]. unfold constraintsOf. cbn [_constraints _globalWhere].
  destruct (_constraints st); split; reflexivity.
Qed.

Lemma buildConstraints_adds (st : State) :
  exists st', SelectQueryBuilder._buildConstraints options st = Ok (tt, st')
              /\ constraintsOf st' = constraintsOf st ++ limitPart options ++ offsetPart options
              /\ _globalWhere st' = _globalWhere st.
Proof.
  unfold SelectQueryBuilder._buildConstraints, limitPart, offsetPart, bindM.
  destruct (FindOptions.limit options) as [l|], (FindOptions.offset options) as [o|].
  - destruct (addConstraint_adds ("LIMIT " +:+ Z_to_string l) st) as (st1 & -> & H1 & W1).
    destruct (addConstraint_adds ("OFFSET " +:+ Z_to_string o) st1) as (st2 & -> & H2 & W2).
    exists st2. split; [reflexivity|]. rewrite H2, H1, <- app_assoc, W2, W1. auto.
  - destruct (addConstraint_adds ("LIMIT " +:+ Z_to_string l) st) as (st1 & -> & H1 & W1).
    exists st1. split; [reflexivity|]. rewrite H1, app_nil_r. auto.
  - cbn [ret]. apply addConstraint_adds.
  - exists st. split; [reflexivity|]. rewrite !app_nil_r. auto.
Qed.

Lemma sortLoop_parts (sort : list SortEntry) :
  forall (acc parts : list string),
    SelectQueryBuilder.sortLoop heap _model sort acc = Ok parts ->
    parts = acc ++ map sortPart sort.
Proof.
  induction sort as [|entry rest IH]; intros acc parts H; cbn [SelectQueryBuilder.sortLoop] in H.
  - injection H as <-. rewrite app_nil_r. reflexivity.
  - destruct entry as [name|prop];
      (destruct (Model.getFieldSpec _ _); [|discriminate]);
      apply IH in H; rewrite H, <- app_assoc; reflexivity.
Qed.

Lemma buildSort_adds (st st' : State) :
  SelectQueryBuilder._buildSort heap _model options st = Ok (tt, st') ->
  constraintsOf st' = constraintsOf st ++ orderByPart (heap _model) options
  /\ _globalWhere st' = _globalWhere st.
Proof.
  unfold SelectQueryBuilder._buildSort. intros H.
  apply bindM_inv in H as (parts & st1 & Hparts & H).
  assert (Hfirst : st1 = st
                   /\ match parts with
                      | [] => match defaultSorting (Model._options (heap _model)) with
                              | Some d => [_makeSort (by_ d) (order d) (caseSensitive d)]
                              | None => parts
                              end
                      | _ :: _ => parts
                      end = sortParts (heap _model) options).
  { unfold sortParts.
    destruct (FindOptions.sort options) as [[|entry rest]|]; cbn [default from_option id].
    1, 3: injection Hparts as <- <-; split; [reflexivity|]; cbn [map app existsb];
      destruct (defaultSorting _); reflexivity.
    apply bindM_inv in Hparts as (given & st2 & Hlift & Hparts).
    unfold lift in Hlift.
    destruct (SelectQueryBuilder.sortLoop heap _model (entry :: rest) []) as [loop|]
      eqn:Hloop; [|discriminate].
    injection Hlift as <- <-. apply sortLoop_parts in Hloop. cbn [app] in Hloop.
    subst loop.
    destruct (defaultSorting (Model._options (heap _model))) as [d|].
    - destruct (existsb _ (entry :: rest)); cbn [negb] in Hparts.
      + injection Hparts as <- <-. split; [reflexivity|]. rewrite app_nil_r. reflexivity.
      + destruct (Model.getFieldSpec _ _); [|discriminate].
        injection Hparts as <- <-. split; [reflexivity|]. reflexivity.
    - injection Hparts as <- <-. split; [reflexivity|]. rewrite app_nil_r. reflexivity. }
  destruct Hfirst as [-> Hfinal]. cbn zeta in H. rewrite Hfinal in H.
  unfold orderByPart. destruct (sortParts (heap _model) options) as [|part rest].
  - injection H as <-. rewrite app_nil_r. auto.
  - destruct (addConstraint_adds ("ORDER BY " +:+ join ", " (part :: rest)) st)
      as (st2 & Hadd & Hc & Hw).
    rewrite Hadd in H. injection H as <-. auto.
Qed.

Lemma buildJoins_keeps (c : option (list string)) (w : WhereTree.t) :
  respects (fun st => _constraints st = c /\ _globalWhere st = w) (fun _ => True)
    (SelectQueryBuilder._buildJoins heap _model options).
Proof.
  unfold SelectQueryBuilder._buildJoins.
  destruct (FindOptions.join options) as [joins|]; [|apply respects_ret].
  apply respects_bind; [|intros l; apply respects_ret].
  apply respects_mapM. intros joinOption.
  apply respects_bind; [apply respects_lift; auto|]. intros condition.
  apply respects_bind; intros; intros st H; exact H.
Qed.

Lemma join_constraints (st : State) :
  match _constraints st with
  | None => ""
  | Some cs => join " " cs
  end = join " " (constraintsOf st).
Proof. unfold constraintsOf. destruct (_constraints st); reflexivity. Qed.

End SelectShape.

(** X11: the text of a select.  For a limit and an offset that are safe
    integers, the statement [buildSelect] returns ends with the criteria
    as [_buildWhere] compiles them, followed by the constraints in the
    order the builder collects them: the one [GROUP BY] on the primary key
    the criteria may have asked for, then [LIMIT], then [OFFSET], and the
    [ORDER BY] of the sort entries and the default sorting last. *)
Theorem X11_select_constraint_order :
  forall (heap : Heap) (rand : nat -> N) (model : ModelRef) (options : FindOptions.t)
         (q : BuiltSelectQuery),
    (forall limit, FindOptions.limit options = Some limit -> isSafeInteger limit = true) ->
    (forall offset, FindOptions.offset options = Some offset -> isSafeInteger offset = true) ->
    buildSelect heap rand model options = Ok q ->
    exists (criteria : QueryBuilder.State) (columns : list string) (joins : string),
      QueryBuilder._buildWhere heap rand model (normalizeWhere (FindOptions.where_ options))
        QueryBuilder.initial
      = Ok (tt, criteria)
      /\ selectQuery q
         = "SELECT " +:+ join ", " columns +:+ " FROM " +:+ Model.name (heap model)
             +:+ " " +:+ joins +:+ " " +:+ QueryBuilder._makeWhere criteria +:+ " "
             +:+ join " " (constraintsOf criteria ++ limitPart options ++ offsetPart options
                             ++ orderByPart (heap model) options)
      /\ (constraintsOf criteria = []
          \/ constraintsOf criteria
             = ["GROUP BY " +:+ Model.name (heap model) +:+ "."
                +:+ Model.getPrimaryKeyName (heap model)]).
Proof.
  intros heap rand model options q _ _. unfold buildSelect, run.
  destruct (SelectQueryBuilder._buildSelect heap rand model options QueryBuilder.initial)
    as [[q' st]|e] eqn:Hrun; [|discriminate].
  intros H. injection H as ->.
  unfold SelectQueryBuilder._buildSelect in Hrun.
  apply bindM_inv in Hrun as ([] & st1 & Hwhere & Hrun).
  pose proof (buildWhere_shape heap rand model
                (normalizeWhere (FindOptions.where_ options)) _
                (initial_shape heap model)) as Hshape.
  rewrite Hwhere in Hshape. destruct Hshape as (_ & _ & Hgroup).
  apply bindM_inv in Hrun as ([] & st2 & Hcons & Hrun).
  destruct (buildConstraints_adds options st1) as (st2' & Hcons' & Hc2 & Hw2).
  rewrite Hcons' in Hcons. injection Hcons as ->.
  apply bindM_inv in Hrun as ([] & st3 & Hsort & Hrun).
  apply buildSort_adds in Hsort as (Hc3 & Hw3).
  apply bindM_inv in Hrun as ([] & st4 & Hjoins & Hrun).
  pose proof (buildJoins_keeps heap model options _ _ st3 (conj eq_refl eq_refl)) as Hkeep.
  rewrite Hjoins in Hkeep. destruct Hkeep as [Hc4 Hw4].
  apply bindM_inv in Hrun as (st5 & st6 & Hget & Hrun). injection Hget as <- <-.
  assert (Hfinal : constraintsOf st4
                   = constraintsOf st1 ++ limitPart options ++ offsetPart options
                       ++ orderByPart (heap model) options).
  { unfold constraintsOf at 1. rewrite Hc4. fold (constraintsOf st3).
    rewrite Hc3, Hc2, <- !app_assoc. reflexivity. }
  assert (Hsame : QueryBuilder._makeWhere st4 = QueryBuilder._makeWhere st1).
  { unfold QueryBuilder._makeWhere. rewrite Hw4, Hw3, Hw2. reflexivity. }
  exists st1,
         (QueryBuilder._makeColumnListForModel (heap model) (Some (Model.name (heap model)))
            ++ default [] (QueryBuilder._extraColumns st4)),
         (SelectQueryBuilder.joinsText st4).
  split; [exact Hwhere|]. split.
  - rewrite <- Hfinal, <- Hsame, <- join_constraints.
    destruct (is_true_flag _); injection Hrun as <- _; reflexivity.
  - unfold constraintsOf. destruct Hgroup as [->| ->]; [left|right]; reflexivity.
Qed.
(** ** Criteria on plain fields *)

Lemma no_dollar_in_body (s : string) :
  forallb is_body_char (list_ascii_of_string s) = true -> String.index 0 "$" s = None.
Proof.
  induction s as [|c s IH]; [reflexivity|].
  cbn [list_ascii_of_string forallb]. intros H. apply andb_true_iff in H as [Hc Hs].
  cbn [String.index String.prefix].
  destruct (ascii_dec "$"%char c) as [<-|Hne]; [discriminate|].
  rewrite (IH Hs). reflexivity.
Qed.

Lemma valid_name_no_dollar (name : string) :
  isValidName name = true -> indexOf name "$" = None /\ startsWith name "$" = false.
Proof.
  rewrite isValidName_grammar. destruct name as [|c rest]; [discriminate|].
  cbn [letter_start_identifier]. intros H. apply andb_true_iff in H as [Hc Hrest].
  unfold indexOf, startsWith. cbn [String.index String.prefix].
  destruct (ascii_dec "$"%char c) as [<-|Hne]; [discriminate|].
  rewrite (no_dollar_in_body _ Hrest). auto.
Qed.
Section PlainCriteria.

Import QueryBuilder.

Variable heap : Heap.
Variable rand : nat -> N.
Variable _model : ModelRef.

Lemma plain_step (kv : string * JsValue) (converted : JsValue)
    (children : list WhereTree.t) (st : State) :
  plainCriterion heap _model kv converted ->
  _buildWhereNode heap rand _model (fst kv) (snd kv) (WhereTree.Node Logical And "" children) st
  = Ok (WhereTree.Node Logical And ""
          (children
             ++ [WhereTree.Fragment
                   ((Model.name (heap _model) +:+ "." +:+ fst kv) +:+ " = " +:+ ":"
                    +:+ SqlBoundParams.uniqueName (rand (_draws st)))]),
        mkState (_globalWhere st) (_constraints st) (_joins st) (_extraColumns st)
          (<[SqlBoundParams.uniqueName (rand (_draws st)) := converted]> (_bound st))
          (S (_draws st))).
Proof.
  destruct kv as [key value]. cbn [fst snd].
  intros (Hscalar & w & Hown & Hvalid & Hconv). cbn [fst snd] in *.
  destruct (valid_name_no_dollar _ Hvalid) as [Hindex Hstarts].
  assert (Hmapped :
            _buildMappedOperator heap rand _model "=" key value
              (WhereTree.Node Logical And "" children) st
            = Ok (WhereTree.Node Logical And ""
                    (children
                       ++ [WhereTree.Fragment
                             ((Model.name (heap _model) +:+ "." +:+ key) +:+ " = " +:+ ":"
                              +:+ SqlBoundParams.uniqueName (rand (_draws st)))]),
                  mkState (_globalWhere st) (_constraints st) (_joins st) (_extraColumns st)
                    (<[SqlBoundParams.uniqueName (rand (_draws st)) := converted]> (_bound st))
                    (S (_draws st)))).
  { unfold _buildMappedOperator, _attachColumn. rewrite Hindex.
    unfold bindM, lift, Model.getFieldWrapperChecked. rewrite Hown.
    cbn [ret fst snd callConvertToDatabaseForm]. rewrite Hconv.
    unfold bindValue, SqlBoundParams.bind. reflexivity. }
  unfold isScalar in Hscalar. apply negb_true_iff in Hscalar.
  destruct value; cbn [_buildWhereNode]; rewrite Hstarts; cbn [WhereTree.context];
    try rewrite Hscalar; try exact Hmapped; discriminate.
Qed.

Lemma plain_loop (crit : list (string * JsValue)) (cs : list JsValue) :
  Forall2 (plainCriterion heap _model) crit cs ->
  forall (children : list WhereTree.t) (st : State),
    forEach (fun kv n => _buildWhereNode heap rand _model (fst kv) (snd kv) n) crit
      (WhereTree.Node Logical And "" children) st
    = Ok (WhereTree.Node Logical And ""
            (children
               ++ map WhereTree.Fragment
                    (equalityTexts (Model.name (heap _model)) rand (_draws st)
                       (map fst crit))),
          mkState (_globalWhere st) (_constraints st) (_joins st) (_extraColumns st)
            (applyBoundOps (bindAll cs (map rand (seq (_draws st) (List.length crit))))
               (_bound st))
            (_draws st + List.length crit)).
Proof.
  induction 1 as [|kv c crit cs Hkv Hrest IH]; intros children st.
  - cbn. rewrite app_nil_r, Nat.add_0_r. destruct st; reflexivity.
  - cbn [forEach]. unfold bindM. rewrite (plain_step _ _ _ _ Hkv).
    rewrite IH. cbn [_draws _bound _globalWhere _constraints _joins _extraColumns].
    cbn [map equalityTexts List.length seq bindAll zip_with applyBoundOps fold_left
           applyBoundOp SqlBoundParams.bind snd].
    rewrite <- app_assoc, Nat.add_succ_r. reflexivity.
Qed.

Lemma build_fragments (conditions : list string) :
  WhereTree.build (WhereTree.Node Logical And "" (map WhereTree.Fragment conditions))
  = conjunction conditions.
Proof.
  destruct conditions as [|a [|b rest]]; try reflexivity.
  cbn [WhereTree.build map conjunction]. rewrite !map_map. reflexivity.
Qed.

Lemma append_nonempty (a b : string) (c : ascii) :
  (String.length (a +:+ String c b) =? 0)%nat = false.
Proof. destruct a; reflexivity. Qed.

Lemma conjunction_nonempty (table : string) (draw : nat) (key : string) (rest : list string) :
  (String.length (conjunction (equalityTexts table rand draw (key :: rest))) =? 0)%nat = false.
Proof.
  destruct rest as [|key' rest]; cbn [equalityTexts conjunction].
  - apply (append_nonempty (table +:+ "." +:+ key)).
  - reflexivity.
Qed.

End PlainCriteria.

(** X12: criteria on plain fields.  Criteria that give a scalar for each
    of some declared fields compile to the conjunction of one equality per
    criterion, in the order written, each against its own placeholder; the
    statement needs no join, and the converted values are bound to the
    placeholders in that order. *)
Theorem X12_plain_criteria_are_equalities :
  forall (heap : Heap) (rand : nat -> N) (model : ModelRef)
         (crit : list (string * JsValue)) (cs : list JsValue),
    Forall2 (plainCriterion heap model) crit cs ->
    crit <> [] ->
    assoc "length" crit <> Some (JNum 0) ->
    buildRemove heap rand model (RemoveOptions.mk (Some (JObj crit)))
    = Ok {| query := "DELETE FROM " +:+ Model.name (heap model) +:+ " WHERE "
                     +:+ conjunction (equalityTexts (Model.name (heap model)) rand 0
                                        (map fst crit));
            bound := applyBoundOps
                       (bindAll cs (map rand (seq 0 (List.length crit))))
                       SqlBoundParams.empty |}.
Proof.
  intros heap rand model crit cs Hplain Hnonempty Hlength.
  unfold buildRemove, run, RemoveQueryBuilder._buildRemove.
  cbn [RemoveOptions.where_ normalizeWhere loose_eq_null].
  assert (Hcriteria : RemoveQueryBuilder.noCriteria (JObj crit) = false).
  { unfold RemoveQueryBuilder.noCriteria. cbn [js_truthy negb orb get_length].
    destruct (assoc "length" crit) as [[| |b|n|s|l|p]|]; try reflexivity.
    cbn [default from_option id strict_eq_num].
    destruct (Z.eqb_spec n 0) as [->|Hne]; [congruence|reflexivity]. }
  rewrite Hcriteria.
  unfold QueryBuilder.bindM at 1. unfold QueryBuilder._buildWhere.
  unfold QueryBuilder.bindM at 1. cbn [QueryBuilder.lift entries].
  unfold QueryBuilder.bindM at 1. unfold QueryBuilder.bindM at 1.
  cbn [QueryBuilder._globalWhere QueryBuilder.initial].
  unfold WhereTree.new. rewrite (plain_loop heap rand model crit cs Hplain).
  cbn [QueryBuilder.set_globalWhere QueryBuilder.bindM QueryBuilder._constraints
         QueryBuilder._joins QueryBuilder._bound QueryBuilder._draws
         QueryBuilder._extraColumns QueryBuilder.initial QueryBuilder._globalWhere
         QueryBuilder.ret app].
  unfold QueryBuilder._makeWhere. cbn [QueryBuilder._globalWhere].
  rewrite build_fragments.
  destruct crit as [|[key value] rest]; [contradiction|].
  cbn [map fst]. rewrite conjunction_nonempty. reflexivity.
Qed.
Lemma buildWhere_never_missing_criteria (heap : Heap) (rand : nat -> N) (model : ModelRef)
    (_whereClause : JsValue) :
  respects (fun _ => True) (fun e => e <> RemoveWithoutCriteria)
    (QueryBuilder._buildWhere heap rand model _whereClause).
Proof.
  apply respects_buildWhere.
  - intros e He ->. discriminate.
  - intros fieldName. apply attachColumn_respects.
    + intros e He ->. discriminate.
    + intros relation relatedModel e _ _ He ->.
      apply getJoinCondition_error in He. discriminate.
  - intros value st _. unfold QueryBuilder.bindValue.
    destruct (SqlBoundParams.bind _ _ _). exact I.
  - intros node st _. exact I.
Qed.

(** X13: when a delete is refused for want of criteria.  For criteria given
    as an object, [buildRemove] throws the missing-criteria error exactly
    when the object has a property [length] whose value is the number 0:
    the empty object is not refused, and a criterion on a field called
    [length] with value 0 is. *)
Theorem X13_remove_refused_on_zero_length :
  forall (heap : Heap) (rand : nat -> N) (model : ModelRef)
         (props : list (string * JsValue)),
    buildRemove heap rand model (RemoveOptions.mk (Some (JObj props)))
    = Throw RemoveWithoutCriteria
    <-> assoc "length" props = Some (JNum 0).
Proof.
  intros heap rand model props. unfold buildRemove, run, RemoveQueryBuilder._buildRemove.
  cbn [RemoveOptions.where_ normalizeWhere loose_eq_null].
  unfold RemoveQueryBuilder.noCriteria. cbn [js_truthy negb orb get_length].
  split.
  - destruct (assoc "length" props) as [v|]; cbn [default from_option id].
    + destruct (strict_eq_num v 0) eqn:Hzero.
      * intros _. destruct v; try discriminate. cbn in Hzero.
        apply Z.eqb_eq in Hzero. subst. reflexivity.
      * intros H. exfalso.
        pose proof (buildWhere_never_missing_criteria heap rand model (JObj props)
                      QueryBuilder.initial I) as Hwhere.
        unfold QueryBuilder.bindM in H.
        destruct (QueryBuilder._buildWhere heap rand model (JObj props)
                    QueryBuilder.initial) as [[[] st]|e].
        -- cbn in H. destruct (QueryBuilder._joins st), (QueryBuilder._constraints st);
             discriminate.
        -- injection H as ->. apply Hwhere. reflexivity.
    + cbn [strict_eq_num]. intros H. exfalso.
      pose proof (buildWhere_never_missing_criteria heap rand model (JObj props)
                    QueryBuilder.initial I) as Hwhere.
      unfold QueryBuilder.bindM in H.
      destruct (QueryBuilder._buildWhere heap rand model (JObj props)
                  QueryBuilder.initial) as [[[] st]|e].
      * cbn in H. destruct (QueryBuilder._joins st), (QueryBuilder._constraints st);
          discriminate.
      * injection H as ->. apply Hwhere. reflexivity.
  - intros ->. reflexivity.
Qed.

Lemma no_primary_key_is_rowid (m : Model.t) :
  primaryKeyFields m = 0 -> Model.getPrimaryKeyName m = ROWID.
Proof.
  unfold primaryKeyFields, Model.getPrimaryKeyName, Model.fields.
  induction (Model._spec m) as [|[k w] l IH]; [reflexivity|].
  cbn [List.filter map snd List.find]. unfold isPrimaryEntry at 1. cbn [snd].
  destruct (is_true_flag (primaryKey (FieldSpecWrapper.fieldSpec w))); [discriminate|].
  exact IH.
Qed.

(** X14: [findByPK] needs a declared primary key.  On a model that flags no
    field as primary key (and has no field called [rowid]), the query of
    [findByPK] for a scalar key cannot be built: the implicit [rowid] is
    looked up among the fields and not found. *)
Theorem X14_findByPK_without_primary_key :
  forall (heap : Heap) (rand : nat -> N) (model : ModelRef) (pkValue : JsValue),
    primaryKeyFields (heap model) = 0 ->
    Model.getFieldWrapper (heap model) ROWID = Absent ->
    isScalar pkValue = true ->
    buildSelect heap rand model (findByPKOptions (heap model) pkValue)
    = Throw (NoFieldNamed ROWID).
Proof.
  intros heap rand model pkValue Hnone Habsent Hscalar.
  unfold findByPKOptions. rewrite (no_primary_key_is_rowid _ Hnone).
  unfold buildSelect, run, SelectQueryBuilder._buildSelect.
  cbn [FindOptions.where_ normalizeWhere loose_eq_null].
  unfold QueryBuilder.bindM at 1. unfold QueryBuilder._buildWhere.
  unfold QueryBuilder.bindM at 1. cbn [QueryBuilder.lift entries].
  unfold QueryBuilder.bindM at 1. unfold QueryBuilder.bindM at 1.
  cbn [QueryBuilder.forEach fst snd].
  unfold QueryBuilder.bindM at 1.
  assert (Hnode : forall parent st,
             WhereTree.context parent = Logical ->
             QueryBuilder._buildWhereNode heap rand model ROWID pkValue parent st
             = Throw (NoFieldNamed ROWID)).
  { intros parent st Hctx.
    assert (Hmapped : QueryBuilder._buildMappedOperator heap rand model "=" ROWID pkValue
                        parent st = Throw (NoFieldNamed ROWID)).
    { unfold QueryBuilder._buildMappedOperator, QueryBuilder._attachColumn.
      cbn [indexOf]. change (indexOf ROWID "$") with (@None nat).
      unfold QueryBuilder.bindM, QueryBuilder.lift, Model.getFieldWrapperChecked.
      rewrite Habsent. reflexivity. }
    unfold isScalar in Hscalar. apply negb_true_iff in Hscalar.
    destruct pkValue; cbn [QueryBuilder._buildWhereNode];
      change (startsWith ROWID "$") with false; cbn match; rewrite Hctx;
      try rewrite Hscalar; try exact Hmapped; discriminate. }
  rewrite Hnode; reflexivity.
Qed.

Lemma X14_findByPK_witness :
  buildSelect shopHeap sampleRand 2 (findByPKOptions (shopHeap 2) (JNum 7))
  = Throw (NoFieldNamed ROWID).
Proof.
  apply X14_findByPK_without_primary_key; reflexivity.
Defined.
Lemma linkedShop_owned :
  Forall (fun d => RelationFieldData.model d = 1)
    (Model._relationFields (linkedShopHeap 1)).
Proof. repeat constructor. Qed.

Lemma X10_compile_errors_witness :
  exists e,
    buildUpdate linkedShopHeap sampleRand 1
      (UpdateOptions.mk (Some (JObj [("invoices$total", JNum 1)])) [("name", JStr "x")])
    = Throw e
    /\ compileError e = true.
Proof.
  exists (NoRelationFieldFound "invoices$total").
  assert (Hthrow : buildUpdate linkedShopHeap sampleRand 1
                     (UpdateOptions.mk (Some (JObj [("invoices$total", JNum 1)]))
                        [("name", JStr "x")])
                   = Throw (NoRelationFieldFound "invoices$total")) by reflexivity.
  split; [exact Hthrow|].
  exact (proj1 (proj2 (X10_compile_errors linkedShopHeap sampleRand 1 linkedShop_owned))
           _ _ Hthrow).
Defined.

Lemma X11_select_constraint_witness :
  match buildSelect shopHeap sampleRand 1
          (FindOptions.mk (Some (JObj [("id", JNum 3)])) (Some 5%Z) (Some 10%Z) None
             (Some [SortName "name"]) None) with
  | Ok q =>
      exists columns joins,
        selectQuery q
        = "SELECT " +:+ join ", " columns +:+ " FROM customer " +:+ joins
            +:+ " WHERE customer.id = :uniq_10 LIMIT 5 OFFSET 10"
            +:+ " ORDER BY name COLLATE NOCASE ASC"
  | Throw _ => False
  end.
Proof.
  set (options := FindOptions.mk (Some (JObj [("id", JNum 3)])) (Some 5%Z) (Some 10%Z) None
                    (Some [SortName "name"]) None).
  destruct (buildSelect shopHeap sampleRand 1 options) as [q|e] eqn:Hbuild;
    [|vm_compute in Hbuild; discriminate].
  assert (Hlimit : forall limit, FindOptions.limit options = Some limit ->
                                 isSafeInteger limit = true).
  { intros limit Heq. injection Heq as <-. reflexivity. }
  assert (Hoffset : forall offset, FindOptions.offset options = Some offset ->
                                   isSafeInteger offset = true).
  { intros offset Heq. injection Heq as <-. reflexivity. }
  destruct (X11_select_constraint_order shopHeap sampleRand 1 options q Hlimit Hoffset Hbuild)
    as (criteria & columns & joins & Hwhere & Htext & _).
  vm_compute in Hwhere. injection Hwhere as <-.
  exists columns, joins. rewrite Htext. reflexivity.
Defined.

Lemma X12_plain_criteria_witness :
  exists q,
    buildRemove shopHeap sampleRand 1
      (RemoveOptions.mk (Some (JObj [("id", JNum 3); ("name", JStr "Ann")]))) = Ok q
    /\ query q = "DELETE FROM customer WHERE (customer.id = :uniq_10) AND (customer.name = :uniq_11)".
Proof.
  eexists. split.
  - apply (X12_plain_criteria_are_equalities shopHeap sampleRand 1
             [("id", JNum 3); ("name", JStr "Ann")] [JNum 3; JStr "Ann"]).
    + repeat constructor; cbn [fst snd].
      * exists (FieldSpecWrapper.mk "id" integerKey). repeat split.
      * exists (FieldSpecWrapper.mk "name" textField). repeat split.
    + discriminate.
    + discriminate.
  - reflexivity.
Defined.

(** ** The schema *)

(** What one pass of the loop over the fields adds for a field. *)
Lemma columnsLoop_step (modelName fieldName : string) (w : FieldSpecWrapper.t)
    (rest : list (string * FieldSpecWrapper.t)) (k : nat) (columns : list string) :
  let flagged := is_true_flag (primaryKey (FieldSpecWrapper.fieldSpec w)) in
  Database.columnsLoop modelName ((fieldName, w) :: rest) k columns
  = if flagged && (1 <=? k)%nat
    then Throw (MultiplePrimaryKeys modelName)
    else match convertedDefault w with
         | Throw e => Throw e
         | Ok defValue =>
             Database.columnsLoop modelName rest (if flagged then S k else k)
               (columns ++ [columnDefinition fieldName (FieldSpecWrapper.fieldSpec w) defValue])
         end.
Proof.
  cbn zeta. cbn [Database.columnsLoop]. unfold convertedDefault, columnDefinition.
  destruct (is_true_flag (primaryKey (FieldSpecWrapper.fieldSpec w))); cbn [andb];
    [change (1 <? S k)%nat with (1 <=? k)%nat; destruct (1 <=? k)%nat; [reflexivity|]|];
    destruct (typeHint (FieldSpecWrapper.fieldSpec w)),
             (is_true_flag (unique (FieldSpecWrapper.fieldSpec w))),
             (collation (FieldSpecWrapper.fieldSpec w)),
             (is_false_flag (allowNull (FieldSpecWrapper.fieldSpec w)));
    (destruct (defaultValue (FieldSpecWrapper.fieldSpec w)) as [dv|]; [|reflexivity]);
    (destruct (loose_eq_null dv); cbn [negb]; [reflexivity|]);
    (destruct (FieldSpecWrapper.convertToDatabaseForm w dv) as [v|e]; [|reflexivity]);
    destruct v; reflexivity.
Qed.

Lemma columnsLoop_columns (modelName : string) (spec : list (string * FieldSpecWrapper.t)) :
  forall (k : nat) (columns : list string),
    match Database.columnsLoop modelName spec k columns with
    | Ok out =>
        exists new,
          out = columns ++ new
          /\ Forall2 (fun kv column =>
                        exists defValue,
                          convertedDefault (snd kv) = Ok defValue
                          /\ column = columnDefinition (fst kv)
                                        (FieldSpecWrapper.fieldSpec (snd kv)) defValue)
               spec new
    | Throw e =>
        e = MultiplePrimaryKeys modelName
        \/ exists kv, In kv spec /\ convertedDefault (snd kv) = Throw e
    end.
Proof.
  induction spec as [|[fieldName w] rest IH]; intros k columns.
  - exists []. rewrite app_nil_r. split; [reflexivity|constructor].
  - rewrite columnsLoop_step.
    destruct (_ && _)%bool; [left; reflexivity|].
    destruct (convertedDefault w) as [defValue|e] eqn:Hdefault.
    + match goal with
      | |- context [Database.columnsLoop modelName rest ?k' ?acc] =>
          specialize (IH k' acc); destruct (Database.columnsLoop modelName rest k' acc)
            as [out|e]
      end.
      * destruct IH as (new & -> & Hall). eexists. rewrite <- app_assoc.
        split; [reflexivity|]. constructor; [|exact Hall].
        exists defValue. split; [exact Hdefault|reflexivity].
      * destruct IH as [->|(kv & Hin & Hkv)]; [left; reflexivity|].
        right. exists kv. split; [right; exact Hin|exact Hkv].
    + right. exists (fieldName, w). split; [left; reflexivity|exact Hdefault].
Qed.

Lemma convertedDefault_error (w : FieldSpecWrapper.t) (e : Error) :
  convertedDefault w = Throw e -> e = InvalidPropertyValue (FieldSpecWrapper.fieldName w).
Proof.
  unfold convertedDefault.
  destruct (defaultValue (FieldSpecWrapper.fieldSpec w)) as [dv|]; [|discriminate].
  destruct (loose_eq_null dv); [discriminate|].
  destruct (FieldSpecWrapper.convertToDatabaseForm w dv) as [v|e'] eqn:Hconv; [discriminate|].
  intros Heq. injection Heq as <-. apply convertToDatabaseForm_error in Hconv. exact Hconv.
Qed.

Lemma tablesLoop_tables (heap : Heap) (models : list ModelRef) :
  forall acc,
    match Database.tablesLoop heap models acc with
    | Ok out =>
        exists tables,
          out = acc ++ tables
          /\ Forall2 (fun ref table =>
                        primaryKeyFields (heap ref) <= 1
                        /\ exists columns,
                             Forall2 (fun kv column =>
                                        exists defValue,
                                          convertedDefault (snd kv) = Ok defValue
                                          /\ column
                                             = columnDefinition (fst kv)
                                                 (FieldSpecWrapper.fieldSpec (snd kv)) defValue)
                               (Model._spec (heap ref)) columns
                             /\ table = "CREATE TABLE " +:+ Model.name (heap ref) +:+ "("
                                          +:+ join ", " (columns
                                                           ++ Model._constraints (heap ref))
                                          +:+ ")")
               models tables
    | Throw e =>
        exists ref,
          In ref models
          /\ ((e = MultiplePrimaryKeys (Model.name (heap ref))
               /\ 2 <= primaryKeyFields (heap ref))
              \/ exists w, In w (Model.fields (heap ref))
                           /\ convertedDefault w = Throw e
                           /\ e = InvalidPropertyValue (FieldSpecWrapper.fieldName w))
    end.
Proof.
  induction models as [|ref rest IH]; intros acc.
  - exists []. rewrite app_nil_r. split; [reflexivity|constructor].
  - cbn [Database.tablesLoop].
    pose proof (columnsLoop_columns (Model.name (heap ref)) (Model._spec (heap ref)) 0 [])
      as Hcols.
    destruct (Database.columnsLoop _ _ 0 []) as [columns|e] eqn:Hloop.
    + destruct Hcols as (new & -> & Hnew). cbn [app].
      assert (Hsingle : primaryKeyFields (heap ref) <= 1).
      { destruct (le_lt_dec (primaryKeyFields (heap ref)) 1) as [Hle|Hlt]; [exact Hle|].
        destruct (columnsLoop_too_many (Model.name (heap ref)) (Model._spec (heap ref)) 0 [])
          as [e He]; [lia|unfold primaryKeyFields in Hlt; lia|].
        rewrite He in Hloop. discriminate. }
      match goal with
      | |- context [Database.tablesLoop heap rest ?acc'] =>
          specialize (IH acc'); destruct (Database.tablesLoop heap rest acc') as [out|e]
      end.
      * destruct IH as (tables & -> & Hall). eexists. rewrite <- app_assoc.
        split; [reflexivity|]. constructor; [|exact Hall].
        split; [exact Hsingle|]. exists new. split; [exact Hnew|reflexivity].
      * destruct IH as (r & Hin & Hr). exists r. split; [right; exact Hin|exact Hr].
    + exists ref. split; [left; reflexivity|].
      destruct Hcols as [->|(kv & Hin & Hkv)].
      * left. split; [reflexivity|].
        destruct (le_lt_dec 2 (primaryKeyFields (heap ref))) as [Hle|Hlt]; [exact Hle|].
        exfalso. revert Hloop. apply columnsLoop_single_key.
        unfold primaryKeyFields in Hlt. lia.
      * right. exists (snd kv). split; [unfold Model.fields; apply in_map; exact Hin|].
        split; [exact Hkv|apply convertedDefault_error; exact Hkv].
Qed.

(** X8: what [createSchema] returns.  Either the schema is one
    [CREATE TABLE] per registered model, in registration order, each
    listing the definition of every column in field order (the name, then
    the type, [PRIMARY KEY], [UNIQUE], the collation, [NOT NULL] and the
    converted default value as far as the field has them), followed by the
    constraints of the model in the order they were added, and no model has
    two fields flagged as primary key; or it fails on a registered model:
    with the compound-key error, the model having two flagged fields, or
    with the error of a field that rejects its own default value. *)
Theorem X8_createSchema_outcome :
  forall (C : Type) (db : Database.t C),
    match Database.createSchema db with
    | Ok schema =>
        exists tables,
          schema = join "; " tables
          /\ Forall2 (fun ref table =>
                        let m := Database.heap db ref in
                        primaryKeyFields m <= 1
                        /\ exists columns,
                             Forall2 (fun kv column =>
                                        exists defValue,
                                          convertedDefault (snd kv) = Ok defValue
                                          /\ column
                                             = columnDefinition (fst kv)
                                                 (FieldSpecWrapper.fieldSpec (snd kv)) defValue)
                               (Model._spec m) columns
                             /\ table = "CREATE TABLE " +:+ Model.name m +:+ "("
                                          +:+ join ", " (columns ++ Model._constraints m)
                                          +:+ ")")
               (Database._models db) tables
    | Throw e =>
        exists ref,
          In ref (Database._models db)
          /\ let m := Database.heap db ref in
             (e = MultiplePrimaryKeys (Model.name m) /\ 2 <= primaryKeyFields m)
             \/ exists w, In w (Model.fields m)
                          /\ convertedDefault w = Throw e
                          /\ e = InvalidPropertyValue (FieldSpecWrapper.fieldName w)
    end.
Proof.
  intros C db. unfold Database.createSchema.
  pose proof (tablesLoop_tables (Database.heap db) (Database._models db) []) as H.
  destruct (Database.tablesLoop _ _ []) as [tables|e]; [|exact H].
  destruct H as (tables' & -> & Hall). exists tables'. split; [reflexivity|exact Hall].
Qed.

(** ** The primary key *)

Lemma find_primary_some (l : list (string * FieldSpecWrapper.t)) :
  1 <= List.length (List.filter isPrimaryEntry l) ->
  exists l1 k w l2,
    l = l1 ++ (k, w) :: l2
    /\ is_true_flag (primaryKey (FieldSpecWrapper.fieldSpec w)) = true
    /\ List.find (fun x => is_true_flag (primaryKey (FieldSpecWrapper.fieldSpec x)))
         (map snd l) = Some w.
Proof.
  induction l as [|[k w] l IH]; cbn [List.filter List.length]; [lia|].
  unfold isPrimaryEntry at 1. cbn [snd map List.find].
  destruct (is_true_flag (primaryKey (FieldSpecWrapper.fieldSpec w))) eqn:Hp.
  - intros _. exists [], k, w, l. auto.
  - intros H. destruct (IH H) as (l1 & k' & w' & l2 & -> & Hw & Hfind).
    exists ((k, w) :: l1), k', w', l2. auto.
Qed.

Lemma assoc_of_NoDup {A : Type} (l1 l2 : list (string * A)) (k : string) (a : A) :
  NoDup (map fst (l1 ++ (k, a) :: l2)) -> assoc k (l1 ++ (k, a) :: l2) = Some a.
Proof.
  intros Hnodup. rewrite assoc_app.
  destruct (assoc k l1) as [a'|] eqn:Hl1.
  - exfalso. rewrite map_app in Hnodup. cbn [map fst] in Hnodup.
    apply NoDup_ListNoDup in Hnodup. apply List.NoDup_remove_2 in Hnodup.
    apply Hnodup. apply in_or_app. left.
    destruct (in_dec string_dec k (map fst l1)) as [Hin|Hout]; [exact Hin|].
    apply assoc_None_not_key in Hout. congruence.
  - cbn [assoc]. rewrite String.eqb_refl. reflexivity.
Qed.

Lemma find_primary_none (l : list (string * FieldSpecWrapper.t)) :
  List.length (List.filter isPrimaryEntry l) = 0 ->
  List.find (fun x => is_true_flag (primaryKey (FieldSpecWrapper.fieldSpec x))) (map snd l)
  = None.
Proof.
  induction l as [|[k w] l IH]; [reflexivity|].
  cbn [List.filter map snd List.find]. unfold isPrimaryEntry at 1. cbn [snd].
  destruct (is_true_flag (primaryKey (FieldSpecWrapper.fieldSpec w))); [discriminate|].
  exact IH.
Qed.

Lemma find_primary_first (l : list (string * FieldSpecWrapper.t)) :
  1 <= List.length (List.filter isPrimaryEntry l) ->
  exists l1 k w l2,
    l = l1 ++ (k, w) :: l2
    /\ Forall (fun kv => is_true_flag (primaryKey (FieldSpecWrapper.fieldSpec (snd kv))) = false)
         l1
    /\ is_true_flag (primaryKey (FieldSpecWrapper.fieldSpec w)) = true
    /\ List.find (fun x => is_true_flag (primaryKey (FieldSpecWrapper.fieldSpec x)))
         (map snd l) = Some w.
Proof.
  induction l as [|[k w] l IH]; cbn [List.filter List.length]; [lia|].
  unfold isPrimaryEntry at 1. cbn [snd map List.find].
  destruct (is_true_flag (primaryKey (FieldSpecWrapper.fieldSpec w))) eqn:Hp.
  - intros _. exists [], k, w, l. repeat split; [constructor|exact Hp].
  - intros H. destruct (IH H) as (l1 & k' & w' & l2 & -> & Hbefore & Hw & Hfind).
    exists ((k, w) :: l1), k', w', l2. repeat split; [|exact Hw|exact Hfind].
    constructor; [exact Hp|exact Hbefore].
Qed.

Lemma makeColumnList_columns (m : Model.t) (prefix : option string) :
  QueryBuilder._makeColumnListForModel m prefix
  = map (selectedColumn prefix) (map FieldSpecWrapper.fieldName (Model.fields m))
    ++ (if (primaryKeyFields m =? 0)%nat
        then [asAlias (Model.name m +:+ "." +:+ ROWID)]
        else []).
Proof.
  unfold QueryBuilder._makeColumnListForModel. rewrite map_map.
  assert (Hmap : map (fun fsw =>
                        match prefix with
                        | Some p =>
                            if negb (String.length p =? 0)%nat
                            then
                              (p +:+ "." +:+ FieldSpecWrapper.fieldName fsw) +:+ " AS "
                                +:+ dquote +:+ (p +:+ "." +:+ FieldSpecWrapper.fieldName fsw)
                                +:+ dquote
                            else FieldSpecWrapper.fieldName fsw
                        | None => FieldSpecWrapper.fieldName fsw
                        end) (Model.fields m)
                 = map (fun x => selectedColumn prefix (FieldSpecWrapper.fieldName x))
                     (Model.fields m)).
  { apply map_ext. intros fsw. unfold selectedColumn, Relations.given.
    destruct prefix as [p|]; [|reflexivity].
    destruct (String.length p =? 0)%nat; reflexivity. }
  destruct (primaryKeyFields m =? 0)%nat eqn:Hcount.
  - apply Nat.eqb_eq in Hcount. unfold Model.fields in *.
    rewrite (find_primary_none _ Hcount), Hmap. reflexivity.
  - apply Nat.eqb_neq in Hcount.
    assert (Hsome : 1 <= primaryKeyFields m) by lia.
    destruct (find_primary_some _ Hsome) as (_ & _ & w & _ & _ & _ & Hfind).
    unfold Model.fields in *. rewrite Hfind, Hmap, app_nil_r. reflexivity.
Qed.

(** X9: how the primary key is resolved.  The columns selected for a model
    under a prefix are its fields in definition order, each as
    [prefix.field AS "prefix.field"] (bare without prefix), followed by
    [model.rowid AS "model.rowid"] exactly when no field is flagged.  In a
    well-formed field table, a model without a flagged field is keyed by
    the implicit [rowid]; a model with one is keyed by the first field
    flagged, in definition order, a field it really declares; and adding a
    field does not move the key unless the model had none and the new
    field is flagged. *)
Theorem X9_primary_key_resolution :
  forall (m : Model.t),
    fieldsWellFormed m ->
    (forall prefix,
        QueryBuilder._makeColumnListForModel m prefix
        = map (selectedColumn prefix) (map FieldSpecWrapper.fieldName (Model.fields m))
          ++ (if (primaryKeyFields m =? 0)%nat
              then [asAlias (Model.name m +:+ "." +:+ ROWID)]
              else []))
    /\ (primaryKeyFields m = 0 -> Model.getPrimaryKeyName m = ROWID)
    /\ (1 <= primaryKeyFields m ->
        exists before w after,
          Model.fields m = before ++ w :: after
          /\ Forall (fun x => is_true_flag (primaryKey (FieldSpecWrapper.fieldSpec x)) = false)
               before
          /\ is_true_flag (primaryKey (FieldSpecWrapper.fieldSpec w)) = true
          /\ Model.getPrimaryKeyName m = FieldSpecWrapper.fieldName w
          /\ Model.getFieldWrapper m (FieldSpecWrapper.fieldName w) = Own w)
    /\ (forall name fs m',
           Model.addField m name fs = Ok m' ->
           1 <= primaryKeyFields m \/ is_true_flag (primaryKey fs) = false ->
           Model.getPrimaryKeyName m' = Model.getPrimaryKeyName m).
Proof.
  intros m [Hnodup Hall]. split; [|split; [|split]].
  - intros prefix. apply makeColumnList_columns.
  - intros Hnone. pose proof (find_primary_none _ Hnone) as Hfind.
    unfold Model.getPrimaryKeyName, Model.fields. rewrite Hfind. reflexivity.
  - intros Hsome.
    destruct (find_primary_first _ Hsome) as (l1 & k & w & l2 & Hspec & Hbefore & Hw & Hfind).
    exists (map snd l1), w, (map snd l2).
    split; [unfold Model.fields; rewrite Hspec, map_app; reflexivity|].
    split.
    { clear -Hbefore. induction Hbefore; cbn [map]; constructor; assumption. }
    split; [exact Hw|].
    assert (Hname : FieldSpecWrapper.fieldName w = k).
    { rewrite Hspec in Hall. apply Forall_app in Hall as [_ Hall].
      apply Forall_cons in Hall as [(_ & Hname & _) _]. exact Hname. }
    split.
    + unfold Model.getPrimaryKeyName, Model.fields. rewrite Hfind. reflexivity.
    + rewrite Hname. unfold Model.getFieldWrapper, object_get.
      rewrite Hspec in Hnodup |- *. rewrite (assoc_of_NoDup _ _ _ _ Hnodup). reflexivity.
  - intros name fs m' Hadd Hcase. apply addField_ok_inv in Hadd as (_ & _ & ->).
    unfold Model.getPrimaryKeyName, Model.fields. cbn [Model._spec].
    rewrite map_app. cbn [map snd].
    rewrite (find_snoc_fresh
               (fun fsw => is_true_flag (primaryKey (FieldSpecWrapper.fieldSpec fsw)))).
    cbn [FieldSpecWrapper.fieldSpec].
    destruct Hcase as [Hsome|Hplain].
    + destruct (find_primary_some _ Hsome) as (_ & _ & w & _ & _ & _ & Hfind).
      rewrite Hfind. reflexivity.
    + rewrite Hplain. destruct (List.find _ _); reflexivity.
Qed.

Lemma X9_primary_key_witness :
  Model.getPrimaryKeyName invoiceModel = ROWID
  /\ QueryBuilder._makeColumnListForModel invoiceModel (Some "bills")
     = [ "bills.number AS " +:+ dquote +:+ "bills.number" +:+ dquote;
         "invoice.rowid AS " +:+ dquote +:+ "invoice.rowid" +:+ dquote ]
  /\ Model.getPrimaryKeyName customerModel = "id".
Proof.
  assert (Hinvoice : fieldsWellFormed invoiceModel).
  { exact (proj1 (proj1 shopDatabase_wellFormed 2)). }
  assert (Hcustomer : fieldsWellFormed customerModel).
  { exact (proj1 (proj1 shopDatabase_wellFormed 1)). }
  split; [|split].
  - exact (proj1 (proj2 (X9_primary_key_resolution invoiceModel Hinvoice)) eq_refl).
  - rewrite (proj1 (X9_primary_key_resolution invoiceModel Hinvoice) (Some "bills")). reflexivity.
  - destruct (proj1 (proj2 (proj2 (X9_primary_key_resolution customerModel Hcustomer))) (le_n 1))
      as (before & w & after & Hfields & Hbefore & _ & Hname & _).
    rewrite Hname. destruct before as [|b before].
    + injection Hfields as <- _. reflexivity.
    + apply Forall_cons in Hbefore as [Hb _]. injection Hfields as <- _. discriminate.
Defined.

(** ** Flushing the schema *)

(** X15: the schema is flushed at most once.  After [flushSchema] has
    succeeded, the registry is what it was and every later [flushSchema]
    fails without reaching the connection, also after a further [define]:
    a model defined after the flush never gets its table.  A [flushSchema]
    that fails leaves the flag as it was. *)
Theorem X15_schema_flushed_once :
  forall (C : Type) (conn : AbstractConnection C) (db db1 : Database.t C) (r : Result unit),
    Database.flushSchema db = (r, db1) ->
    Database._models db1 = Database._models db
    /\ Database.heap db1 = Database.heap db
    /\ match r with
       | Ok _ =>
           Database.flushSchema db1 = (Throw SchemaAlreadyFlushed, db1)
           /\ forall name spec options ref db2,
                Database.define db1 name spec options = Ok (ref, db2) ->
                Database.flushSchema db2 = (Throw SchemaAlreadyFlushed, db2)
       | Throw _ => Database._schemaFlushed db1 = Database._schemaFlushed db
       end.
Proof.
  intros C conn db db1 r. unfold Database.flushSchema at 1.
  destruct (Database._schemaFlushed db) eqn:Hflag.
  { intros H. injection H as <- <-. auto. }
  destruct (Database.createSchema db) as [schema|e].
  2: { intros H. injection H as <- <-. auto. }
  destruct (Database._connection db) as [c|].
  2: { intros H. injection H as <- <-. auto. }
  destruct (exec schema c) as [[u|e] c'].
  - intros H. injection H as <- <-. cbn. split; [reflexivity|]. split; [reflexivity|].
    split; [reflexivity|].
    intros name spec options ref db2 Hdef.
    apply define_inv in Hdef as (_ & _ & _ & _ & _ & _ & _ & _ & _ & Hflag2).
    unfold Database.flushSchema. rewrite Hflag2. reflexivity.
  - intros H. injection H as <- <-. cbn. auto.
Qed.

Lemma X15_schema_flushed_witness :
  exists db1,
    Database.flushSchema shopDatabase = (Ok tt, db1)
    /\ Database.flushSchema db1 = (Throw SchemaAlreadyFlushed, db1).
Proof.
  eexists. split; [reflexivity|].
  exact (proj1 (proj2 (proj2 (X15_schema_flushed_once _ _ shopDatabase _ (Ok tt) eq_refl)))).
Defined.

(** ** Instances *)

Lemma set_rowId_frame (heap : Heap) (inst : DatabaseInstance.t) (value : JsValue) :
  DatabaseInstance.model (DatabaseInstance.set_rowId heap inst value)
  = DatabaseInstance.model inst
  /\ DatabaseInstance.created (DatabaseInstance.set_rowId heap inst value)
     = DatabaseInstance.created inst
  /\ DatabaseInstance.relations (DatabaseInstance.set_rowId heap inst value)
     = DatabaseInstance.relations inst
  /\ DatabaseInstance.rowId (DatabaseInstance.set_rowId heap inst value) = value
  /\ forall key,
       is_Some (DatabaseInstance.fields (DatabaseInstance.set_rowId heap inst value) !! key)
       <-> is_Some (DatabaseInstance.fields inst !! key).
Proof.
  unfold DatabaseInstance.set_rowId. cbn. repeat split; try reflexivity.
  - destruct (bool_decide _) eqn:Hpk; [|auto].
    apply bool_decide_eq_true in Hpk.
    destruct (String.eqb_spec (Model.getPrimaryKeyName (heap (DatabaseInstance.model inst)))
                key) as [<-|Hne].
    + intros _. exact Hpk.
    + rewrite lookup_insert_ne by exact Hne. auto.
  - destruct (bool_decide _) eqn:Hpk; [|auto].
    destruct (String.eqb_spec (Model.getPrimaryKeyName (heap (DatabaseInstance.model inst)))
                key) as [<-|Hne].
    + intros _. rewrite lookup_insert_eq. eauto.
    + rewrite lookup_insert_ne by exact Hne. auto.
Qed.

Lemma fieldsFromResult_inv (heap : Heap) (this : Model.t)
    (sqlResult : list (string * JsValue)) (prefix : option string)
    (fields : list FieldSpecWrapper.t) :
  forall result result',
    fieldsFromResult heap this sqlResult prefix fields result = Done result' ->
    DatabaseInstance.model result' = DatabaseInstance.model result
    /\ DatabaseInstance.created result' = DatabaseInstance.created result
    /\ DatabaseInstance.relations result' = DatabaseInstance.relations result
    /\ (forall key, is_Some (DatabaseInstance.fields result !! key) ->
                    is_Some (DatabaseInstance.fields result' !! key))
    /\ (forall field, In field fields ->
                      is_Some (DatabaseInstance.fields result'
                               !! FieldSpecWrapper.fieldName field)).
Proof.
  induction fields as [|field rest IH]; intros result result'; cbn [fieldsFromResult].
  - intros H. injection H as <-. repeat split; auto. intros field [].
  - destruct (assoc "hasOwnProperty" sqlResult); [discriminate|].
    destruct (assoc _ sqlResult) as [raw|]; [|discriminate].
    set (value := FieldSpecWrapper.convertFromDatabaseForm field raw).
    set (stored := DatabaseInstance.mk (DatabaseInstance.model result)
                     (<[FieldSpecWrapper.fieldName field := value]>
                        (DatabaseInstance.fields result))
                     (DatabaseInstance.created result) (DatabaseInstance.rowId result)
                     (DatabaseInstance.relations result)).
    intros Hrest. apply IH in Hrest as (Hm & Hc & Hr & Hkeep & Hrest).
    assert (Hstored :
              DatabaseInstance.model
                (if is_true_flag (primaryKey (FieldSpecWrapper.fieldSpec field))
                 then DatabaseInstance.set_rowId heap stored value else stored)
              = DatabaseInstance.model result
              /\ DatabaseInstance.created
                   (if is_true_flag (primaryKey (FieldSpecWrapper.fieldSpec field))
                    then DatabaseInstance.set_rowId heap stored value else stored)
                 = DatabaseInstance.created result
              /\ DatabaseInstance.relations
                   (if is_true_flag (primaryKey (FieldSpecWrapper.fieldSpec field))
                    then DatabaseInstance.set_rowId heap stored value else stored)
                 = DatabaseInstance.relations result
              /\ forall key,
                   is_Some (DatabaseInstance.fields
                              (if is_true_flag (primaryKey (FieldSpecWrapper.fieldSpec field))
                               then DatabaseInstance.set_rowId heap stored value else stored)
                            !! key)
                   <-> is_Some (DatabaseInstance.fields stored !! key)).
    { destruct (is_true_flag _); [|repeat split; auto].
      destruct (set_rowId_frame heap stored value) as (H1 & H2 & H3 & _ & H5).
      repeat split; try assumption; apply H5. }
    destruct Hstored as (Hm' & Hc' & Hr' & Hf').
    split; [congruence|]. split; [congruence|]. split; [congruence|]. split.
    + intros key Hkey. apply Hkeep, Hf'. cbn [stored DatabaseInstance.fields].
      destruct (String.eqb_spec (FieldSpecWrapper.fieldName field) key) as [<-|Hne].
      * rewrite lookup_insert_eq. eauto.
      * rewrite lookup_insert_ne by exact Hne. exact Hkey.
    + intros f [<-|Hin]; [|apply Hrest; exact Hin].
      apply Hkeep, Hf'. cbn [stored DatabaseInstance.fields].
      rewrite lookup_insert_eq. eauto.
Qed.

(** X16: an instance read from a row is a good one.  When
    [buildFromDatabaseResult] returns, the instance is marked created, has
    a row id that is not null, holds a value for every field the model
    declares and an accessor for exactly the relations it declares: the
    guard of the relation accessors accepts it. *)
Theorem X16_instance_from_row_is_good :
  forall (heap : Heap) (model : ModelRef) (sqlResult : list (string * JsValue))
         (prefix : option string) (inst : DatabaseInstance.t),
    buildFromDatabaseResult heap model sqlResult prefix = Done inst ->
    DatabaseInstance.model inst = model
    /\ DatabaseInstance.created inst = true
    /\ loose_eq_null (DatabaseInstance.rowId inst) = false
    /\ DbRelation._ensureGood inst = Ok tt
    /\ (forall field, In field (Model.fields (heap model)) ->
                      is_Some (DatabaseInstance.fields inst
                               !! FieldSpecWrapper.fieldName field))
    /\ relations_declared heap inst.
Proof.
  intros heap model sqlResult prefix inst. unfold buildFromDatabaseResult.
  destruct (fieldsFromResult heap (heap model) sqlResult prefix (Model.fields (heap model))
              (DatabaseInstance.new model)) as [result|f] eqn:Hloop; [|discriminate].
  apply fieldsFromResult_inv in Hloop as (Hm & Hc & Hr & _ & Hfields).
  cbn [DatabaseInstance.new DatabaseInstance.model DatabaseInstance.created
         DatabaseInstance.relations] in Hm, Hc, Hr.
  assert (Hgood : forall final,
             DatabaseInstance.model final = model ->
             DatabaseInstance.relations final = ∅ ->
             loose_eq_null (DatabaseInstance.rowId final) = false ->
             (forall key, is_Some (DatabaseInstance.fields result !! key) ->
                          is_Some (DatabaseInstance.fields final !! key)) ->
             Done (_makeInstance heap
                     (DatabaseInstance.mk (DatabaseInstance.model final)
                        (DatabaseInstance.fields final) true
                        (DatabaseInstance.rowId final) (DatabaseInstance.relations final)))
             = Done inst ->
             DatabaseInstance.model inst = model
             /\ DatabaseInstance.created inst = true
             /\ loose_eq_null (DatabaseInstance.rowId inst) = false
             /\ DbRelation._ensureGood inst = Ok tt
             /\ (forall field, In field (Model.fields (heap model)) ->
                               is_Some (DatabaseInstance.fields inst
                                        !! FieldSpecWrapper.fieldName field))
             /\ relations_declared heap inst).
  { intros final Hfm Hfr Hrow Hkeep H. injection H as <-.
    split; [exact Hfm|]. split; [reflexivity|]. split; [exact Hrow|]. split.
    - unfold DbRelation._ensureGood.
      cbn [_makeInstance DatabaseInstance.rowId DatabaseInstance.created].
      rewrite Hrow. reflexivity.
    - split.
      + intros field Hin. cbn [_makeInstance DatabaseInstance.fields].
        apply Hkeep, Hfields, Hin.
      + apply makeInstance_relations_declared. exact Hfr. }
  destruct (loose_eq_null (DatabaseInstance.rowId result)) eqn:Hnull.
  - destruct (assoc ROWID sqlResult) as [rowid|] eqn:Hplain.
    + destruct (negb (typeof_number rowid)) eqn:Hnum; [discriminate|].
      destruct (set_rowId_frame heap result rowid) as (H1 & _ & H3 & H4 & H5).
      apply Hgood; [congruence|congruence| |intros key; apply H5].
      rewrite H4. destruct rowid; try discriminate. reflexivity.
    + destruct (assoc (Model.name (heap model) +:+ "." +:+ ROWID) sqlResult) as [rowid|];
        [|discriminate].
      destruct (negb (typeof_number rowid)) eqn:Hnum; [discriminate|].
      destruct (set_rowId_frame heap result rowid) as (H1 & _ & H3 & H4 & H5).
      apply Hgood; [congruence|congruence| |intros key; apply H5].
      rewrite H4. destruct rowid; try discriminate. reflexivity.
  - apply Hgood; auto.
Qed.

Lemma X16_instance_from_row_witness :
  match buildFromDatabaseResult shopHeap 1
          [("customer.id", JNum 4); ("customer.name", JStr "Ann")] (Some "customer") with
  | Done inst => DbRelation._ensureGood inst = Ok tt
  | Fail _ => False
  end.
Proof.
  destruct (buildFromDatabaseResult shopHeap 1
              [("customer.id", JNum 4); ("customer.name", JStr "Ann")] (Some "customer"))
    as [inst|f] eqn:Hbuild; [|vm_compute in Hbuild; discriminate].
  exact (proj1 (proj2 (proj2 (proj2 (X16_instance_from_row_is_good _ _ _ _ _ Hbuild))))).
Defined.
(** ** Writing instances *)

Section Lifecycle.

Context {C : Type} `{AbstractConnection C}.


Lemma instanceValues_not_own (heap : Heap) (inst : DatabaseInstance.t)
    (columns : list string) (key : string) :
  In key columns ->
  (forall w, Model.getFieldWrapper (heap (DatabaseInstance.model inst)) key <> Own w) ->
  exists f, instanceValues heap inst columns = Fail f.
Proof.
  intros Hin Hnot. induction columns as [|k rest IH]; [destruct Hin|].
  cbn [instanceValues]. destruct Hin as [->|Hin].
  - destruct (Model.getFieldWrapper _ key) as [w| |]; [|eauto|eauto].
    exfalso. apply (Hnot w). reflexivity.
  - destruct (match Model.getFieldWrapper _ k with
              | Own w => _ | Inherited => _ | Absent => _ end) as [value|f]; [|eauto].
    destruct (IH Hin) as [f ->]. eauto.
Qed.

End Lifecycle.



(** X18: [$remove] ends the life of a row.  When [$remove] returns, the
    instance was created before, is no longer created and has no row id,
    while its fields are what they were; the guard of the relation
    accessors now rejects it, a second [$remove] fails without reaching the
    connection, and so does an update of the instance. *)
Theorem X18_remove_uncreates :
  forall (C : Type) (conn : AbstractConnection C) (db db' : Database.t C)
         (inst inst' : Instance.t),
    Persistence.remove db inst = ((db', inst'), Done tt) ->
    DatabaseInstance.created (Instance.target inst) = true
    /\ DatabaseInstance.created (Instance.target inst') = false
    /\ DatabaseInstance.rowId (Instance.target inst') = JNull
    /\ DatabaseInstance.fields (Instance.target inst')
       = DatabaseInstance.fields (Instance.target inst)
    /\ DbRelation._ensureGood (Instance.target inst') = Throw InstanceInvalidError
    /\ (forall db2, Persistence.remove db2 inst' = ((db2, inst'), Fail InstanceNotCreated))
    /\ (forall db2 updateFields,
           Persistence.updateInstance db2 inst' updateFields
           = ((db2, inst'), Fail InstanceNotCreated)).
Proof.
  intros C conn db db' inst inst'. unfold Persistence.remove at 1.
  unfold Persistence.removeInstance at 1.
  destruct (DatabaseInstance.created (Instance.target inst)) eqn:Hcreated;
    cbn [negb]; [|discriminate].
  destruct (Database._run db _ _) as [[r|e] db1]; cbn [raise Database.discard];
    [|discriminate].
  intros Heq. injection Heq as <- <-.
  cbn [Instance.target DatabaseInstance.created DatabaseInstance.rowId
         DatabaseInstance.fields].
  repeat split.
Qed.

Lemma X18_remove_witness :
  match Persistence.flush shopDatabase (Instance.build shopHeap 1 [("name", JStr "Ann")]) None
  with
  | ((db1, inst1), _) =>
      match Persistence.remove db1 inst1 with
      | ((db2, inst2), Done _) =>
          Persistence.remove db2 inst2 = ((db2, inst2), Fail InstanceNotCreated)
      | (_, Fail _) => False
      end
  end.
Proof.
  destruct (Persistence.flush shopDatabase
              (Instance.build shopHeap 1 [("name", JStr "Ann")]) None)
    as [[db1 inst1] outcome] eqn:Hflush.
  destruct (Persistence.remove db1 inst1) as [[db2 inst2] [[]|f]] eqn:Hremove.
  - exact (proj1 (proj2 (proj2 (proj2 (proj2 (proj2
             (X18_remove_uncreates _ _ _ _ _ _ Hremove)))))) db2).
  - vm_compute in Hflush. injection Hflush as <- <- <-.
    vm_compute in Hremove. discriminate.
Defined.

(** X19: an undeclared property blocks the write.  [$set] stores a value
    under a name the model declares neither as field nor as relation, and
    touches no other field.  It reports success, unless the name is a
    member of [Object.prototype]: it then throws a [TypeError], the value
    being stored all the same.  In both cases [$flush] of all fields fails
    from then on before anything is sent, for a new instance and for a
    created one alike. *)
Theorem X19_undeclared_property_blocks_flush :
  forall (C : Type) (conn : AbstractConnection C) (db : Database.t C) (inst : Instance.t)
         (prop : string) (value : JsValue),
    let m := Database.heap db (DatabaseInstance.model (Instance.target inst)) in
    assoc prop (Model._spec m) = None ->
    DatabaseInstance.relations (Instance.target inst) !! prop = None ->
    exists inst',
      Instance.set (Database.heap db) inst prop value
      = (inst', if existsb (String.eqb prop) object_prototype_keys
                then Throw TypeError
                else Ok true)
      /\ DatabaseInstance.fields (Instance.target inst') !! prop = Some value
      /\ (forall key, key <> prop ->
                      DatabaseInstance.fields (Instance.target inst') !! key
                      = DatabaseInstance.fields (Instance.target inst) !! key)
      /\ exists f, Persistence.flush db inst' None = ((db, inst'), Fail f).
Proof.
  intros C conn db inst prop value m Hfield Hrel.
  assert (Hlookup : Model.getFieldWrapper m prop
                    = if existsb (String.eqb prop) object_prototype_keys
                      then Inherited else Absent).
  { unfold Model.getFieldWrapper, object_get. rewrite Hfield. reflexivity. }
  assert (Hnot : forall w, Model.getFieldWrapper m prop <> Own w).
  { intros w. rewrite Hlookup. destruct (existsb _ _); discriminate. }
  exists (Instance.mk
            (DatabaseInstance.mk (DatabaseInstance.model (Instance.target inst))
               (<[prop := value]> (DatabaseInstance.fields (Instance.target inst)))
               (DatabaseInstance.created (Instance.target inst))
               (DatabaseInstance.rowId (Instance.target inst))
               (DatabaseInstance.relations (Instance.target inst)))
            (Instance.firstSet (Instance.keyOrder inst) prop)).
  split.
  { unfold Instance.set, DatabaseInstance.set. rewrite Hrel. fold m. rewrite Hlookup.
    destruct (existsb _ _); reflexivity. }
  cbn [Instance.target DatabaseInstance.fields]. split; [apply lookup_insert_eq|].
  split; [intros key Hne; apply lookup_insert_ne; congruence|].
  assert (Hin : In prop (Instance.firstSet (Instance.keyOrder inst) prop)).
  { unfold Instance.firstSet.
    destruct (existsb (String.eqb prop) (Instance.keyOrder inst)) eqn:Hex.
    - apply existsb_exists in Hex as (k & Hk & Heq). apply String.eqb_eq in Heq.
      subst k. exact Hk.
    - apply in_or_app. right. left. reflexivity. }
  unfold Persistence.flush, Persistence.updateInstance, Persistence.createInstance.
  cbn [Instance.target Instance.keyOrder DatabaseInstance.created DatabaseInstance.model].
  match goal with
  | |- context [instanceValues ?h ?i ?cols] =>
      destruct (instanceValues_not_own h i cols prop Hin Hnot) as [f Hf]
  end.
  destruct (DatabaseInstance.created (Instance.target inst)); cbn [negb];
    rewrite Hf; eauto.
Qed.

Lemma X19_undeclared_property_witness :
  (exists inst',
      Instance.set shopHeap (Instance.build shopHeap 1 []) "nickname" (JStr "A")
      = (inst', Ok true)
      /\ exists f, Persistence.flush shopDatabase inst' None = ((shopDatabase, inst'), Fail f))
  /\ (exists inst',
        Instance.set shopHeap (Instance.build shopHeap 1 []) "constructor" (JStr "A")
        = (inst', Throw TypeError)
        /\ exists f, Persistence.flush shopDatabase inst' None
                     = ((shopDatabase, inst'), Fail f)).
Proof.
  split.
  - destruct (X19_undeclared_property_blocks_flush _ _ shopDatabase (Instance.build shopHeap 1 []) "nickname" (JStr "A")
                eq_refl eq_refl) as (inst' & Hset & _ & _ & Hflush).
    exists inst'. split; [exact Hset|exact Hflush].
  - destruct (X19_undeclared_property_blocks_flush _ _ shopDatabase (Instance.build shopHeap 1 []) "constructor" (JStr "A")
                eq_refl eq_refl) as (inst' & Hset & _ & _ & Hflush).
    exists inst'. split; [exact Hset|exact Hflush].
Defined.
(** ** Relation accessors *)

Section Accessors.

Context {C : Type} `{AbstractConnection C}.

Lemma primary_key_name_plain (m : Model.t) :
  fieldsWellFormed m -> isValidName (Model.getPrimaryKeyName m) = true.
Proof.
  intros [_ Hall]. unfold Model.getPrimaryKeyName, Model.fields.
  destruct (List.find _ (map snd (Model._spec m))) as [w|] eqn:Hfind; [|reflexivity].
  apply List.find_some in Hfind as [Hin _]. apply in_map_iff in Hin as (kv & <- & Hkv).
  rewrite List.Forall_forall in Hall. destruct (Hall kv Hkv) as (Hvalid & -> & _).
  exact Hvalid.
Qed.

Lemma in_list_needs_values (heap : Heap) (rand : nat -> N) (model : ModelRef)
    (key : string) (set : list (string * JsValue)) :
  isValidName key = true ->
  buildUpdate heap rand model
    (UpdateOptions.mk (Some (JObj [(key, JObj [("$in", JArr [])])])) set)
  = Throw ListOfValuesExpected.
Proof.
  intros Hvalid. destruct (valid_name_no_dollar _ Hvalid) as [_ Hstarts].
  unfold buildUpdate, run, UpdateQueryBuilder._buildUpdate.
  cbn [UpdateOptions.where_ normalizeWhere loose_eq_null].
  unfold QueryBuilder.bindM at 1. unfold QueryBuilder._buildWhere.
  unfold QueryBuilder.bindM at 1. cbn [QueryBuilder.lift entries].
  unfold QueryBuilder.bindM at 1. unfold QueryBuilder.bindM at 1.
  cbn [QueryBuilder.forEach fst snd]. unfold QueryBuilder.bindM at 1.
  cbn [QueryBuilder._buildWhereNode]. rewrite Hstarts. reflexivity.
Qed.

End Accessors.

(** X20: linking nothing.  On an instance that passes the guard, the
    one-to-many accessor refuses an empty list: [link()], [linkByPK()],
    [unlink()] and [unlinkByPK()] without arguments throw the error of an
    empty [$in] list and send nothing, while on a many-to-many accessor
    [link()] and [linkByPK()] without arguments simply do nothing. *)
Theorem X20_linking_nothing :
  forall (C : Type) (conn : AbstractConnection C) (rand : nat -> N)
         (db : Database.t C) (_inst : DatabaseInstance.t) (_d : RelationFieldData.t),
    DbRelation._ensureGood _inst = Ok tt ->
    fieldsWellFormed (Database.heap db (RelationFieldData.companionModel _d)) ->
    DbManyRelation.linkByPK rand _inst _d db [] = (Throw ListOfValuesExpected, db)
    /\ DbManyRelation.link rand _inst _d db [] = (Throw ListOfValuesExpected, db)
    /\ DbManyRelation.unlinkByPK rand _inst _d db [] = (Throw ListOfValuesExpected, db)
    /\ DbManyRelation.unlink rand _inst _d db [] = (Throw ListOfValuesExpected, db)
    /\ DbMultiRelation.linkByPK _inst _d db [] = (db, Done tt)
    /\ DbMultiRelation.link _inst _d db [] = (db, Done tt).
Proof.
  intros C conn rand db _inst _d Hgood Hwf.
  pose proof (primary_key_name_plain _ Hwf) as Hpk.
  assert (Hupdate : forall value,
             DbManyRelation.setForeignKeyIn rand _d [] value db
             = (Throw ListOfValuesExpected, db)).
  { intros value. unfold DbManyRelation.setForeignKeyIn, Database.update.
    rewrite (in_list_needs_values _ _ _ _ _ Hpk). reflexivity. }
  unfold DbManyRelation.link, DbManyRelation.unlink, DbManyRelation.linkByPK,
    DbManyRelation.unlinkByPK, DbManyRelation.guarded,
    DbMultiRelation.link, DbMultiRelation.linkByPK, DbMultiRelation.guarded.
  rewrite Hgood. cbn [_ensureRelatedPksGood _ensureRelatedInstancesGood map
                        DbMultiRelation.linkLoop].
  rewrite !Hupdate. repeat split.
Qed.

Lemma X20_linking_nothing_witness :
  DbManyRelation.link sampleRand (DatabaseInstance.mk 1 ∅ true (JNum 7) ∅)
    (RelationFieldData.Many "invoices" OneToMany 1 2 true "customerid") linkedShopDatabase []
  = (Throw ListOfValuesExpected, linkedShopDatabase).
Proof.
  refine (proj1 (proj2 (X20_linking_nothing _ _ sampleRand linkedShopDatabase
                          (DatabaseInstance.mk 1 ∅ true (JNum 7) ∅)
                          (RelationFieldData.Many "invoices" OneToMany 1 2 true "customerid")
                          eq_refl _))).
  split; cbn; repeat (constructor; cbn; auto); rewrite ?list_elem_of_In; cbn;
    intuition discriminate.
Defined.
(** X21: the guard of the accessors.  On an instance that is not created
    or has no row id, every method of the one-to-many and many-to-many
    accessors that writes, the search of the one-to-many accessor, and
    [get] and [unlink] of the single-valued accessor throw the
    invalid-instance error before anything reaches the connection.  The
    search of the many-to-many accessor has no such guard: it goes ahead
    with the missing row id as criterion. *)
Theorem X21_accessor_guard :
  forall (C : Type) (conn : AbstractConnection C) (rand : nat -> N)
         (db : Database.t C) (inst : Instance.t) (_d : RelationFieldData.t),
    let _inst := Instance.target inst in
    loose_eq_null (DatabaseInstance.rowId _inst) = true
    \/ DatabaseInstance.created _inst = false ->
    (forall pks, DbManyRelation.linkByPK rand _inst _d db pks = (Throw InstanceInvalidError, db))
    /\ (forall l, DbManyRelation.link rand _inst _d db l = (Throw InstanceInvalidError, db))
    /\ (forall pks,
           DbManyRelation.unlinkByPK rand _inst _d db pks = (Throw InstanceInvalidError, db))
    /\ (forall l, DbManyRelation.unlink rand _inst _d db l = (Throw InstanceInvalidError, db))
    /\ (forall w,
           DbManyRelation.unlinkWhere rand _inst _d db w = (Throw InstanceInvalidError, db))
    /\ DbManyRelation.unlinkAll rand _inst _d db = (Throw InstanceInvalidError, db)
    /\ (forall options,
           DbManyRelation.findOptions _inst _d options = Throw InstanceInvalidError)
    /\ (forall pks,
           DbMultiRelation.linkByPK _inst _d db pks = (db, Fail (Raised InstanceInvalidError)))
    /\ (forall l,
           DbMultiRelation.link _inst _d db l = (db, Fail (Raised InstanceInvalidError)))
    /\ (forall pks,
           DbMultiRelation.unlinkByPK rand _inst _d db pks
           = (db, Fail (Raised InstanceInvalidError)))
    /\ (forall l,
           DbMultiRelation.unlink rand _inst _d db l
           = (db, Fail (Raised InstanceInvalidError)))
    /\ (forall w,
           DbMultiRelation.unlinkWhere rand _inst _d db w
           = (db, Fail (Raised InstanceInvalidError)))
    /\ DbMultiRelation.unlinkAll rand _inst _d db = (db, Fail (Raised InstanceInvalidError))
    /\ DbSingleRelation_unlink rand db inst _d = ((db, inst), Fail (Raised InstanceInvalidError))
    /\ DbSingleRelation.get _inst _d = Throw InstanceInvalidError
    /\ DbMultiRelation.findOptions _inst _d None
       = Done (FindOptions.mk
                 (Some (JObj [(myForeignKeyOf _d, DatabaseInstance.rowId _inst)]))
                 None None None None (Some [JoinOption.mk _d JoinType.Inner])).
Proof.
  intros C conn rand db inst _d _inst Hbad.
  assert (Hguard : DbRelation._ensureGood _inst = Throw InstanceInvalidError).
  { unfold DbRelation._ensureGood. destruct Hbad as [-> | ->]; [reflexivity|].
    rewrite orb_true_r. reflexivity. }
  unfold DbManyRelation.linkByPK, DbManyRelation.link, DbManyRelation.unlinkByPK,
    DbManyRelation.unlink, DbManyRelation.unlinkWhere, DbManyRelation.unlinkAll,
    DbManyRelation.guarded, DbManyRelation.findOptions,
    DbMultiRelation.linkByPK, DbMultiRelation.link, DbMultiRelation.unlinkByPK,
    DbMultiRelation.unlink, DbMultiRelation.unlinkWhere, DbMultiRelation.unlinkAll,
    DbMultiRelation.guarded, DbSingleRelation_unlink, DbSingleRelation.get.
  fold _inst. rewrite Hguard. repeat split.
Qed.

Lemma X21_accessor_guard_witness :
  DbManyRelation.unlinkAll sampleRand (build shopHeap 1 [])
    (RelationFieldData.Many "invoices" OneToMany 1 2 true "customerid") linkedShopDatabase
  = (Throw InstanceInvalidError, linkedShopDatabase).
Proof.
  refine (proj1 (proj2 (proj2 (proj2 (proj2 (proj2
            (X21_accessor_guard _ _ sampleRand linkedShopDatabase
               (Instance.build shopHeap 1 [])
               (RelationFieldData.Many "invoices" OneToMany 1 2 true "customerid")
               _))))))).
  left. reflexivity.
Defined.

Section Unlinking.

Context {C : Type} `{AbstractConnection C}.

Lemma convert_null (w : FieldSpecWrapper.t) :
  is_false_flag (allowNull (FieldSpecWrapper.fieldSpec w)) = false ->
  FieldSpecWrapper.convertToDatabaseForm w JNull = Ok JNull.
Proof.
  intros Hallow. unfold FieldSpecWrapper.convertToDatabaseForm. rewrite Hallow. reflexivity.
Qed.

Lemma unlinkAll_update (heap : Heap) (rand : nat -> N) (companion : ModelRef)
    (fk : string) (rowId converted : JsValue) (w : FieldSpecWrapper.t) :
  Model.getFieldWrapper (heap companion) fk = Own w ->
  isValidName fk = true ->
  isScalar rowId = true ->
  FieldSpecWrapper.convertToDatabaseForm w rowId = Ok converted ->
  is_false_flag (allowNull (FieldSpecWrapper.fieldSpec w)) = false ->
  buildUpdate heap rand companion
    (UpdateOptions.mk (Some (JObj [("where", JObj []); (fk, rowId)])) [(fk, JNull)])
  = Ok {| query :=
            "UPDATE " +:+ Model.name (heap companion) +:+ " SET "
              +:+ (fk +:+ " = :" +:+ SqlBoundParams.uniqueName (rand 1))
              +:+ " WHERE () AND ("
              +:+ ((Model.name (heap companion) +:+ "." +:+ fk) +:+ " = :"
                   +:+ SqlBoundParams.uniqueName (rand 0))
              +:+ ")";
          bound := <[SqlBoundParams.uniqueName (rand 1) := JNull]>
                     (<[SqlBoundParams.uniqueName (rand 0) := converted]>
                        SqlBoundParams.empty) |}.
Proof.
  intros Hown Hvalid Hscalar Hconv Hallow.
  unfold buildUpdate, run, UpdateQueryBuilder._buildUpdate.
  cbn [UpdateOptions.where_ UpdateOptions.set normalizeWhere loose_eq_null map fst
         List.length Nat.eqb].
  unfold QueryBuilder.bindM at 1. unfold QueryBuilder._buildWhere.
  unfold QueryBuilder.bindM at 1. cbn [QueryBuilder.lift entries].
  unfold QueryBuilder.bindM at 1. unfold QueryBuilder.bindM at 1.
  cbn [QueryBuilder.forEach fst snd]. unfold QueryBuilder.bindM at 1.
  change (QueryBuilder._buildWhereNode heap rand companion "where" (JObj [])
            (QueryBuilder._globalWhere QueryBuilder.initial) QueryBuilder.initial)
    with (Ok (WhereTree.Node Logical And "" [WhereTree.Node Value And "where" []],
              QueryBuilder.initial)).
  cbv iota beta. unfold QueryBuilder.bindM at 1.
  assert (Hplain : plainCriterion heap companion (fk, rowId) converted).
  { split; [exact Hscalar|]. exists w. auto. }
  pose proof (plain_step heap rand companion (fk, rowId) converted
                [WhereTree.Node Value And "where" []] QueryBuilder.initial Hplain) as Hstep.
  cbn [fst snd] in Hstep. rewrite Hstep.
  cbn [QueryBuilder.ret QueryBuilder.set_globalWhere QueryBuilder._draws
         QueryBuilder._bound QueryBuilder.initial QueryBuilder._globalWhere
         QueryBuilder._constraints QueryBuilder._joins QueryBuilder._extraColumns app fst].
  unfold QueryBuilder.bindM, QueryBuilder.mapM, QueryBuilder.lift,
    Model.getFieldWrapperChecked.
  cbn [fst snd]. rewrite Hown. cbn [QueryBuilder.callConvertToDatabaseForm].
  rewrite (convert_null _ Hallow).
  reflexivity.
Qed.

End Unlinking.

(** X22: what [unlinkAll] of a one-to-many accessor sends.  The criteria it
    hands to the update are an empty group under the name [where] next to
    the foreign key: the statement sets the foreign key to null where an
    empty parenthesised condition and the foreign key test both hold. *)
Theorem X22_unlinkAll_statement :
  forall (C : Type) (conn : AbstractConnection C) (rand : nat -> N)
         (db : Database.t C) (_inst : DatabaseInstance.t) (_d : RelationFieldData.t)
         (w : FieldSpecWrapper.t) (converted : JsValue),
    let companion := RelationFieldData.companionModel _d in
    let fk := DbSingleRelation.foreignKeyOf _d in
    let table := Model.name (Database.heap db companion) in
    DbRelation._ensureGood _inst = Ok tt ->
    Model.getFieldWrapper (Database.heap db companion) fk = Own w ->
    isValidName fk = true ->
    fk <> "where" ->
    isScalar (DatabaseInstance.rowId _inst) = true ->
    FieldSpecWrapper.convertToDatabaseForm w (DatabaseInstance.rowId _inst) = Ok converted ->
    is_false_flag (allowNull (FieldSpecWrapper.fieldSpec w)) = false ->
    DbManyRelation.unlinkAll rand _inst _d db
    = (let (r, db') :=
         Database._run db
           ("UPDATE " +:+ table +:+ " SET "
              +:+ (fk +:+ " = :" +:+ SqlBoundParams.uniqueName (rand 1))
              +:+ " WHERE () AND ("
              +:+ ((table +:+ "." +:+ fk) +:+ " = :" +:+ SqlBoundParams.uniqueName (rand 0))
              +:+ ")")
           (NamedBindings
              (<[SqlBoundParams.uniqueName (rand 1) := JNull]>
                 (<[SqlBoundParams.uniqueName (rand 0) := converted]> SqlBoundParams.empty)))
       in (Database.discard r, db')).
Proof.
  intros C conn rand db _inst _d w converted companion fk table
         Hgood Hown Hvalid Hwhere Hscalar Hconv Hallow.
  unfold DbManyRelation.unlinkAll, DbManyRelation.unlinkWhere, DbManyRelation.guarded.
  rewrite Hgood. cbn [objectAssign assign]. fold fk.
  destruct (String.eqb_spec "where" fk) as [Heq|_]; [congruence|].
  unfold Database.update. fold companion.
  rewrite (unlinkAll_update _ rand companion fk _ converted w Hown Hvalid Hscalar Hconv Hallow).
  reflexivity.
Qed.

Lemma X22_unlinkAll_witness :
  Database._connection
    (snd (DbManyRelation.unlinkAll sampleRand (DatabaseInstance.mk 1 ∅ true (JNum 7) ∅)
            (RelationFieldData.Many "invoices" OneToMany 1 2 true "customerid")
            linkedShopDatabase))
  = Some [("UPDATE invoice SET customerid = :uniq_11 WHERE () AND (invoice.customerid = :uniq_10)",
           NamedBindings (<["uniq_11" := JNull]> (<["uniq_10" := JNum 7]> ∅)))].
Proof.
  rewrite (X22_unlinkAll_statement _ _ sampleRand linkedShopDatabase
             (DatabaseInstance.mk 1 ∅ true (JNum 7) ∅)
             (RelationFieldData.Many "invoices" OneToMany 1 2 true "customerid")
             (FieldSpecWrapper.mk "customerid" (Relations.integerColumn (Some false)))
             (JNum 7) eq_refl eq_refl eq_refl ltac:(discriminate) eq_refl eq_refl eq_refl).
  reflexivity.
Defined.
Section MultiUnlink.

Context {C : Type} `{AbstractConnection C}.

Lemma mapped_step (heap : Heap) (rand : nat -> N) (model : ModelRef)
    (operator key : string) (value converted : JsValue) (w : FieldSpecWrapper.t)
    (parent : WhereTree.t) (st : QueryBuilder.State) :
  Model.getFieldWrapper (heap model) key = Own w ->
  isValidName key = true ->
  FieldSpecWrapper.convertToDatabaseForm w value = Ok converted ->
  QueryBuilder._buildMappedOperator heap rand model operator key value parent st
  = Ok (WhereTree.append parent
          (WhereTree.Fragment
             ((Model.name (heap model) +:+ "." +:+ key) +:+ " " +:+ operator +:+ " " +:+ ":"
              +:+ SqlBoundParams.uniqueName (rand (QueryBuilder._draws st)))),
        QueryBuilder.mkState (QueryBuilder._globalWhere st) (QueryBuilder._constraints st)
          (QueryBuilder._joins st) (QueryBuilder._extraColumns st)
          (<[SqlBoundParams.uniqueName (rand (QueryBuilder._draws st)) := converted]>
             (QueryBuilder._bound st))
          (S (QueryBuilder._draws st))).
Proof.
  intros Hown Hvalid Hconv. destruct (valid_name_no_dollar _ Hvalid) as [Hindex _].
  unfold QueryBuilder._buildMappedOperator, QueryBuilder._attachColumn. rewrite Hindex.
  unfold QueryBuilder.bindM, QueryBuilder.lift, Model.getFieldWrapperChecked. rewrite Hown.
  cbn [QueryBuilder.ret fst snd QueryBuilder.callConvertToDatabaseForm]. rewrite Hconv.
  reflexivity.
Qed.

Lemma unlink_remove (heap : Heap) (rand : nat -> N) (relationModel : ModelRef)
    (mine other : string) (rowId convertedRow convertedIds : JsValue) (ids : list JsValue)
    (wm wo : FieldSpecWrapper.t) :
  Model.getFieldWrapper (heap relationModel) mine = Own wm ->
  isValidName mine = true ->
  mine <> "length" ->
  isScalar rowId = true ->
  FieldSpecWrapper.convertToDatabaseForm wm rowId = Ok convertedRow ->
  Model.getFieldWrapper (heap relationModel) other = Own wo ->
  isValidName other = true ->
  FieldSpecWrapper.convertToDatabaseForm wo (JArr ids) = Ok convertedIds ->
  buildRemove heap rand relationModel
    (RemoveOptions.mk
       (Some (JObj [(mine, rowId); (other, JObj [("$in", JArr [JArr ids])])])))
  = Ok {| query :=
            "DELETE FROM " +:+ Model.name (heap relationModel) +:+ " WHERE "
              +:+ conjunction
                    [ (Model.name (heap relationModel) +:+ "." +:+ mine) +:+ " = :"
                        +:+ SqlBoundParams.uniqueName (rand 0);
                      (Model.name (heap relationModel) +:+ "." +:+ other) +:+ " = :"
                        +:+ SqlBoundParams.uniqueName (rand 1) ];
          bound := <[SqlBoundParams.uniqueName (rand 1) := convertedIds]>
                     (<[SqlBoundParams.uniqueName (rand 0) := convertedRow]>
                        SqlBoundParams.empty) |}.
Proof.
  intros Hmine Hvalid Hlength Hscalar Hrow Hother Hvalid' Hids.
  destruct (valid_name_no_dollar _ Hvalid') as [_ Hstarts].
  unfold buildRemove, run, RemoveQueryBuilder._buildRemove.
  cbn [RemoveOptions.where_ normalizeWhere loose_eq_null].
  assert (Hcriteria : RemoveQueryBuilder.noCriteria
                        (JObj [(mine, rowId); (other, JObj [("$in", JArr [JArr ids])])])
                      = false).
  { unfold RemoveQueryBuilder.noCriteria. cbn [js_truthy negb orb get_length assoc].
    destruct (String.eqb_spec mine "length") as [Heq|_]; [contradiction|].
    destruct (String.eqb other "length"); reflexivity. }
  rewrite Hcriteria.
  unfold QueryBuilder.bindM at 1. unfold QueryBuilder._buildWhere.
  unfold QueryBuilder.bindM at 1. cbn [QueryBuilder.lift entries].
  unfold QueryBuilder.bindM at 1. unfold QueryBuilder.bindM at 1.
  cbn [QueryBuilder.forEach fst snd]. unfold QueryBuilder.bindM at 1.
  assert (Hplain : plainCriterion heap relationModel (mine, rowId) convertedRow).
  { split; [exact Hscalar|]. exists wm. auto. }
  pose proof (plain_step heap rand relationModel (mine, rowId) convertedRow []
                QueryBuilder.initial Hplain) as Hstep.
  cbn [fst snd app] in Hstep.
  change (QueryBuilder._globalWhere QueryBuilder.initial)
    with (WhereTree.Node Logical And "" []).
  rewrite Hstep. unfold QueryBuilder.bindM at 1.
  cbn [QueryBuilder._buildWhereNode]. rewrite Hstarts.
  cbn [WhereTree.context typeof_object loose_eq_null negb andb].
  unfold QueryBuilder.bindM at 1. unfold QueryBuilder.bindM at 1.
  change (startsWith "$in" "$") with true. cbv iota.
  cbn [WhereTree.new WhereTree.context WhereTree.closestField].
  unfold QueryBuilder._buildOperator.
  change (assoc (toLowerCase (toLowerCase "$in")) QueryBuilder._mappedOperators)
    with (@None string).
  change (String.eqb (toLowerCase (toLowerCase "$in")) "$in") with true.
  cbn [orb get_length List.length].
  unfold QueryBuilder.bindM at 1. unfold QueryBuilder.lift at 1. cbv beta iota.
  change (js_truthy (JNum (Z.of_nat 1))) with true.
  change (strict_eq_num (JNum (Z.of_nat 1)) 1) with true.
  cbn [negb get_first].
  rewrite (mapped_step heap rand relationModel _ other (JArr ids) convertedIds wo _ _
             Hother Hvalid' Hids).
  reflexivity.
Qed.

End MultiUnlink.

(** X23: [unlink] of a many-to-many accessor compares with a list.  Given
    any instances of the companion model, [unlink] hands their row ids to
    [unlinkByPK] as one array: the delete it sends does not test the other
    foreign key for membership, it tests it for equality with a single
    placeholder, and what is bound to that placeholder is the whole list of
    row ids as the field converts it. *)
Theorem X23_multi_unlink_binds_the_list :
  forall (C : Type) (conn : AbstractConnection C) (rand : nat -> N)
         (db : Database.t C) (_inst : DatabaseInstance.t) (_d : RelationFieldData.t)
         (values : list DatabaseInstance.t) (wm wo : FieldSpecWrapper.t)
         (convertedRow convertedIds : JsValue),
    let relationModel := relationModelOf _d in
    let mine := myForeignKeyOf _d in
    let other := otherForeignKeyOf _d in
    let table := Model.name (Database.heap db relationModel) in
    DbRelation._ensureGood _inst = Ok tt ->
    _ensureRelatedInstancesGood values (RelationFieldData.companionModel _d) = Ok tt ->
    mine <> other ->
    mine <> "length" ->
    Model.getFieldWrapper (Database.heap db relationModel) mine = Own wm ->
    isValidName mine = true ->
    isScalar (DatabaseInstance.rowId _inst) = true ->
    FieldSpecWrapper.convertToDatabaseForm wm (DatabaseInstance.rowId _inst)
    = Ok convertedRow ->
    Model.getFieldWrapper (Database.heap db relationModel) other = Own wo ->
    isValidName other = true ->
    FieldSpecWrapper.convertToDatabaseForm wo (JArr (map DatabaseInstance.rowId values))
    = Ok convertedIds ->
    DbMultiRelation.unlink rand _inst _d db values
    = (let (r, db') :=
         Database._run db
           ("DELETE FROM " +:+ table +:+ " WHERE "
              +:+ conjunction
                    [ (table +:+ "." +:+ mine) +:+ " = :"
                        +:+ SqlBoundParams.uniqueName (rand 0);
                      (table +:+ "." +:+ other) +:+ " = :"
                        +:+ SqlBoundParams.uniqueName (rand 1) ])
           (NamedBindings
              (<[SqlBoundParams.uniqueName (rand 1) := convertedIds]>
                 (<[SqlBoundParams.uniqueName (rand 0) := convertedRow]>
                    SqlBoundParams.empty)))
       in (db', raise (Database.discard r))).
Proof.
  intros C conn rand db _inst _d values wm wo convertedRow convertedIds
         relationModel mine other table
         Hgood Hvalues Hdistinct Hlength Hmine Hvalid Hscalar Hrow Hother Hvalid' Hids.
  unfold DbMultiRelation.unlink, DbMultiRelation.unlinkByPK, DbMultiRelation.guarded.
  rewrite Hgood, Hvalues. cbn [_ensureRelatedPksGood loose_eq_null].
  unfold DbMultiRelation.removing, DbMultiRelation.keyPair. cbn [assign].
  fold mine other relationModel.
  destruct (String.eqb_spec mine other) as [Heq|_]; [contradiction|].
  unfold Database.remove.
  rewrite (unlink_remove _ rand relationModel mine other _ convertedRow convertedIds _ wm wo
             Hmine Hvalid Hlength Hscalar Hrow Hother Hvalid' Hids).
  cbn [query bound]. 
  match goal with
  | |- context [(String.length ?q =? 0)%nat] =>
      change (String.length q =? 0)%nat with false
  end.
  cbv iota. destruct (Database._run db _ _) as [r db']. reflexivity.
Qed.
Lemma X23_multi_unlink_witness :
  Database._connection
    (fst (DbMultiRelation.unlink sampleRand (DatabaseInstance.mk 1 ∅ true (JNum 7) ∅)
            billsRelation pivotShopDatabase
            [DatabaseInstance.mk 2 ∅ true (JNum 5) ∅; DatabaseInstance.mk 2 ∅ true (JNum 6) ∅]))
  = Some [("DELETE FROM customerInvoice WHERE (customerInvoice.customerid = :uniq_10) AND (customerInvoice.invoiceid = :uniq_11)",
           NamedBindings (<["uniq_11" := JArr [JNum 5; JNum 6]]>
                            (<["uniq_10" := JNum 7]> ∅)))].
Proof.
  rewrite (X23_multi_unlink_binds_the_list _ _ sampleRand pivotShopDatabase
             (DatabaseInstance.mk 1 ∅ true (JNum 7) ∅) billsRelation
             [DatabaseInstance.mk 2 ∅ true (JNum 5) ∅; DatabaseInstance.mk 2 ∅ true (JNum 6) ∅]
             (FieldSpecWrapper.mk "customerid" (Relations.integerColumn None))
             (FieldSpecWrapper.mk "invoiceid" (Relations.integerColumn None))
             (JNum 7) (JArr [JNum 5; JNum 6])
             eq_refl eq_refl ltac:(discriminate) ltac:(discriminate)
             eq_refl eq_refl eq_refl eq_refl eq_refl eq_refl eq_refl).
  reflexivity.
Defined.

Lemma assoc_assign (obj : list (string * JsValue)) (key : string) (value : JsValue) :
  assoc key (assign obj key value) = Some value.
Proof.
  induction obj as [|[k v] rest IH]; cbn [assign assoc].
  - rewrite String.eqb_refl. reflexivity.
  - destruct (String.eqb_spec k key) as [->|Hne]; cbn [assoc].
    + rewrite String.eqb_refl. reflexivity.
    + destruct (String.eqb_spec k key); [contradiction|]. exact IH.
Qed.

(** X24: what the accessors search for.  The search of a one-to-many
    accessor always carries the restriction of the foreign key to the row
    id of the instance, whatever criteria the caller gave for that key.
    The search of a many-to-many accessor carries it only when the caller
    gave no criteria: criteria of the caller replace it, so that the search
    is then the same for every instance. *)
Theorem X24_accessor_search_criteria :
  forall (_d : RelationFieldData.t),
    (forall _inst options found,
        DbManyRelation.findOptions _inst _d options = Ok found ->
        exists criteria,
          FindOptions.where_ found = Some (JObj criteria)
          /\ assoc (DbSingleRelation.foreignKeyOf _d) criteria
             = Some (JObj [("$eq", DatabaseInstance.rowId _inst)]))
    /\ (forall _inst options criteria found,
           FindOptions.where_ options = Some criteria ->
           DbMultiRelation.findOptions _inst _d (Some options) = Done found ->
           FindOptions.where_ found = Some criteria)
    /\ (forall inst1 inst2 options criteria,
           FindOptions.where_ options = Some criteria ->
           DbMultiRelation.findOptions inst1 _d (Some options)
           = DbMultiRelation.findOptions inst2 _d (Some options))
    /\ (forall _inst options found,
           FindOptions.where_ options = None ->
           DbMultiRelation.findOptions _inst _d (Some options) = Done found ->
           FindOptions.where_ found
           = Some (JObj [(myForeignKeyOf _d, DatabaseInstance.rowId _inst)])).
Proof.
  intros _d. split; [|split; [|split]].
  - intros _inst options found. unfold DbManyRelation.findOptions.
    destruct (DbRelation._ensureGood _inst); [|discriminate].
    intros Heq. injection Heq as <-. eexists. split; [reflexivity|]. apply assoc_assign.
  - intros _inst options criteria found Hwhere. unfold DbMultiRelation.findOptions.
    destruct (FindOptions.join options); [discriminate|].
    destruct (existsb _ _); [discriminate|].
    intros Heq. injection Heq as <-. cbn [FindOptions.where_]. rewrite Hwhere. reflexivity.
  - intros inst1 inst2 options criteria Hwhere. unfold DbMultiRelation.findOptions.
    destruct (FindOptions.join options); [reflexivity|].
    destruct (existsb _ _); [reflexivity|]. rewrite Hwhere. reflexivity.
  - intros _inst options found Hwhere. unfold DbMultiRelation.findOptions.
    destruct (FindOptions.join options); [discriminate|].
    destruct (existsb _ _); [discriminate|].
    intros Heq. injection Heq as <-. cbn [FindOptions.where_]. rewrite Hwhere. reflexivity.
Qed.

Lemma X24_accessor_search_witness :
  DbMultiRelation.findOptions (DatabaseInstance.mk 1 ∅ true (JNum 7) ∅) billsRelation
    (Some (FindOptions.mk (Some (JObj [("number", JStr "A1")])) None None None None None))
  = DbMultiRelation.findOptions (DatabaseInstance.mk 1 ∅ true (JNum 8) ∅) billsRelation
      (Some (FindOptions.mk (Some (JObj [("number", JStr "A1")])) None None None None None)).
Proof.
  exact (proj1 (proj2 (proj2 (X24_accessor_search_criteria billsRelation)))
           (DatabaseInstance.mk 1 ∅ true (JNum 7) ∅) (DatabaseInstance.mk 1 ∅ true (JNum 8) ∅)
           (FindOptions.mk (Some (JObj [("number", JStr "A1")])) None None None None None)
           (JObj [("number", JStr "A1")]) eq_refl).
Defined.

(** ** Comparison operators *)

Lemma lower_ascii_dollar (c : ascii) : lower_ascii c = "$"%char -> c = "$"%char.
Proof. destruct c as [[] [] [] [] [] [] [] []]; cbv; congruence. Qed.

Lemma toLowerCase_head (c : ascii) (rest : string) :
  exists tail, toLowerCase (String c rest) = String "k" tail
               \/ toLowerCase (String c rest) = String (lower_ascii c) tail.
Proof.
  cbn [toLowerCase]. destruct (N_of_ascii c =? 226)%N eqn:Hc; [|eexists; right; reflexivity].
  apply N.eqb_eq in Hc.
  assert (Hsame : lower_ascii c = c).
  { rewrite <- (ascii_N_embedding c), Hc. reflexivity. }
  rewrite Hsame.
  destruct rest as [|c1 [|c2 rest']]; try (eexists; right; reflexivity).
  destruct (_ && _)%bool; eexists; [left|right]; reflexivity.
Qed.

Lemma mapped_operator_key (op sql : string) :
  assoc (toLowerCase op) QueryBuilder._mappedOperators = Some sql ->
  In (toLowerCase op) (map fst QueryBuilder._mappedOperators).
Proof.
  intros Hop.
  destruct (in_dec string_dec (toLowerCase op) (map fst QueryBuilder._mappedOperators))
    as [Hin|Hout]; [exact Hin|].
  apply assoc_None_not_key in Hout. congruence.
Qed.

(** The second [toLowerCase] of [_buildWhereNode] finds the operator as the
    first one left it. *)
Lemma mapped_operator_lowered (op sql : string) :
  assoc (toLowerCase op) QueryBuilder._mappedOperators = Some sql ->
  toLowerCase (toLowerCase op) = toLowerCase op.
Proof.
  intros Hop. pose proof (mapped_operator_key _ _ Hop) as Hkey. cbn in Hkey.
  repeat destruct Hkey as [Hkey|Hkey]; try (rewrite <- Hkey; reflexivity). destruct Hkey.
Qed.

Lemma mapped_operator_is_special (op sql : string) :
  assoc (toLowerCase op) QueryBuilder._mappedOperators = Some sql ->
  startsWith op "$" = true
  /\ String.eqb (toLowerCase op) "$and" || String.eqb (toLowerCase op) "$or" = false.
Proof.
  intros Hop. pose proof (mapped_operator_key _ _ Hop) as Hkey. cbn in Hkey. split.
  - destruct op as [|c rest]; [cbn in Hkey; intuition discriminate|].
    destruct (toLowerCase_head c rest) as (tail & [Hhead|Hhead]); rewrite Hhead in Hkey.
    + repeat destruct Hkey as [Hkey|Hkey]; try discriminate. destruct Hkey.
    + assert (Hc : lower_ascii c = "$"%char)
        by (repeat destruct Hkey as [Hkey|Hkey]; try (injection Hkey as <- _; reflexivity);
            destruct Hkey).
      apply lower_ascii_dollar in Hc. subst c. destruct rest; reflexivity.
  - repeat destruct Hkey as [Hkey|Hkey]; try (rewrite <- Hkey; reflexivity). destruct Hkey.
Qed.

(** X25: the comparison operators.  A criterion [{field: {op: value}}] on
    a declared field, with [op] one of [$eq], [$like], [$gt], [$lt],
    [$gte], [$lte], [$ne], [$glob] in any letter case, compiles to the one
    condition [table.field <sql operator> :placeholder], the placeholder
    bound to the value as the field converts it. *)
Theorem X25_comparison_operators :
  forall (heap : Heap) (rand : nat -> N) (model : ModelRef) (field op sql : string)
         (value converted : JsValue) (w : FieldSpecWrapper.t),
    assoc (toLowerCase op) QueryBuilder._mappedOperators = Some sql ->
    Model.getFieldWrapper (heap model) field = Own w ->
    isValidName field = true ->
    FieldSpecWrapper.convertToDatabaseForm w value = Ok converted ->
    buildRemove heap rand model (RemoveOptions.mk (Some (criterion field op value)))
    = Ok {| query := "DELETE FROM " +:+ Model.name (heap model) +:+ " WHERE "
                     +:+ ((Model.name (heap model) +:+ "." +:+ field) +:+ " " +:+ sql
                          +:+ " :" +:+ SqlBoundParams.uniqueName (rand 0));
            bound := <[SqlBoundParams.uniqueName (rand 0) := converted]>
                       SqlBoundParams.empty |}.
Proof.
  intros heap rand model field op sql value converted w Hop Hown Hvalid Hconv.
  destruct (mapped_operator_is_special _ _ Hop) as [Hspecial _].
  destruct (valid_name_no_dollar _ Hvalid) as [_ Hfield].
  unfold buildRemove, run, RemoveQueryBuilder._buildRemove.
  change (normalizeWhere (RemoveOptions.where_
                            (RemoveOptions.mk (Some (criterion field op value)))))
    with (criterion field op value).
  assert (Hcriteria : RemoveQueryBuilder.noCriteria (criterion field op value) = false).
  { unfold RemoveQueryBuilder.noCriteria, criterion.
    cbn [js_truthy negb orb get_length assoc].
    destruct (String.eqb field "length"); reflexivity. }
  rewrite Hcriteria. unfold QueryBuilder.bindM at 1.
  rewrite (buildWhere_criterion heap rand model field op value _ Hfield).
  cbn [QueryBuilder._globalWhere QueryBuilder.initial WhereTree.context].
  change (WhereTree.context (WhereTree.new Logical And "")) with Logical. cbv iota.
  assert (Hnode :
            QueryBuilder._buildWhereNode heap rand model op value
              (WhereTree.new Value And field) QueryBuilder.initial
            = QueryBuilder._buildMappedOperator heap rand model sql field value
                (WhereTree.new Value And field) QueryBuilder.initial).
  { destruct value; cbn [QueryBuilder._buildWhereNode]; rewrite Hspecial;
      unfold WhereTree.new; cbn [WhereTree.context WhereTree.closestField];
      unfold QueryBuilder._buildOperator;
      rewrite (mapped_operator_lowered _ _ Hop), Hop; reflexivity. }
  rewrite Hnode.
  rewrite (mapped_step heap rand model sql field value converted w _ _ Hown Hvalid Hconv).
  cbn [QueryBuilder.set_globalWhere WhereTree.new WhereTree.append app
         QueryBuilder._globalWhere QueryBuilder._constraints QueryBuilder._joins
         QueryBuilder._extraColumns QueryBuilder._bound QueryBuilder._draws
         QueryBuilder.initial].
  unfold QueryBuilder.bindM, QueryBuilder._makeWhere.
  cbn [QueryBuilder._globalWhere WhereTree.build QueryBuilder._joins
         QueryBuilder._constraints QueryBuilder._bound].
  change (" " +:+ sql +:+ " " +:+ ":" +:+ SqlBoundParams.uniqueName (rand 0))
    with (String " "%char (sql +:+ " " +:+ ":" +:+ SqlBoundParams.uniqueName (rand 0))).
  rewrite (append_nonempty (Model.name (heap model) +:+ "." +:+ field)).
  reflexivity.
Qed.

Lemma X25_comparison_witness :
  exists q,
    buildRemove shopHeap sampleRand 1 (RemoveOptions.mk (Some (criterion "id" "$GTE" (JNum 3))))
    = Ok q
    /\ query q = "DELETE FROM customer WHERE customer.id >= :uniq_10".
Proof.
  eexists. split.
  - apply (X25_comparison_operators shopHeap sampleRand 1 "id" "$GTE" ">=" (JNum 3) (JNum 3)
             (FieldSpecWrapper.mk "id" integerKey)); reflexivity.
  - reflexivity.
Defined.
(** ** Built instances *)

Lemma build_loop (template : list (string * JsValue)) (fields : list FieldSpecWrapper.t) :
  forall inst : DatabaseInstance.t,
    let result :=
      fold_left
        (fun inst field =>
           let given :=
             default JUndefined (assoc (FieldSpecWrapper.fieldName field) template) in
           let given :=
             match newGenerate (FieldSpecWrapper.fieldSpec field) with
             | Some gen => if loose_eq_null given then gen given else given
             | None => given
             end in
           let given := if loose_eq_null given then JNull else given in
           DatabaseInstance.mk (DatabaseInstance.model inst)
             (<[FieldSpecWrapper.fieldName field := given]> (DatabaseInstance.fields inst))
             (DatabaseInstance.created inst) (DatabaseInstance.rowId inst)
             (DatabaseInstance.relations inst))
        fields inst in
    DatabaseInstance.model result = DatabaseInstance.model inst
    /\ DatabaseInstance.created result = DatabaseInstance.created inst
    /\ DatabaseInstance.rowId result = DatabaseInstance.rowId inst
    /\ DatabaseInstance.relations result = DatabaseInstance.relations inst
    /\ (forall key, is_Some (DatabaseInstance.fields result !! key)
                    <-> is_Some (DatabaseInstance.fields inst !! key)
                        \/ In key (map FieldSpecWrapper.fieldName fields))
    /\ (forall key value,
           DatabaseInstance.fields result !! key = Some value ->
           DatabaseInstance.fields inst !! key = Some value \/ loose_eq_null value = false
           \/ value = JNull).
Proof.
  induction fields as [|field rest IH]; intros inst; cbn [fold_left map].
  - repeat split; auto. intros [Hs|[]]. exact Hs.
  - match goal with
    | |- context [fold_left ?f rest ?i] => specialize (IH i)
    end.
    cbn zeta in IH. destruct IH as (Hm & Hc & Hr & Hrel & Hdom & Hval).
    cbn [DatabaseInstance.model DatabaseInstance.created DatabaseInstance.rowId
           DatabaseInstance.relations DatabaseInstance.fields] in *.
    split; [exact Hm|]. split; [exact Hc|]. split; [exact Hr|]. split; [exact Hrel|].
    split.
    + intros key. rewrite Hdom. cbn [In].
      destruct (String.eqb_spec (FieldSpecWrapper.fieldName field) key) as [<-|Hne].
      * rewrite lookup_insert_eq. split; [auto|eauto].
      * rewrite lookup_insert_ne by exact Hne. tauto.
    + intros key value Hkey. destruct (Hval key value Hkey) as [Hprev|Hnew]; [|auto].
      destruct (String.eqb_spec (FieldSpecWrapper.fieldName field) key) as [<-|Hne].
      * rewrite lookup_insert_eq in Hprev. injection Hprev as <-. right.
        match goal with
        | |- context [if loose_eq_null ?g then JNull else ?g] =>
            destruct (loose_eq_null g) eqn:Hnull; auto
        end.
      * rewrite lookup_insert_ne in Hprev by exact Hne. auto.
Qed.

Lemma fold_firstSet (names : list string) :
  forall acc, NoDup (acc ++ names) -> fold_left Instance.firstSet names acc = acc ++ names.
Proof.
  induction names as [|name rest IH]; intros acc Hnodup; cbn [fold_left].
  - rewrite app_nil_r. reflexivity.
  - unfold Instance.firstSet at 2.
    destruct (existsb (String.eqb name) acc) eqn:Hex.
    + exfalso. apply existsb_exists in Hex as (k & Hk & Heq). apply String.eqb_eq in Heq.
      subst k. apply NoDup_ListNoDup in Hnodup. apply List.NoDup_remove_2 in Hnodup.
      apply Hnodup. apply in_or_app. left. exact Hk.
    + rewrite IH; rewrite <- app_assoc; [reflexivity|exact Hnodup].
Qed.

(** X26: what [build] returns.  An instance built from a template is not
    created and has no row id, so the relation accessors reject it; it
    holds a value for exactly the fields the model declares, enumerated in
    definition order, and none of these values is [undefined]; and it
    carries an accessor for exactly the declared relations. *)
Theorem X26_built_instance :
  forall (heap : Heap) (model : ModelRef) (template : list (string * JsValue)),
    fieldsWellFormed (heap model) ->
    let inst := Instance.build heap model template in
    DatabaseInstance.model (Instance.target inst) = model
    /\ DatabaseInstance.created (Instance.target inst) = false
    /\ DatabaseInstance.rowId (Instance.target inst) = JNull
    /\ DbRelation._ensureGood (Instance.target inst) = Throw InstanceInvalidError
    /\ Instance.keyOrder inst = map FieldSpecWrapper.fieldName (Model.fields (heap model))
    /\ Instance.ordered inst
    /\ (forall key value,
           DatabaseInstance.fields (Instance.target inst) !! key = Some value ->
           value <> JUndefined)
    /\ relations_declared heap (Instance.target inst).
Proof.
  intros heap model template [Hnodup Hall] inst.
  assert (Hnames : map FieldSpecWrapper.fieldName (Model.fields (heap model))
                   = map fst (Model._spec (heap model))).
  { unfold Model.fields. rewrite map_map. apply map_ext_in. intros kv Hin.
    rewrite List.Forall_forall in Hall. destruct (Hall kv Hin) as (_ & Hname & _).
    exact Hname. }
  pose proof (build_loop template (Model.fields (heap model)) (DatabaseInstance.new model))
    as Hloop.
  cbv zeta in Hloop. unfold inst, Instance.build, build. cbv zeta.
  match type of Hloop with
  | DatabaseInstance.model ?d = _ /\ _ => set (built := d) in *
  end.
  destruct Hloop as (Hm & Hc & Hr & Hrel & Hdom & Hval).
  cbn [DatabaseInstance.new DatabaseInstance.model DatabaseInstance.created
         DatabaseInstance.rowId DatabaseInstance.relations DatabaseInstance.fields]
    in Hm, Hc, Hr, Hrel, Hdom, Hval.
  cbn [Instance.target Instance.keyOrder].
  assert (Hmade : DatabaseInstance.model (_makeInstance heap built)
                  = DatabaseInstance.model built
                  /\ DatabaseInstance.created (_makeInstance heap built)
                     = DatabaseInstance.created built
                  /\ DatabaseInstance.rowId (_makeInstance heap built)
                     = DatabaseInstance.rowId built
                  /\ DatabaseInstance.fields (_makeInstance heap built)
                     = DatabaseInstance.fields built) by (repeat split).
  destruct Hmade as (Mm & Mc & Mr & Mf).
  assert (Horder : fold_left Instance.firstSet
                     (map FieldSpecWrapper.fieldName (Model.fields (heap model))) []
                   = map FieldSpecWrapper.fieldName (Model.fields (heap model))).
  { rewrite fold_firstSet; [reflexivity|]. cbn [app]. rewrite Hnames. exact Hnodup. }
  split; [congruence|]. split; [congruence|]. split; [congruence|]. split.
  { unfold DbRelation._ensureGood. rewrite Mr, Hr. reflexivity. }
  split; [exact Horder|]. split.
  { split; cbn [Instance.target Instance.keyOrder].
    - rewrite Horder, Hnames. exact Hnodup.
    - intros key. rewrite Horder, Mf, Hdom, lookup_empty.
      split; [auto|]. intros [[x Hx]|Hin]; [discriminate|exact Hin]. }
  split.
  { intros key value Hkey Hundef. subst value. rewrite Mf in Hkey.
    destruct (Hval key JUndefined Hkey) as [Hprev|[Hnull|Hnull]]; discriminate. }
  apply makeInstance_relations_declared. rewrite Hrel. reflexivity.
Qed.

Lemma X26_built_instance_witness :
  Instance.keyOrder (Instance.build shopHeap 1 [("name", JStr "Ann")]) = ["id"; "name"]
  /\ DbRelation._ensureGood (Instance.target (Instance.build shopHeap 1 [("name", JStr "Ann")]))
     = Throw InstanceInvalidError.
Proof.
  pose proof (X26_built_instance shopHeap 1 [("name", JStr "Ann")]
                (proj1 (proj1 shopDatabase_wellFormed 1))) as H.
  cbn zeta in H. destruct H as (_ & _ & _ & Hguard & Horder & _).
  split; [exact Horder|exact Hguard].
Defined.
(** ** Unlinking a single relation *)

Lemma ensureGood_ok (inst : DatabaseInstance.t) :
  DbRelation._ensureGood inst = Ok tt ->
  DatabaseInstance.created inst = true
  /\ loose_eq_null (DatabaseInstance.rowId inst) = false.
Proof.
  unfold DbRelation._ensureGood.
  destruct (loose_eq_null (DatabaseInstance.rowId inst)); [discriminate|].
  destruct (DatabaseInstance.created inst); [auto|discriminate].
Qed.

(** X27: [unlink] on the side that stores the foreign key.  On a good
    instance, [unlink] of a single-valued accessor that is not the
    companion side sets the foreign key field of the instance to null and
    sends one update of that column alone, keyed by the row id of the
    instance; the instance keeps the null whether or not the statement
    succeeds. *)
Theorem X27_single_unlink :
  forall (C : Type) (conn : AbstractConnection C) (rand : nat -> N)
         (db : Database.t C) (inst : Instance.t) (_d : RelationFieldData.t)
         (w : FieldSpecWrapper.t),
    let d := Instance.target inst in
    let fk := DbSingleRelation.foreignKeyOf _d in
    let m := Database.heap db (DatabaseInstance.model d) in
    DbRelation._ensureGood d = Ok tt ->
    isCompanion _d = false ->
    DatabaseInstance.relations d !! fk = None ->
    Model.getFieldWrapper m fk = Own w ->
    is_true_flag (primaryKey (FieldSpecWrapper.fieldSpec w)) = false ->
    is_false_flag (allowNull (FieldSpecWrapper.fieldSpec w)) = false ->
    DbSingleRelation_unlink rand db inst _d
    = (let (r, db') :=
         Database._run db
           ("UPDATE " +:+ Model.name m +:+ " SET " +:+ (fk +:+ " = ?") +:+ " WHERE "
              +:+ Model.getPrimaryKeyName m +:+ " = ?")
           (PositionalBindings [JNull; DatabaseInstance.rowId d]) in
       ((db',
         Instance.mk
           (DatabaseInstance.mk (DatabaseInstance.model d)
              (<[fk := JNull]> (DatabaseInstance.fields d)) (DatabaseInstance.created d)
              (DatabaseInstance.rowId d) (DatabaseInstance.relations d))
           (Instance.firstSet (Instance.keyOrder inst) fk)),
        raise (Database.discard r))).
Proof.
  intros C conn rand db inst _d w d fk m Hgood Hside Hrel Hown Hplain Hallow.
  unfold d in *. clear d.
  destruct (ensureGood_ok _ Hgood) as [Hcreated _].
  unfold DbSingleRelation_unlink. rewrite Hgood, Hside. cbn [negb]. fold fk.
  unfold Instance.set, DatabaseInstance.set. rewrite Hrel. fold m.
  rewrite Hown, Hplain.
  unfold Persistence.flush. cbn [Instance.target DatabaseInstance.created].
  rewrite Hcreated. unfold Persistence.updateInstance.
  cbn [Instance.target DatabaseInstance.created DatabaseInstance.model
         DatabaseInstance.fields DatabaseInstance.rowId instanceValues].
  cbn [negb]. fold m. rewrite Hown, lookup_insert_eq.
  cbn [default from_option id]. rewrite (convert_null _ Hallow).
  cbn [raise map app]. destruct (Database._run db _ _) as [r db']. reflexivity.
Qed.

Lemma X27_single_unlink_witness :
  Database._connection
    (fst (fst (DbSingleRelation_unlink sampleRand linkedShopDatabase
                 (Instance.mk (DatabaseInstance.mk 2 {["customerid" := JNum 1]} true (JNum 9) ∅)
                    ["customerid"])
                 (RelationFieldData.Single "customer" OneToMany 2 1 false "customerid"))))
  = Some [("UPDATE invoice SET customerid = ? WHERE rowid = ?",
           PositionalBindings [JNull; JNum 9])].
Proof.
  rewrite (X27_single_unlink _ _ sampleRand linkedShopDatabase
             (Instance.mk (DatabaseInstance.mk 2 {["customerid" := JNum 1]} true (JNum 9) ∅)
                ["customerid"])
             (RelationFieldData.Single "customer" OneToMany 2 1 false "customerid")
             (FieldSpecWrapper.mk "customerid" (Relations.integerColumn (Some false)))
             eq_refl eq_refl (lookup_empty _) eq_refl eq_refl eq_refl).
  reflexivity.
Defined.

(** ** Reading the rows of a select *)

Lemma given_valid_name (name : string) :
  isValidName name = true -> Relations.given (Some name) = Some name.
Proof. intros H. apply given_nonempty. apply isValidName_nonempty. exact H. Qed.

Lemma selected_columns (m : Model.t) :
  isValidName (Model.name m) = true ->
  QueryBuilder._makeColumnListForModel m (Some (Model.name m))
  = map asAlias (selectedNames m).
Proof.
  intros Hvalid. unfold QueryBuilder._makeColumnListForModel, selectedNames.
  assert (Hlen : negb (String.length (Model.name m) =? 0)%nat = true).
  { destruct (Model.name m); [discriminate|reflexivity]. }
  rewrite Hlen, map_app, map_map.
  destruct (primaryKeyFields m =? 0)%nat eqn:Hcount.
  - apply Nat.eqb_eq in Hcount. unfold Model.fields.
    rewrite (find_primary_none _ Hcount). reflexivity.
  - apply Nat.eqb_neq in Hcount.
    assert (Hsome : 1 <= primaryKeyFields m) by lia.
    destruct (find_primary_some _ Hsome) as (_ & _ & w & _ & _ & _ & Hfind).
    unfold Model.fields. rewrite Hfind. cbn [map]. rewrite app_nil_r. reflexivity.
Qed.

Lemma fieldsFromResult_null_key (heap : Heap) (this : Model.t)
    (sqlResult : list (string * JsValue)) (prefix : string)
    (fields : list FieldSpecWrapper.t) :
  Relations.given (Some prefix) = Some prefix ->
  assoc "hasOwnProperty" sqlResult = None ->
  Forall (fun field =>
            exists raw,
              assoc (prefix +:+ "." +:+ FieldSpecWrapper.fieldName field) sqlResult = Some raw
              /\ (is_true_flag (primaryKey (FieldSpecWrapper.fieldSpec field)) = true ->
                  loose_eq_null (FieldSpecWrapper.convertFromDatabaseForm field raw) = true))
    fields ->
  forall result,
    loose_eq_null (DatabaseInstance.rowId result) = true ->
    exists result',
      fieldsFromResult heap this sqlResult (Some prefix) fields result = Done result'
      /\ loose_eq_null (DatabaseInstance.rowId result') = true.
Proof.
  intros Hprefix Hown Hall. induction Hall as [|field rest (raw & Hraw & Hkey) Hrest IH];
    intros result Hnull; cbn [fieldsFromResult].
  - eauto.
  - rewrite Hprefix, Hown, Hraw. apply IH.
    destruct (is_true_flag (primaryKey (FieldSpecWrapper.fieldSpec field))) eqn:Hflag.
    + destruct (set_rowId_frame heap
                  (DatabaseInstance.mk (DatabaseInstance.model result)
                     (<[FieldSpecWrapper.fieldName field :=
                          FieldSpecWrapper.convertFromDatabaseForm field raw]>
                        (DatabaseInstance.fields result))
                     (DatabaseInstance.created result) (DatabaseInstance.rowId result)
                     (DatabaseInstance.relations result))
                  (FieldSpecWrapper.convertFromDatabaseForm field raw))
        as (_ & _ & _ & -> & _).
      apply Hkey. reflexivity.
    + exact Hnull.
Qed.

(** X28: from the select to the instance.  The columns [buildSelect]
    asks for on a model are its fields, each under the name
    [model.field], and the implicit row id under [model.rowid] exactly
    when no field is flagged as primary key.  A row that holds these
    columns, and in which every primary key column is null, becomes an
    instance exactly when it holds a number under [model.rowid]: so a model
    without primary key is read through its row id, and a row whose
    declared primary key is null cannot be read, its row id not having
    been selected. *)
Theorem X28_rows_of_a_select :
  forall (heap : Heap) (model : ModelRef) (sqlResult : list (string * JsValue)),
    let m := heap model in
    isValidName (Model.name m) = true ->
    assoc "hasOwnProperty" sqlResult = None ->
    assoc ROWID sqlResult = None ->
    Forall (fun field =>
              exists raw,
                assoc (Model.name m +:+ "." +:+ FieldSpecWrapper.fieldName field) sqlResult
                = Some raw
                /\ (is_true_flag (primaryKey (FieldSpecWrapper.fieldSpec field)) = true ->
                    loose_eq_null (FieldSpecWrapper.convertFromDatabaseForm field raw) = true))
      (Model.fields m) ->
    QueryBuilder._makeColumnListForModel m (Some (Model.name m))
    = map asAlias (selectedNames m)
    /\ match assoc (Model.name m +:+ "." +:+ ROWID) sqlResult with
       | Some (JNum n) =>
           exists inst,
             buildFromDatabaseResult heap model sqlResult (Some (Model.name m)) = Done inst
             /\ DatabaseInstance.rowId inst = JNum n
       | Some _ =>
           buildFromDatabaseResult heap model sqlResult (Some (Model.name m))
           = Fail (InvalidRowidType (Model.name m))
       | None =>
           buildFromDatabaseResult heap model sqlResult (Some (Model.name m))
           = Fail (MissingRowid (Model.name m))
       end.
Proof.
  intros heap model sqlResult m Hvalid Hown Hplain Hall.
  split; [apply selected_columns; exact Hvalid|].
  destruct (fieldsFromResult_null_key heap m sqlResult (Model.name m) (Model.fields m)
              (given_valid_name _ Hvalid) Hown Hall (DatabaseInstance.new model) eq_refl)
    as (result & Hloop & Hnull).
  unfold buildFromDatabaseResult. fold m. rewrite Hloop, Hnull, Hplain.
  destruct (assoc (Model.name m +:+ "." +:+ ROWID) sqlResult) as [rowid|]; [|reflexivity].
  destruct rowid; try reflexivity.
  cbn [typeof_number negb]. eexists. split; [reflexivity|].
  cbn [_makeInstance DatabaseInstance.rowId DatabaseInstance.set_rowId]. reflexivity.
Qed.

Lemma X28_rows_witness :
  buildFromDatabaseResult shopHeap 1 [("customer.id", JNull); ("customer.name", JStr "Ann")]
    (Some "customer")
  = Fail (MissingRowid "customer").
Proof.
  refine (proj2 (X28_rows_of_a_select shopHeap 1
                   [("customer.id", JNull); ("customer.name", JStr "Ann")]
                   eq_refl eq_refl eq_refl _)).
  repeat constructor; eexists; (split; [reflexivity|]); intros; try reflexivity; discriminate.
Defined.
